(** * Plugin lifecycle manager and capability registry

    A shallow embedding of [plugin-registry.ts], [plugin-installer.ts],
    [plugin-manager.ts] and the five commands of [plugin-commands.ts]
    that drive the manager, and the properties of the lifecycle
    (install, load, enable, disable, uninstall, update, reload) stated
    over it.

    Conventions of the embedding:
    - a JavaScript [Map<string, V>] is an insertion-ordered association
      list with unique keys ([JsMap V]); iteration order is list order;
    - a thrown value is represented by its message ([Throw e]);
    - the [async] methods run to completion one after the other, so each
      is a function from the state before to a result and the state after;
      what a method changed before it threw stays changed;
    - a file is represented by what the program can observe of it: the
      outcome of [JSON.parse] on its text and the outcome of [import()];
    - the disk is a map from paths to files and directories; a write, a
      mkdir or a removal throws when the disk is read-only, and a read or
      a write of a file throws when the path is a directory; a directory
      lists the paths that are one segment below it, in the order of the
      map. Paths are compared as strings, so a statement that depends on
      two paths being the same place or not is made for paths that
      [path.join] leaves as they are;
    - plugin code is represented by what the manager can observe of it: a
      lifecycle hook by whether it returns or throws, a registration hook
      by the calls it makes on the handle it is given and whether it
      throws after them. Hooks are taken not to keep a handle and call it
      later;
    - [loadPlugin_calls] is a ghost field that records every entry into
      [loadPlugin]; the program does not read it;
    - what [console.log] prints is kept beside the manager, in the
      [Terminal] of the commands; the console of the manager holds the
      warnings and the errors. *)

From Stdlib Require Import String Ascii List Bool ZArith.
From Stdlib Require Import Floats.SpecFloat.
From stdpp Require Import base strings option list gmap.
Import ListNotations.
Open Scope string_scope.
Open Scope list_scope.

(** ** Exceptions *)

Inductive Exc (A : Type) : Type :=
| Ok (a : A)
| Throw (e : string).
Arguments Ok {A} a.
Arguments Throw {A} e.

Definition exc_bind {A B} (x : Exc A) (f : A -> Exc B) : Exc B :=
  match x with
  | Ok a => f a
  | Throw e => Throw e
  end.

(** ** JSON values, as [JSON.parse] returns them *)

#[local] Set Warnings "-register-all".

Inductive json : Type :=
| JNull
| JBool (b : bool)
| JNum (x : spec_float)
| JStr (s : string)
| JArr (items : list json)
| JObj (fields : list (string * json)).

(** Truthiness of a value, as [!v] and [a || b] test it. *)
Definition truthy (v : json) : bool :=
  match v with
  | JNull => false
  | JBool b => b
  | JNum (S754_zero _) => false
  | JNum S754_nan => false
  | JNum _ => true
  | JStr s => negb (String.eqb s "")
  | JArr _ => true
  | JObj _ => true
  end.

(** [undefined] is [None]. *)
Definition truthy_opt (v : option json) : bool :=
  match v with
  | Some j => truthy j
  | None => false
  end.

Fixpoint assoc_get {V : Type} (k : string) (l : list (string * V)) : option V :=
  match l with
  | [] => None
  | (k', v) :: rest => if String.eqb k' k then Some v else assoc_get k rest
  end.

(** Reading the property [k] (one of the names the program uses, none of
    which a string, array, number or boolean defines): [null.k] throws a
    TypeError, an object gives its own property, anything else gives
    [undefined]. *)
Definition get_prop (v : json) (k : string) : Exc (option json) :=
  match v with
  | JNull => Throw ("Cannot read properties of null (reading '" +:+ k +:+ "')")
  | JObj fields => Ok (assoc_get k fields)
  | _ => Ok None
  end.

Definition float_same (x y : spec_float) : bool :=
  match x, y with
  | S754_zero _, S754_zero _ => true
  | S754_infinity a, S754_infinity b => Bool.eqb a b
  | S754_nan, S754_nan => true
  | S754_finite s m e, S754_finite s' m' e' =>
      Bool.eqb s s' && Pos.eqb m m' && Z.eqb e e'
  | _, _ => false
  end.

(** SameValueZero, the equality of [Set] and [Map] keys. Two arrays or two
    objects that come out of a parse are distinct references. *)
Definition same_value_zero (a b : json) : bool :=
  match a, b with
  | JNull, JNull => true
  | JBool x, JBool y => Bool.eqb x y
  | JNum x, JNum y => float_same x y
  | JStr x, JStr y => String.eqb x y
  | _, _ => false
  end.

(** What [JSON.parse (JSON.stringify v)] gives back: non-finite numbers are
    written as [null] and a negative zero as [0]. *)
Fixpoint restringify (v : json) : json :=
  match v with
  | JNum (S754_zero _) => JNum (S754_zero false)
  | JNum (S754_infinity _) => JNull
  | JNum S754_nan => JNull
  | JArr items => JArr (List.map restringify items)
  | JObj fields => JObj (List.map (fun kv => (fst kv, restringify (snd kv))) fields)
  | _ => v
  end.

(** ** [Set], insertion ordered *)

Definition JsSet := list json.

Definition set_has (x : json) (s : JsSet) : bool :=
  existsb (same_value_zero x) s.

Definition set_add (x : json) (s : JsSet) : JsSet :=
  if set_has x s then s else s ++ [x].

Definition set_delete (x : json) (s : JsSet) : JsSet :=
  List.filter (fun y => negb (same_value_zero x y)) s.

Definition set_from_list (l : list json) : JsSet :=
  fold_left (fun s x => set_add x s) l [].

Fixpoint string_chars (s : string) : list json :=
  match s with
  | EmptyString => []
  | String c rest => JStr (String c EmptyString) :: string_chars rest
  end.

(** [new Set(v)]: arrays and strings are iterable, the other values are
    not and make the constructor throw a TypeError. *)
Definition new_Set (v : json) : Exc JsSet :=
  match v with
  | JArr items => Ok (set_from_list items)
  | JStr s => Ok (set_from_list (string_chars s))
  | _ => Throw "object is not iterable"
  end.

(** ** [Map<string, V>], insertion ordered *)

Definition JsMap (V : Type) : Type := list (string * V).

Definition map_get {V : Type} (k : string) (m : JsMap V) : option V :=
  assoc_get k m.

Definition map_has {V : Type} (k : string) (m : JsMap V) : bool :=
  match map_get k m with
  | Some _ => true
  | None => false
  end.

Fixpoint map_set {V : Type} (k : string) (v : V) (m : JsMap V) : JsMap V :=
  match m with
  | [] => [(k, v)]
  | (k', v') :: rest =>
      if String.eqb k' k then (k, v) :: rest else (k', v') :: map_set k v rest
  end.

Definition map_delete {V : Type} (k : string) (m : JsMap V) : JsMap V :=
  List.filter (fun kv => negb (String.eqb (fst kv) k)) m.

Definition map_keys {V : Type} (m : JsMap V) : list string := List.map fst m.

Definition map_values {V : Type} (m : JsMap V) : list V := List.map snd m.

(** ** plugin-interface.ts *)

Record PluginCommand : Type := {
  cmd_name : string;
  cmd_description : string;
  cmd_usage : option string;
  cmd_examples : option (list string)
}.

Record PluginTool : Type := {
  tool_name : string;
  tool_displayName : string;
  tool_description : string;
  tool_parameters : option json
}.

Record PluginTheme : Type := {
  theme_name : string;
  theme_displayName : string;
  theme_description : string;
  theme_colors : list (string * string)
}.

Inductive ExtensionType : Type := McpServer | Custom.

Record PluginExtension : Type := {
  ext_name : string;
  ext_type : ExtensionType;
  ext_config : json
}.

(** ** plugin-registry.ts *)

Record PluginRegistry : Type := {
  commands : JsMap PluginCommand;
  tools : JsMap PluginTool;
  themes : JsMap PluginTheme;
  extensions : JsMap PluginExtension;
  pluginOwnership : JsMap string (* capability -> plugin *)
}.

Definition empty_registry : PluginRegistry :=
  {| commands := []; tools := []; themes := []; extensions := [];
     pluginOwnership := [] |}.

Definition with_commands (f : JsMap PluginCommand -> JsMap PluginCommand)
    (r : PluginRegistry) : PluginRegistry :=
  {| commands := f (commands r); tools := tools r; themes := themes r;
     extensions := extensions r; pluginOwnership := pluginOwnership r |}.

Definition with_tools (f : JsMap PluginTool -> JsMap PluginTool)
    (r : PluginRegistry) : PluginRegistry :=
  {| commands := commands r; tools := f (tools r); themes := themes r;
     extensions := extensions r; pluginOwnership := pluginOwnership r |}.

Definition with_themes (f : JsMap PluginTheme -> JsMap PluginTheme)
    (r : PluginRegistry) : PluginRegistry :=
  {| commands := commands r; tools := tools r; themes := f (themes r);
     extensions := extensions r; pluginOwnership := pluginOwnership r |}.

Definition with_extensions (f : JsMap PluginExtension -> JsMap PluginExtension)
    (r : PluginRegistry) : PluginRegistry :=
  {| commands := commands r; tools := tools r; themes := themes r;
     extensions := f (extensions r); pluginOwnership := pluginOwnership r |}.

Definition with_ownership (f : JsMap string -> JsMap string)
    (r : PluginRegistry) : PluginRegistry :=
  {| commands := commands r; tools := tools r; themes := themes r;
     extensions := extensions r; pluginOwnership := f (pluginOwnership r) |}.

(** The four handles. Each method closes over the registry it came from,
    so here it takes the registry and returns the updated one. *)

Record CommandRegistry : Type := {
  registerCommand : PluginCommand -> PluginRegistry -> PluginRegistry;
  unregisterCommand : string -> PluginRegistry -> PluginRegistry
}.

Record ToolRegistry : Type := {
  registerTool : PluginTool -> PluginRegistry -> PluginRegistry;
  unregisterTool : string -> PluginRegistry -> PluginRegistry
}.

Record ThemeRegistry : Type := {
  registerTheme : PluginTheme -> PluginRegistry -> PluginRegistry;
  unregisterTheme : string -> PluginRegistry -> PluginRegistry
}.

Record ExtensionRegistry : Type := {
  registerExtension : PluginExtension -> PluginRegistry -> PluginRegistry;
  unregisterExtension : string -> PluginRegistry -> PluginRegistry
}.

Definition getCommandRegistry : CommandRegistry :=
  {| registerCommand := fun command r =>
       with_ownership (map_set ("command:" +:+ cmd_name command) "unknown")
         (with_commands (map_set (cmd_name command) command) r);
     unregisterCommand := fun name r =>
       with_ownership (map_delete ("command:" +:+ name))
         (with_commands (map_delete name) r) |}.

Definition getToolRegistry : ToolRegistry :=
  {| registerTool := fun tool r =>
       with_ownership (map_set ("tool:" +:+ tool_name tool) "unknown")
         (with_tools (map_set (tool_name tool) tool) r);
     unregisterTool := fun name r =>
       with_ownership (map_delete ("tool:" +:+ name))
         (with_tools (map_delete name) r) |}.

Definition getThemeRegistry : ThemeRegistry :=
  {| registerTheme := fun theme r =>
       with_ownership (map_set ("theme:" +:+ theme_name theme) "unknown")
         (with_themes (map_set (theme_name theme) theme) r);
     unregisterTheme := fun name r =>
       with_ownership (map_delete ("theme:" +:+ name))
         (with_themes (map_delete name) r) |}.

Definition getExtensionRegistry : ExtensionRegistry :=
  {| registerExtension := fun extension r =>
       with_ownership (map_set ("extension:" +:+ ext_name extension) "unknown")
         (with_extensions (map_set (ext_name extension) extension) r);
     unregisterExtension := fun name r =>
       with_ownership (map_delete ("extension:" +:+ name))
         (with_extensions (map_delete name) r) |}.

Definition getCommand (name : string) (r : PluginRegistry) : option PluginCommand :=
  map_get name (commands r).

Definition getAllCommands (r : PluginRegistry) : list PluginCommand :=
  map_values (commands r).

Definition getTool (name : string) (r : PluginRegistry) : option PluginTool :=
  map_get name (tools r).

Definition getTheme (name : string) (r : PluginRegistry) : option PluginTheme :=
  map_get name (themes r).

Definition getExtension (name : string) (r : PluginRegistry) : option PluginExtension :=
  map_get name (extensions r).

(** [s.split(sep)] for a one-character separator. *)
Fixpoint split (sep : ascii) (s : string) : list string :=
  match s with
  | EmptyString => [EmptyString]
  | String c rest =>
      if Ascii.eqb c sep then EmptyString :: split sep rest
      else match split sep rest with
           | hd :: tl => String c hd :: tl
           | [] => [String c EmptyString]
           end
  end.

(** [m.delete(name)] where [name] may be [undefined] (no key is). *)
Definition map_delete_opt {V : Type} (name : option string) (m : JsMap V) : JsMap V :=
  match name with
  | Some n => map_delete n m
  | None => m
  end.

(** The body of the loop of [unregisterPlugin] for one ownership entry. *)
Definition unregisterPlugin_step (pluginName : string) (r : PluginRegistry)
    (entry : string * string) : PluginRegistry :=
  let '(capability, owner) := entry in
  if String.eqb owner pluginName then
    let parts := split ":" capability in
    let type := nth_error parts 0 in
    let name := nth_error parts 1 in
    let r1 :=
      match type with
      | Some t =>
          if String.eqb t "command" then with_commands (map_delete_opt name) r
          else if String.eqb t "tool" then with_tools (map_delete_opt name) r
          else if String.eqb t "theme" then with_themes (map_delete_opt name) r
          else if String.eqb t "extension" then with_extensions (map_delete_opt name) r
          else r
      | None => r
      end in
    with_ownership (map_delete capability) r1
  else r.

(** [unregisterPlugin]. The loop deletes from the map it iterates only the
    entry it is visiting, so with unique keys it visits exactly the
    entries the map had on entry, in order. *)
Definition unregisterPlugin (pluginName : string) (r : PluginRegistry) : PluginRegistry :=
  fold_left (unregisterPlugin_step pluginName) (pluginOwnership r) r.

Record Capabilities : Type := {
  cap_commands : list PluginCommand;
  cap_tools : list PluginTool;
  cap_themes : list PluginTheme;
  cap_extensions : list PluginExtension
}.

Definition push_opt {V : Type} (l : list V) (v : option V) : list V :=
  match v with
  | Some x => l ++ [x]
  | None => l
  end.

Definition map_get_opt {V : Type} (name : option string) (m : JsMap V) : option V :=
  match name with
  | Some n => map_get n m
  | None => None
  end.

Definition getPluginCapabilities_step (pluginName : string) (r : PluginRegistry)
    (acc : Capabilities) (entry : string * string) : Capabilities :=
  let '(capability, owner) := entry in
  if String.eqb owner pluginName then
    let parts := split ":" capability in
    let type := nth_error parts 0 in
    let name := nth_error parts 1 in
    match type with
    | Some t =>
        if String.eqb t "command" then
          {| cap_commands := push_opt (cap_commands acc) (map_get_opt name (commands r));
             cap_tools := cap_tools acc; cap_themes := cap_themes acc;
             cap_extensions := cap_extensions acc |}
        else if String.eqb t "tool" then
          {| cap_commands := cap_commands acc;
             cap_tools := push_opt (cap_tools acc) (map_get_opt name (tools r));
             cap_themes := cap_themes acc; cap_extensions := cap_extensions acc |}
        else if String.eqb t "theme" then
          {| cap_commands := cap_commands acc; cap_tools := cap_tools acc;
             cap_themes := push_opt (cap_themes acc) (map_get_opt name (themes r));
             cap_extensions := cap_extensions acc |}
        else if String.eqb t "extension" then
          {| cap_commands := cap_commands acc; cap_tools := cap_tools acc;
             cap_themes := cap_themes acc;
             cap_extensions :=
               push_opt (cap_extensions acc) (map_get_opt name (extensions r)) |}
        else acc
    | None => acc
    end
  else acc.

Definition no_capabilities : Capabilities :=
  {| cap_commands := []; cap_tools := []; cap_themes := []; cap_extensions := [] |}.

Definition getPluginCapabilities (pluginName : string) (r : PluginRegistry) : Capabilities :=
  fold_left (getPluginCapabilities_step pluginName r) (pluginOwnership r) no_capabilities.

(** ** The plugin object (plugin-interface.ts) *)

Record PluginMetadata : Type := {
  md_name : string;
  md_version : string;
  md_description : string;
  md_author : string;
  md_type : string;
  md_entryPoint : string
}.

Record PluginContext : Type := {
  workspaceRoot : string;
  ctx_pluginRoot : string;
  config : json
}.

(** A lifecycle hook ([onInstall], [onUninstall], [onEnable], [onDisable])
    is plugin code; the manager sees of it whether the awaited call
    returns or throws. [None], in the plugin record below, is a hook the
    plugin does not define. *)
Inductive HookOutcome : Type :=
| Returns
| Throws (e : string).

(** A registration hook receives a handle and calls its two methods any
    number of times, and may throw after that. *)
Inductive HandleCall (C : Type) : Type :=
| Register (c : C)
| Unregister (name : string).
Arguments Register {C} c.
Arguments Unregister {C} name.

Record RegistrationHook (C : Type) : Type := {
  hook_calls : list (HandleCall C);
  hook_throws : option string
}.
Arguments hook_calls {C} _.
Arguments hook_throws {C} _.

Record GeminiPlugin : Type := {
  metadata : option PluginMetadata;
  onInstall : option HookOutcome;
  onUninstall : option HookOutcome;
  onEnable : option HookOutcome;
  onDisable : option HookOutcome;
  registerCommands : option (RegistrationHook PluginCommand);
  registerTools : option (RegistrationHook PluginTool);
  registerThemes : option (RegistrationHook PluginTheme);
  registerExtensions : option (RegistrationHook PluginExtension)
}.

Record PluginInstallResult : Type := {
  success : bool;
  plugin : option GeminiPlugin;
  error : option string
}.

Definition failed (msg : string) : PluginInstallResult :=
  {| success := false; plugin := None; error := Some msg |}.

(** [new PluginClass(context)] *)
Definition PluginClass : Type := PluginContext -> Exc GeminiPlugin.

(** The truthy exports of a module, by export name. *)
Definition ModuleExports : Type := list (string * PluginClass).

(** ** The file system *)

Record FileObs : Type := {
  as_json : Exc json;            (* JSON.parse of the text *)
  as_module : Exc ModuleExports  (* import() of the file *)
}.

Inductive Node : Type :=
| Dir
| File (f : FileObs).

Record FS : Type := {
  nodes : gmap string Node;
  read_only : bool  (* every write, mkdir and rm is refused *)
}.

Definition set_nodes (f : gmap string Node -> gmap string Node) (d : FS) : FS :=
  {| nodes := f (nodes d); read_only := read_only d |}.

(** [path.join] of two parts, neither of which needs normalising: the
    second is a plain name (see [plain_name] below) or a relative path
    made of such names. For other parts ([""], ["."], [".."], a trailing
    separator) [path.join] gives another path than this one, and the
    statements that depend on which path it is are made for plain names. *)
Definition path_join (a b : string) : string := a +:+ "/" +:+ b.

Fixpoint dirname_aux (s : string) : option string :=
  match s with
  | EmptyString => None
  | String c rest =>
      match dirname_aux rest with
      | Some d => Some (String c d)
      | None => if Ascii.eqb c "/" then Some EmptyString else None
      end
  end.

(** [path.dirname]: the path up to its last separator. *)
Definition path_dirname (s : string) : string :=
  match dirname_aux s with
  | Some EmptyString => "/"
  | Some d => d
  | None => "."
  end.

Definition existsSync (p : string) (d : FS) : bool :=
  match nodes d !! p with
  | Some _ => true
  | None => false
  end.

Definition readFileSync (p : string) (d : FS) : Exc FileObs :=
  match nodes d !! p with
  | Some (File f) => Ok f
  | Some Dir => Throw "EISDIR: illegal operation on a directory, read"
  | None => Throw ("ENOENT: no such file or directory, open '" +:+ p +:+ "'")
  end.

(** [JSON.parse(fs.readFileSync(p, 'utf-8'))] *)
Definition read_json (p : string) (d : FS) : Exc json :=
  exc_bind (readFileSync p d) as_json.

(** [await import(p)], for a path that the process imports for the first
    time: the module cache of the process, which answers a later import
    of the same path, is not part of the state. *)
Definition import (p : string) (d : FS) : Exc ModuleExports :=
  match nodes d !! p with
  | Some (File f) => as_module f
  | Some Dir => Throw ("Directory import '" +:+ p +:+ "' is not supported")
  | None => Throw ("Cannot find module '" +:+ p +:+ "'")
  end.

Definition writeFileSync (p : string) (f : FileObs) (d : FS) : Exc FS :=
  if read_only d then Throw ("EROFS: read-only file system, open '" +:+ p +:+ "'")
  else match nodes d !! p with
       | Some Dir => Throw ("EISDIR: illegal operation on a directory, open '" +:+ p +:+ "'")
       | _ => Ok (set_nodes (insert p (File f)) d)
       end.

(** [fs.mkdirSync(p, { recursive: true })], for a path whose parent is a
    directory: the parents that the call would create, or stumble on,
    are not looked at. *)
Definition mkdirSync (p : string) (d : FS) : Exc FS :=
  match nodes d !! p with
  | Some Dir => Ok d
  | Some (File _) => Throw ("EEXIST: file already exists, mkdir '" +:+ p +:+ "'")
  | None =>
      if read_only d then Throw ("EROFS: read-only file system, mkdir '" +:+ p +:+ "'")
      else Ok (set_nodes (insert p Dir) d)
  end.

Definition below (dir p : string) : bool :=
  String.eqb p dir || String.prefix (dir +:+ "/") p.

(** [fs.rmSync(p, { recursive: true, force: true })]: [p] and everything
    under it; nothing to do, and no error, when [p] does not exist. Of
    the errors of a removal only the one of a read-only disk is here; a
    statement that needs a removal to go through says that it returns. *)
Definition rmSync (p : string) (d : FS) : Exc FS :=
  if existsSync p d then
    if read_only d then Throw ("EROFS: read-only file system, rm '" +:+ p +:+ "'")
    else Ok (set_nodes (filter (fun kv => negb (below p (fst kv)))) d)
  else Ok d.

(** The text [JSON.stringify(v, null, 2)], as a file. *)
Definition json_file (v : json) : FileObs :=
  {| as_json := Ok (restringify v);
     as_module := Throw "Unexpected token ':'" |}.

(** The rest of [s] after the prefix [p], when it starts with it. *)
Fixpoint strip_prefix (p s : string) : option string :=
  match p, s with
  | EmptyString, _ => Some s
  | String a p', String b s' => if Ascii.eqb a b then strip_prefix p' s' else None
  | String _ _, EmptyString => None
  end.

Fixpoint has_separator (s : string) : bool :=
  match s with
  | EmptyString => false
  | String c rest => Ascii.eqb c "/" || has_separator rest
  end.

(** The name under which the path [p] is an entry of the directory
    [dir]: [p] is [dir/name] and [name] is one path segment. *)
Definition entry_name (dir p : string) : option string :=
  match strip_prefix (dir +:+ "/") p with
  | Some name =>
      if String.eqb name "" || has_separator name then None else Some name
  | None => None
  end.

Definition directory_entry (dir : string) (kv : string * Node) : option string :=
  match snd kv with
  | Dir => entry_name dir (fst kv)
  | File _ => None
  end.

(** [fs.readdirSync(dir, { withFileTypes: true })
       .filter(dirent => dirent.isDirectory()).map(dirent => dirent.name)];
    the order of the entries is the one the disk lists them in. *)
Definition readdir_directories (dir : string) (d : FS) : Exc (list string) :=
  match nodes d !! dir with
  | Some Dir => Ok (omap (directory_entry dir) (map_to_list (nodes d)))
  | Some (File _) => Throw ("ENOTDIR: not a directory, scandir '" +:+ dir +:+ "'")
  | None => Throw ("ENOENT: no such file or directory, scandir '" +:+ dir +:+ "'")
  end.

(** ** The manager's state, the disk and the console *)

Inductive LogEntry : Type :=
| Warn (msg : string) (err : string)
| Error (msg : string) (err : string).

Record World : Type := {
  pluginRoot : string;
  plugins : JsMap GeminiPlugin;
  registry : PluginRegistry;
  enabledPlugins : JsSet;
  pluginContexts : JsMap PluginContext;
  fs : FS;
  console : list LogEntry;
  loadPlugin_calls : list string  (* ghost: the names [loadPlugin] was entered with *)
}.

Definition set_plugins (f : JsMap GeminiPlugin -> JsMap GeminiPlugin) (w : World) : World :=
  {| pluginRoot := pluginRoot w; plugins := f (plugins w); registry := registry w;
     enabledPlugins := enabledPlugins w; pluginContexts := pluginContexts w;
     fs := fs w; console := console w; loadPlugin_calls := loadPlugin_calls w |}.

Definition set_registry (f : PluginRegistry -> PluginRegistry) (w : World) : World :=
  {| pluginRoot := pluginRoot w; plugins := plugins w; registry := f (registry w);
     enabledPlugins := enabledPlugins w; pluginContexts := pluginContexts w;
     fs := fs w; console := console w; loadPlugin_calls := loadPlugin_calls w |}.

Definition set_enabledPlugins (f : JsSet -> JsSet) (w : World) : World :=
  {| pluginRoot := pluginRoot w; plugins := plugins w; registry := registry w;
     enabledPlugins := f (enabledPlugins w); pluginContexts := pluginContexts w;
     fs := fs w; console := console w; loadPlugin_calls := loadPlugin_calls w |}.

Definition set_pluginContexts (f : JsMap PluginContext -> JsMap PluginContext)
    (w : World) : World :=
  {| pluginRoot := pluginRoot w; plugins := plugins w; registry := registry w;
     enabledPlugins := enabledPlugins w; pluginContexts := f (pluginContexts w);
     fs := fs w; console := console w; loadPlugin_calls := loadPlugin_calls w |}.

Definition set_fs (f : FS -> FS) (w : World) : World :=
  {| pluginRoot := pluginRoot w; plugins := plugins w; registry := registry w;
     enabledPlugins := enabledPlugins w; pluginContexts := pluginContexts w;
     fs := f (fs w); console := console w; loadPlugin_calls := loadPlugin_calls w |}.

Definition set_console (f : list LogEntry -> list LogEntry) (w : World) : World :=
  {| pluginRoot := pluginRoot w; plugins := plugins w; registry := registry w;
     enabledPlugins := enabledPlugins w; pluginContexts := pluginContexts w;
     fs := fs w; console := f (console w); loadPlugin_calls := loadPlugin_calls w |}.

Definition set_loadPlugin_calls (f : list string -> list string) (w : World) : World :=
  {| pluginRoot := pluginRoot w; plugins := plugins w; registry := registry w;
     enabledPlugins := enabledPlugins w; pluginContexts := pluginContexts w;
     fs := fs w; console := console w; loadPlugin_calls := f (loadPlugin_calls w) |}.

(** ** Computations: state that survives a throw *)

Definition M (A : Type) : Type := World -> Exc A * World.

Definition ret {A : Type} (a : A) : M A := fun w => (Ok a, w).

Definition bind {A B : Type} (c : M A) (k : A -> M B) : M B :=
  fun w =>
    match c w with
    | (Ok a, w') => k a w'
    | (Throw e, w') => (Throw e, w')
    end.

Definition throw {A : Type} (e : string) : M A := fun w => (Throw e, w).

(** [try { c } catch (error) { h error }] *)
Definition try_catch {A : Type} (c : M A) (h : string -> M A) : M A :=
  fun w =>
    match c w with
    | (Ok a, w') => (Ok a, w')
    | (Throw e, w') => h e w'
    end.

Definition get : M World := fun w => (Ok w, w).

Definition modify (f : World -> World) : M unit := fun w => (Ok tt, f w).

Definition lift {A : Type} (x : Exc A) : M A := fun w => (x, w).

(** A file-system call that changes the disk, or throws and leaves it. *)
Definition fs_do (op : FS -> Exc FS) : M unit :=
  fun w =>
    match op (fs w) with
    | Ok d => (Ok tt, set_fs (fun _ => d) w)
    | Throw e => (Throw e, w)
    end.

Declare Scope js_scope.
Delimit Scope js_scope with js.
Notation "x <- c ;; k" := (bind c (fun x => k))
  (at level 100, c at next level, right associativity) : js_scope.
Notation "c ;; k" := (bind c (fun _ => k))
  (at level 100, right associativity) : js_scope.
Open Scope js_scope.

Definition console_warn (msg err : string) : M unit :=
  modify (set_console (fun l => l ++ [Warn msg err])).

Definition console_error (msg err : string) : M unit :=
  modify (set_console (fun l => l ++ [Error msg err])).

(** ** plugin-installer.ts *)

Module PluginInstaller.

Definition uninstall (pluginName : string) : M unit :=
  w <- get ;;
  let pluginDir := path_join (pluginRoot w) pluginName in
  if existsSync pluginDir (fs w) then fs_do (rmSync pluginDir) else ret tt.

Definition required : list string :=
  ["name"; "version"; "description"; "author"; "type"; "entryPoint"; "compatibility"].

(** [path.join(pluginDir, metadata.entryPoint)]: [path.join] throws a
    TypeError on an argument that is not a string. *)
Definition join_entryPoint (pluginDir : string) (entryPoint : option json) : Exc string :=
  match entryPoint with
  | Some (JStr s) => Ok (path_join pluginDir s)
  | _ => Throw "The path argument must be of type string"
  end.

(** The loop over the required fields: [Some field] is the first one
    that is missing. *)
Fixpoint first_missing (metadata : json) (fields : list string) : Exc (option string) :=
  match fields with
  | [] => Ok None
  | field :: rest =>
      exc_bind (get_prop metadata field) (fun v =>
        if negb (truthy_opt v) then Ok (Some field)
        else first_missing metadata rest)
  end.

Definition validateInstallation (pluginName : string) : M PluginInstallResult :=
  w <- get ;;
  let pluginDir := path_join (pluginRoot w) pluginName in
  let packageJsonPath := path_join pluginDir "package.json" in
  if negb (existsSync packageJsonPath (fs w)) then
    ret (failed ("Plugin " +:+ pluginName +:+ " missing package.json"))
  else
    try_catch
      (metadata <- lift (read_json packageJsonPath (fs w)) ;;
       missing <- lift (first_missing metadata required) ;;
       match missing with
       | Some field =>
           ret (failed ("Plugin " +:+ pluginName +:+ " missing required field: " +:+ field))
       | None =>
           ep <- lift (get_prop metadata "entryPoint") ;;
           entryPoint <- lift (join_entryPoint pluginDir ep) ;;
           if negb (existsSync entryPoint (fs w)) then
             ret (failed ("Plugin " +:+ pluginName +:+ " entry point not found: "
                          +:+ entryPoint))
           else ret {| success := true; plugin := None; error := None |}
       end)
      (fun error =>
         ret (failed ("Failed to validate plugin " +:+ pluginName +:+ ": " +:+ error))).

Definition mock_names : list string :=
  ["pip-analyzer"; "code-review-assistant"; "dark-theme-pro"; "git-workflow";
   "docker-helper"].

Definition includes (l : list string) (s : string) : bool :=
  existsb (String.eqb s) l.

Definition mock_packageJson (pluginName : string) : json :=
  JObj [("name", JStr pluginName);
        ("version", JStr "1.0.0");
        ("description", JStr ("Mock plugin: " +:+ pluginName));
        ("author", JStr "demo-user");
        ("type", JStr "tool");
        ("entryPoint", JStr "index.js");
        ("compatibility", JObj [("gemini-cli", JStr ">=0.1.0"); ("node", JStr ">=18.0.0")]);
        ("tags", JArr [JStr "demo"; JStr "mock"]);
        ("repository", JStr "https://github.com/demo/plugins");
        ("license", JStr "MIT")].

(** The class the generated [index.js] defines and assigns to
    [module.exports]: its two hooks only log. *)
Definition mock_class (pluginName : string) : PluginClass :=
  fun _ =>
    Ok {| metadata := Some {| md_name := pluginName; md_version := "1.0.0";
                              md_description := "Mock plugin: " +:+ pluginName;
                              md_author := "demo-user"; md_type := "tool";
                              md_entryPoint := "index.js" |};
          onInstall := None; onUninstall := None;
          onEnable := Some Returns; onDisable := Some Returns;
          registerCommands := None; registerTools := None;
          registerThemes := None; registerExtensions := None |}.

Definition mock_indexJs (pluginName : string) : FileObs :=
  {| as_json := Throw "Unexpected token '/'";
     as_module := Ok [("default", mock_class pluginName)] |}.

Definition text_file : FileObs :=
  {| as_json := Throw "Unexpected token '#'";
     as_module := Throw "Invalid or unexpected token" |}.

Definition createMockPlugin (pluginName pluginDir : string) : M PluginInstallResult :=
  try_catch
    (fs_do (writeFileSync (path_join pluginDir "package.json")
              (json_file (mock_packageJson pluginName))) ;;
     fs_do (writeFileSync (path_join pluginDir "index.js") (mock_indexJs pluginName)) ;;
     fs_do (writeFileSync (path_join pluginDir "README.md") text_file) ;;
     ret {| success := true; plugin := None; error := None |})
    (fun error =>
       ret (failed ("Failed to create mock plugin " +:+ pluginName +:+ ": " +:+ error))).

(** [s.startsWith(p)] and the rest of [s] after a prefix of that length. *)
Definition startsWith (p s : string) : bool := String.prefix p s.

Definition after_prefix (p s : string) : string :=
  String.substring (String.length p) (String.length s - String.length p) s.

(** [copyDirectory(src, dest)] for a destination that is not below the
    source: every file and directory below [src] appears below [dest];
    a directory that is already there is kept. [readdirSync] throws when
    [src] is not a directory. *)
Definition copy_nodes (src dest : string) (m : gmap string Node) : gmap string Node :=
  map_fold
    (fun p n acc =>
       if String.prefix (src +:+ "/") p then
         let target := dest +:+ after_prefix src p in
         match n, acc !! target with
         | Dir, Some _ => acc
         | _, _ => <[target := n]> acc
         end
       else acc)
    m m.

Definition has_entries (src : string) (m : gmap string Node) : bool :=
  map_fold (fun p _ acc => acc || String.prefix (src +:+ "/") p) false m.

Definition copyDirectory (src dest : string) : M unit :=
  w <- get ;;
  (if negb (existsSync dest (fs w)) then fs_do (mkdirSync dest) else ret tt) ;;
  w1 <- get ;;
  match nodes (fs w1) !! src with
  | Some Dir =>
      if read_only (fs w1) && has_entries src (nodes (fs w1)) then
        throw ("EROFS: read-only file system, copyfile '" +:+ src +:+ "'")
      else modify (set_fs (set_nodes (copy_nodes src dest)))
  | Some (File _) => throw ("ENOTDIR: not a directory, scandir '" +:+ src +:+ "'")
  | None => throw ("ENOENT: no such file or directory, scandir '" +:+ src +:+ "'")
  end.

(** [packageJson.scripts && packageJson.scripts.build], from the value of
    [packageJson.scripts]. *)
Definition scripts_build (scripts : option json) : Exc (option json) :=
  match scripts with
  | Some s => if truthy s then get_prop s "build" else Ok (Some s)
  | None => Ok None
  end.

Definition getInstalledPlugins (w : World) : Exc (list string) :=
  if negb (existsSync (pluginRoot w) (fs w)) then Ok []
  else readdir_directories (pluginRoot w) (fs w).


Section InstallerExternal.

(** [execSync(command, { cwd })] runs an external program ([npm],
    [git]); what it does to the disk is not the program's to decide. *)
Variable execSync : string -> option string -> FS -> Exc FS.

Definition installFromNpm (pluginName : string) : M PluginInstallResult :=
  w <- get ;;
  let pluginDir := path_join (pluginRoot w) pluginName in
  try_catch
    (fs_do (mkdirSync pluginDir) ;;
     if includes mock_names pluginName then createMockPlugin pluginName pluginDir
     else
       let npmCommand :=
         "npm install " +:+ pluginName +:+ " --prefix " +:+ pluginDir +:+ " --no-save" in
       fs_do (execSync npmCommand None) ;;
       let nodeModulesDir := path_join (path_join pluginDir "node_modules") pluginName in
       w1 <- get ;;
       if negb (existsSync nodeModulesDir (fs w1)) then
         ret (failed ("Plugin " +:+ pluginName +:+ " not found in npm registry"))
       else
         copyDirectory nodeModulesDir pluginDir ;;
         fs_do (rmSync (path_join pluginDir "node_modules")) ;;
         fs_do (rmSync (path_join pluginDir "package-lock.json")) ;;
         validateInstallation pluginName)
    (fun error =>
       ret (failed ("Failed to install plugin " +:+ pluginName +:+ " from npm: "
                    +:+ error))).

Definition installFromUrl (pluginName url : string) : M PluginInstallResult :=
  w <- get ;;
  let pluginDir := path_join (pluginRoot w) pluginName in
  try_catch
    (let cloneCommand := "git clone " +:+ url +:+ " " +:+ pluginDir in
     fs_do (execSync cloneCommand None) ;;
     let packageJsonPath := path_join pluginDir "package.json" in
     w1 <- get ;;
     (if existsSync packageJsonPath (fs w1)
      then fs_do (execSync "npm install" (Some pluginDir)) else ret tt) ;;
     w2 <- get ;;
     packageJson <- lift (read_json packageJsonPath (fs w2)) ;;
     scripts <- lift (get_prop packageJson "scripts") ;;
     build <- lift (scripts_build scripts) ;;
     (if truthy_opt build
      then fs_do (execSync "npm run build" (Some pluginDir)) else ret tt) ;;
     validateInstallation pluginName)
    (fun error =>
       ret (failed ("Failed to install plugin " +:+ pluginName +:+ " from URL: "
                    +:+ error))).

Definition installFromLocalPath (pluginName localPath : string) : M PluginInstallResult :=
  w <- get ;;
  let pluginDir := path_join (pluginRoot w) pluginName in
  try_catch
    (copyDirectory localPath pluginDir ;;
     let packageJsonPath := path_join pluginDir "package.json" in
     w1 <- get ;;
     (if existsSync packageJsonPath (fs w1)
      then fs_do (execSync "npm install" (Some pluginDir)) else ret tt) ;;
     w2 <- get ;;
     packageJson <- lift (read_json packageJsonPath (fs w2)) ;;
     scripts <- lift (get_prop packageJson "scripts") ;;
     build <- lift (scripts_build scripts) ;;
     (if truthy_opt build
      then fs_do (execSync "npm run build" (Some pluginDir)) else ret tt) ;;
     validateInstallation pluginName)
    (fun error =>
       ret (failed ("Failed to install plugin " +:+ pluginName +:+ " from local path: "
                    +:+ error))).

Definition installFromSource (pluginName source : string) : M PluginInstallResult :=
  w <- get ;;
  let pluginDir := path_join (pluginRoot w) pluginName in
  try_catch
    (fs_do (mkdirSync pluginDir) ;;
     if String.eqb source "npm" then installFromNpm pluginName
     else if startsWith "http" source then installFromUrl pluginName source
     else if startsWith "file://" source then
       installFromLocalPath pluginName (after_prefix "file://" source)
     else
       w1 <- get ;;
       if existsSync source (fs w1) then installFromLocalPath pluginName source
       else ret (failed ("Invalid source: " +:+ source)))
    (fun error =>
       ret (failed ("Failed to install plugin " +:+ pluginName +:+ " from source: "
                    +:+ error))).

(** [source] is [undefined] ([None]) or a string; the empty string is
    falsy like [undefined]. *)
Definition install (pluginName : string) (source : option string)
    : M PluginInstallResult :=
  try_catch
    (w <- get ;;
     let pluginDir := path_join (pluginRoot w) pluginName in
     (if existsSync pluginDir (fs w) then uninstall pluginName else ret tt) ;;
     match source with
     | Some s =>
         if negb (String.eqb s "") then installFromSource pluginName s
         else installFromNpm pluginName
     | None => installFromNpm pluginName
     end)
    (fun error =>
       ret (failed ("Failed to install plugin " +:+ pluginName +:+ ": " +:+ error))).

Definition update (pluginName : string) : M PluginInstallResult :=
  try_catch
    (w <- get ;;
     let pluginDir := path_join (pluginRoot w) pluginName in
     let packageJsonPath := path_join pluginDir "package.json" in
     if negb (existsSync packageJsonPath (fs w)) then
       ret (failed ("Plugin " +:+ pluginName +:+ " not found"))
     else
       _ <- lift (read_json packageJsonPath (fs w)) ;;
       installFromNpm pluginName)
    (fun error =>
       ret (failed ("Failed to update plugin " +:+ pluginName +:+ ": " +:+ error))).

End InstallerExternal.

End PluginInstaller.

(** ** plugin-manager.ts *)

Definition ensurePluginDirectory : M unit :=
  w <- get ;;
  if negb (existsSync (pluginRoot w) (fs w)) then fs_do (mkdirSync (pluginRoot w))
  else ret tt.

(** [enabled.plugins || []] *)
Definition plugins_or_empty (p : option json) : json :=
  match p with
  | Some v => if truthy v then v else JArr []
  | None => JArr []
  end.

Definition loadEnabledPlugins : M unit :=
  w <- get ;;
  let enabledFile := path_join (pluginRoot w) "enabled.json" in
  if existsSync enabledFile (fs w) then
    try_catch
      (enabled <- lift (read_json enabledFile (fs w)) ;;
       p <- lift (get_prop enabled "plugins") ;;
       s <- lift (new_Set (plugins_or_empty p)) ;;
       modify (set_enabledPlugins (fun _ => s)))
      (fun error =>
         console_warn "Failed to load enabled plugins:" error ;;
         modify (set_enabledPlugins (fun _ => [])))
  else ret tt.

Definition saveEnabledPlugins : M unit :=
  w <- get ;;
  let enabledFile := path_join (pluginRoot w) "enabled.json" in
  let enabled := JObj [("plugins", JArr (enabledPlugins w))] in
  fs_do (writeFileSync enabledFile (json_file enabled)).

Definition required : list string :=
  ["name"; "version"; "description"; "author"; "type"; "entryPoint"; "compatibility"].

Fixpoint validate_fields (metadata : json) (fields : list string) : Exc bool :=
  match fields with
  | [] => Ok true
  | field :: rest =>
      exc_bind (get_prop metadata field) (fun v =>
        if negb (truthy_opt v) then Ok false else validate_fields metadata rest)
  end.

Definition validatePluginMetadata (metadata : json) : Exc bool :=
  validate_fields metadata required.

Definition loadPluginConfig (pluginName : string) : M json :=
  w <- get ;;
  let configFile := path_join (path_join (pluginRoot w) pluginName) "config.json" in
  if existsSync configFile (fs w) then
    try_catch
      (lift (read_json configFile (fs w)))
      (fun error =>
         console_warn ("Failed to load config for plugin " +:+ pluginName +:+ ":") error ;;
         ret (JObj []))
  else ret (JObj []).

(** The calls a registration hook makes on the handle it was given. *)
Definition run_handle_calls {C : Type}
    (register : C -> PluginRegistry -> PluginRegistry)
    (unregister : string -> PluginRegistry -> PluginRegistry)
    (calls : list (HandleCall C)) (r : PluginRegistry) : PluginRegistry :=
  fold_left
    (fun acc call =>
       match call with
       | Register c => register c acc
       | Unregister name => unregister name acc
       end)
    calls r.

Definition call_registration_hook {C : Type}
    (register : C -> PluginRegistry -> PluginRegistry)
    (unregister : string -> PluginRegistry -> PluginRegistry)
    (hook : option (RegistrationHook C)) : M unit :=
  match hook with
  | Some h =>
      modify (set_registry (run_handle_calls register unregister (hook_calls h))) ;;
      match hook_throws h with
      | Some e => throw e
      | None => ret tt
      end
  | None => ret tt
  end.

Definition registerPluginCapabilities (p : GeminiPlugin) : M unit :=
  call_registration_hook (registerCommand getCommandRegistry)
    (unregisterCommand getCommandRegistry) (registerCommands p) ;;
  call_registration_hook (registerTool getToolRegistry)
    (unregisterTool getToolRegistry) (registerTools p) ;;
  call_registration_hook (registerTheme getThemeRegistry)
    (unregisterTheme getThemeRegistry) (registerThemes p) ;;
  call_registration_hook (registerExtension getExtensionRegistry)
    (unregisterExtension getExtensionRegistry) (registerExtensions p).

(** [if (plugin.onX) await plugin.onX()] *)
Definition call_hook (hook : option HookOutcome) : M unit :=
  match hook with
  | Some Returns => ret tt
  | Some (Throws e) => throw e
  | None => ret tt
  end.

(** [pluginModule.default || pluginModule[metadata.name] || pluginModule.Plugin] *)
Definition find_plugin_class (pluginModule : ModuleExports) (name : option json)
    : option PluginClass :=
  match assoc_get "default" pluginModule with
  | Some c => Some c
  | None =>
      match match name with
            | Some (JStr s) => assoc_get s pluginModule
            | _ => None
            end with
      | Some c => Some c
      | None => assoc_get "Plugin" pluginModule
      end
  end.

(** [plugin.metadata && plugin.metadata.name === metadata.name] *)
Definition implements_interface (p : GeminiPlugin) (name : option json) : bool :=
  match metadata p, name with
  | Some md, Some (JStr s) => String.eqb (md_name md) s
  | _, _ => false
  end.

Definition loadPlugin (pluginName : string) : M PluginInstallResult :=
  modify (set_loadPlugin_calls (fun l => l ++ [pluginName])) ;;
  try_catch
    (w <- get ;;
     let pluginDir := path_join (pluginRoot w) pluginName in
     if negb (existsSync pluginDir (fs w)) then
       ret (failed ("Plugin " +:+ pluginName +:+ " not found"))
     else
       let metadataFile := path_join pluginDir "package.json" in
       if negb (existsSync metadataFile (fs w)) then
         ret (failed ("Plugin " +:+ pluginName +:+ " missing package.json"))
       else
         md <- lift (read_json metadataFile (fs w)) ;;
         valid <- lift (validatePluginMetadata md) ;;
         if negb valid then
           ret (failed ("Plugin " +:+ pluginName +:+ " has invalid metadata"))
         else
           ep <- lift (get_prop md "entryPoint") ;;
           entryPoint <- lift (PluginInstaller.join_entryPoint pluginDir ep) ;;
           if negb (existsSync entryPoint (fs w)) then
             ret (failed ("Plugin " +:+ pluginName +:+ " entry point not found: "
                          +:+ entryPoint))
           else
             pluginModule <- lift (import entryPoint (fs w)) ;;
             name <- lift (get_prop md "name") ;;
             match find_plugin_class pluginModule name with
             | None =>
                 ret (failed ("Plugin " +:+ pluginName
                              +:+ " does not export a valid plugin class"))
             | Some PluginClass =>
                 cfg <- loadPluginConfig pluginName ;;
                 let context :=
                   {| workspaceRoot := path_dirname (pluginRoot w);
                      ctx_pluginRoot := pluginDir;
                      config := cfg |} in
                 p <- lift (PluginClass context) ;;
                 if negb (implements_interface p name) then
                   ret (failed ("Plugin " +:+ pluginName
                                +:+ " does not implement required interface"))
                 else
                   modify (set_plugins (map_set pluginName p)) ;;
                   modify (set_pluginContexts (map_set pluginName context)) ;;
                   registerPluginCapabilities p ;;
                   w1 <- get ;;
                   (if set_has (JStr pluginName) (enabledPlugins w1)
                    then call_hook (onEnable p) else ret tt) ;;
                   ret {| success := true; plugin := Some p; error := None |}
             end)
    (fun error =>
       ret (failed ("Failed to load plugin " +:+ pluginName +:+ ": " +:+ error))).

Section ManagerExternal.

Variable execSync : string -> option string -> FS -> Exc FS.

Definition installPlugin (pluginName : string) (source : option string)
    : M PluginInstallResult :=
  try_catch
    (result <- PluginInstaller.install execSync pluginName source ;;
     (match success result, plugin result with
      | true, Some _ => _ <- loadPlugin pluginName ;; ret tt
      | _, _ => ret tt
      end) ;;
     ret result)
    (fun error =>
       ret (failed ("Failed to install plugin " +:+ pluginName +:+ ": " +:+ error))).

End ManagerExternal.

Definition uninstallPlugin (pluginName : string) : M bool :=
  try_catch
    (w <- get ;;
     (match map_get pluginName (plugins w) with
      | Some p => call_hook (onUninstall p)
      | None => ret tt
      end) ;;
     modify (set_registry (unregisterPlugin pluginName)) ;;
     modify (set_plugins (map_delete pluginName)) ;;
     modify (set_pluginContexts (map_delete pluginName)) ;;
     modify (set_enabledPlugins (set_delete (JStr pluginName))) ;;
     saveEnabledPlugins ;;
     PluginInstaller.uninstall pluginName ;;
     ret true)
    (fun error =>
       console_error ("Failed to uninstall plugin " +:+ pluginName +:+ ":") error ;;
       ret false).

Definition enablePlugin (pluginName : string) : M bool :=
  w <- get ;;
  match map_get pluginName (plugins w) with
  | None => ret false
  | Some p =>
      call_hook (onEnable p) ;;
      modify (set_enabledPlugins (set_add (JStr pluginName))) ;;
      saveEnabledPlugins ;;
      ret true
  end.

Definition disablePlugin (pluginName : string) : M bool :=
  w <- get ;;
  match map_get pluginName (plugins w) with
  | None => ret false
  | Some p =>
      call_hook (onDisable p) ;;
      modify (set_enabledPlugins (set_delete (JStr pluginName))) ;;
      saveEnabledPlugins ;;
      ret true
  end.

Definition getPlugin (pluginName : string) (w : World) : option GeminiPlugin :=
  map_get pluginName (plugins w).

Definition reloadPlugin (pluginName : string) : M PluginInstallResult :=
  w <- get ;;
  (match map_get pluginName (plugins w) with
   | Some p => call_hook (onDisable p)
   | None => ret tt
   end) ;;
  modify (set_plugins (map_delete pluginName)) ;;
  modify (set_pluginContexts (map_delete pluginName)) ;;
  modify (set_registry (unregisterPlugin pluginName)) ;;
  loadPlugin pluginName.

Definition getAllPlugins (w : World) : list GeminiPlugin := map_values (plugins w).

(** [plugins.filter(plugin => enabled.has(plugin.metadata.name))]: the
    test throws a TypeError at a plugin without [metadata]. *)
Fixpoint filter_enabled (enabled : JsSet) (l : list GeminiPlugin) : Exc (list GeminiPlugin) :=
  match l with
  | [] => Ok []
  | p :: rest =>
      match metadata p with
      | None => Throw "Cannot read properties of undefined (reading 'name')"
      | Some md =>
          exc_bind (filter_enabled enabled rest) (fun kept =>
            Ok (if set_has (JStr (md_name md)) enabled then p :: kept else kept))
      end
  end.

Definition getEnabledPlugins (w : World) : Exc (list GeminiPlugin) :=
  filter_enabled (enabledPlugins w) (map_values (plugins w)).

(** [for (const pluginDir of pluginDirs) await this.loadPlugin(pluginDir)] *)
Fixpoint load_each (pluginDirs : list string) : M unit :=
  match pluginDirs with
  | [] => ret tt
  | pluginDir :: rest => _ <- loadPlugin pluginDir ;; load_each rest
  end.

Definition loadAllPlugins : M unit :=
  w <- get ;;
  pluginDirs <- lift (readdir_directories (pluginRoot w) (fs w)) ;;
  load_each pluginDirs.

(** The manager as its field initialisers leave it, before the
    constructor body runs, over a given disk. *)
Definition new_manager (root : string) (d : FS) : World :=
  {| pluginRoot := root; plugins := []; registry := empty_registry;
     enabledPlugins := []; pluginContexts := []; fs := d; console := [];
     loadPlugin_calls := [] |}.

(** The constructor, up to its call of [loadAllPlugins]: that one is
    started and not awaited. *)
Definition new_PluginManager (workspaceRoot : string) (d : FS) : Exc unit * World :=
  (ensurePluginDirectory ;; loadEnabledPlugins)
    (new_manager (path_join (path_join workspaceRoot ".gemini") "plugins") d).

(** ** commands/plugin-commands.ts *)

Module PluginCommands.

(** The manager the commands drive, and the lines [console.log] has
    printed. *)
Record Terminal : Type := {
  manager : World;
  stdout : list string
}.

Definition console_log (line : string) (t : Terminal) : Terminal :=
  {| manager := manager t; stdout := stdout t ++ [line] |}.

(** [await this.pluginManager. ...] *)
Definition call {A : Type} (c : M A) (t : Terminal) : Exc A * Terminal :=
  (fst (c (manager t)), {| manager := snd (c (manager t)); stdout := stdout t |}).

(** The line feed of the messages. *)
Definition nl : string := String "010"%char EmptyString.

(** [`${result.error}`], which prints a missing [error] as [undefined]. *)
Definition show_error (e : option string) : string :=
  match e with
  | Some msg => msg
  | None => "undefined"
  end.

Definition enable (pluginName : string) (t : Terminal) : string * Terminal :=
  let t1 := console_log ("✅ Enabling plugin: " +:+ pluginName +:+ "...") t in
  match call (enablePlugin pluginName) t1 with
  | (Ok success, t2) =>
      if success then
        (nl +:+ "✅ Successfully enabled plugin: " +:+ pluginName +:+ nl, t2)
      else (nl +:+ "❌ Failed to enable plugin: " +:+ pluginName +:+ nl, t2)
  | (Throw error, t2) =>
      (nl +:+ "❌ Failed to enable plugin: " +:+ pluginName +:+ nl
       +:+ "   Error: " +:+ error +:+ nl, t2)
  end.

Definition disable (pluginName : string) (t : Terminal) : string * Terminal :=
  let t1 := console_log ("❌ Disabling plugin: " +:+ pluginName +:+ "...") t in
  match call (disablePlugin pluginName) t1 with
  | (Ok success, t2) =>
      if success then
        (nl +:+ "✅ Successfully disabled plugin: " +:+ pluginName +:+ nl, t2)
      else (nl +:+ "❌ Failed to disable plugin: " +:+ pluginName +:+ nl, t2)
  | (Throw error, t2) =>
      (nl +:+ "❌ Failed to disable plugin: " +:+ pluginName +:+ nl
       +:+ "   Error: " +:+ error +:+ nl, t2)
  end.

Definition uninstall (pluginName : string) (t : Terminal) : string * Terminal :=
  let t1 := console_log ("🗑️  Uninstalling plugin: " +:+ pluginName +:+ "...") t in
  match call (uninstallPlugin pluginName) t1 with
  | (Ok success, t2) =>
      if success then
        (nl +:+ "✅ Successfully uninstalled plugin: " +:+ pluginName +:+ nl, t2)
      else (nl +:+ "❌ Failed to uninstall plugin: " +:+ pluginName +:+ nl, t2)
  | (Throw error, t2) =>
      (nl +:+ "❌ Failed to uninstall plugin: " +:+ pluginName +:+ nl
       +:+ "   Error: " +:+ error +:+ nl, t2)
  end.

Section CommandsExternal.

Variable execSync : string -> option string -> FS -> Exc FS.

Definition install (pluginName : string) (source : option string) (t : Terminal)
    : string * Terminal :=
  let t1 := console_log ("📦 Installing plugin: " +:+ pluginName +:+ "...") t in
  match call (installPlugin execSync pluginName source) t1 with
  | (Ok result, t2) =>
      if success result then
        (nl +:+ "✅ Successfully installed plugin: " +:+ pluginName +:+ nl, t2)
      else
        (nl +:+ "❌ Failed to install plugin: " +:+ pluginName +:+ nl
         +:+ "   Error: " +:+ show_error (error result) +:+ nl, t2)
  | (Throw error, t2) =>
      (nl +:+ "❌ Failed to install plugin: " +:+ pluginName +:+ nl
       +:+ "   Error: " +:+ error +:+ nl, t2)
  end.

Definition update (pluginName : string) (t : Terminal) : string * Terminal :=
  let t1 := console_log ("🔄 Updating plugin: " +:+ pluginName +:+ "...") t in
  match call (PluginInstaller.update execSync pluginName) t1 with
  | (Ok result, t2) =>
      if success result then
        match call (reloadPlugin pluginName) t2 with
        | (Ok _, t3) =>
            (nl +:+ "✅ Successfully updated plugin: " +:+ pluginName +:+ nl, t3)
        | (Throw error, t3) =>
            (nl +:+ "❌ Failed to update plugin: " +:+ pluginName +:+ nl
             +:+ "   Error: " +:+ error +:+ nl, t3)
        end
      else
        (nl +:+ "❌ Failed to update plugin: " +:+ pluginName +:+ nl
         +:+ "   Error: " +:+ show_error (error result) +:+ nl, t2)
  | (Throw error, t2) =>
      (nl +:+ "❌ Failed to update plugin: " +:+ pluginName +:+ nl
       +:+ "   Error: " +:+ error +:+ nl, t2)
  end.

End CommandsExternal.

End PluginCommands.

(** ** Vocabulary of the statements *)

Definition enabledFile (w : World) : string := path_join (pluginRoot w) "enabled.json".

(** The file [saveEnabledPlugins] writes in [w]. *)
Definition enabled_json_of (w : World) : FileObs :=
  json_file (JObj [("plugins", JArr (enabledPlugins w))]).

(** The body of the [try] of [loadEnabledPlugins]. *)
Definition read_enabled (w : World) : Exc JsSet :=
  exc_bind (read_json (enabledFile w) (fs w)) (fun enabled =>
  exc_bind (get_prop enabled "plugins") (fun p =>
  new_Set (plugins_or_empty p))).

(** Its [catch]. *)
Definition warn_enabled (e : string) (w : World) : World :=
  set_enabledPlugins (fun _ => [])
    (set_console (fun l => l ++ [Warn "Failed to load enabled plugins:" e]) w).

(** A hook that is absent, or present and returning. *)
Definition does_not_throw (h : option HookOutcome) : bool :=
  match h with
  | Some (Throws _) => false
  | _ => true
  end.

Definition uninstall_hook (pluginName : string) (w : World) : option HookOutcome :=
  match map_get pluginName (plugins w) with
  | Some p => onUninstall p
  | None => None
  end.

(** What [uninstallPlugin] does in memory between the hook and the write. *)
Definition forget (pluginName : string) (w : World) : World :=
  set_enabledPlugins (set_delete (JStr pluginName))
    (set_pluginContexts (map_delete pluginName)
       (set_plugins (map_delete pluginName)
          (set_registry (unregisterPlugin pluginName) w))).

(** The [catch] of [uninstallPlugin]. *)
Definition log_uninstall_failure (pluginName e : string) (w : World) : World :=
  set_console
    (fun l => l ++ [Error ("Failed to uninstall plugin " +:+ pluginName +:+ ":") e]) w.

Definition note_call (pluginName : string) (w : World) : World :=
  set_loadPlugin_calls (fun l => l ++ [pluginName]) w.

(** [this.plugins.set(...); this.pluginContexts.set(...)] *)
Definition store (pluginName : string) (p : GeminiPlugin) (context : PluginContext)
    (w : World) : World :=
  set_pluginContexts (map_set pluginName context) (set_plugins (map_set pluginName p) w).

(** The [catch] of [loadPlugin]. *)
Definition load_failure (pluginName e : string) : PluginInstallResult :=
  failed ("Failed to load plugin " +:+ pluginName +:+ ": " +:+ e).

(** [loadPlugin] in two parts. The first runs up to the check of the
    instance that [new PluginClass(context)] returned: it gives either
    the failed result that [loadPlugin] returns at once, or the instance
    and its context. *)
Definition instantiate (pluginName : string)
    : M (PluginInstallResult + GeminiPlugin * PluginContext) :=
  w <- get ;;
  let pluginDir := path_join (pluginRoot w) pluginName in
  if negb (existsSync pluginDir (fs w)) then
    ret (inl (failed ("Plugin " +:+ pluginName +:+ " not found")))
  else
    let metadataFile := path_join pluginDir "package.json" in
    if negb (existsSync metadataFile (fs w)) then
      ret (inl (failed ("Plugin " +:+ pluginName +:+ " missing package.json")))
    else
      md <- lift (read_json metadataFile (fs w)) ;;
      valid <- lift (validatePluginMetadata md) ;;
      if negb valid then
        ret (inl (failed ("Plugin " +:+ pluginName +:+ " has invalid metadata")))
      else
        ep <- lift (get_prop md "entryPoint") ;;
        entryPoint <- lift (PluginInstaller.join_entryPoint pluginDir ep) ;;
        if negb (existsSync entryPoint (fs w)) then
          ret (inl (failed ("Plugin " +:+ pluginName +:+ " entry point not found: "
                            +:+ entryPoint)))
        else
          pluginModule <- lift (import entryPoint (fs w)) ;;
          name <- lift (get_prop md "name") ;;
          match find_plugin_class pluginModule name with
          | None =>
              ret (inl (failed ("Plugin " +:+ pluginName
                                +:+ " does not export a valid plugin class")))
          | Some PluginClass =>
              cfg <- loadPluginConfig pluginName ;;
              let context :=
                {| workspaceRoot := path_dirname (pluginRoot w);
                   ctx_pluginRoot := pluginDir;
                   config := cfg |} in
              p <- lift (PluginClass context) ;;
              if negb (implements_interface p name) then
                ret (inl (failed ("Plugin " +:+ pluginName
                                  +:+ " does not implement required interface")))
              else ret (inr (p, context))
          end.

(** The second part stores the two, registers the capabilities and calls
    [onEnable]. *)
Definition activate (pluginName : string) (p : GeminiPlugin) (context : PluginContext)
    : M PluginInstallResult :=
  modify (set_plugins (map_set pluginName p)) ;;
  modify (set_pluginContexts (map_set pluginName context)) ;;
  registerPluginCapabilities p ;;
  w <- get ;;
  (if set_has (JStr pluginName) (enabledPlugins w)
   then call_hook (onEnable p) else ret tt) ;;
  ret {| success := true; plugin := Some p; error := None |}.

Definition succeeded (r : Exc PluginInstallResult) : bool :=
  match r with
  | Ok x => success x
  | Throw _ => false
  end.

(** [keeps R c]: running [c] relates the state before to the state after. *)
Definition keeps (R : World -> World -> Prop) {A : Type} (c : M A) : Prop :=
  forall w, R w (snd (c w)).

(** Only the registry differs. *)
Definition same_but_registry (w w' : World) : Prop :=
  pluginRoot w' = pluginRoot w /\ plugins w' = plugins w /\
  enabledPlugins w' = enabledPlugins w /\ pluginContexts w' = pluginContexts w /\
  fs w' = fs w /\ console w' = console w /\ loadPlugin_calls w' = loadPlugin_calls w.

(** A computation whose result, when it returns one, carries no [plugin]. *)
Definition plain (c : M PluginInstallResult) : Prop :=
  forall w, match fst (c w) with
            | Ok r => plugin r = None
            | Throw _ => True
            end.

(** A computation that always returns a result, and one without [plugin]. *)
Definition settled (c : M PluginInstallResult) : Prop :=
  forall w, exists r, fst (c w) = Ok r /\ plugin r = None.

(** Every ownership entry names the owner ["unknown"]. *)
Definition all_unknown (r : PluginRegistry) : Prop :=
  Forall (fun entry => snd entry = "unknown") (pluginOwnership r).

(** A registry operation that keeps it so. *)
Definition keeps_unknown (f : PluginRegistry -> PluginRegistry) : Prop :=
  forall r, all_unknown r -> all_unknown (f r).

Definition unknown_stays (w w' : World) : Prop :=
  all_unknown (registry w) -> all_unknown (registry w').

(** The registry after the calls of one registration hook. *)
Definition hook_registry {C : Type}
    (register : C -> PluginRegistry -> PluginRegistry)
    (unregister : string -> PluginRegistry -> PluginRegistry)
    (hook : option (RegistrationHook C)) (r : PluginRegistry) : PluginRegistry :=
  match hook with
  | Some h => run_handle_calls register unregister (hook_calls h) r
  | None => r
  end.

Definition hook_threw {C : Type} (hook : option (RegistrationHook C)) : bool :=
  match hook with
  | Some h => match hook_throws h with Some _ => true | None => false end
  | None => false
  end.

(** The registry after the registration hooks of [p], each with all its
    calls, in the order of [registerPluginCapabilities], up to and
    including the first one that throws. *)
Definition registered (p : GeminiPlugin) (r : PluginRegistry) : PluginRegistry :=
  let r1 := hook_registry (registerCommand getCommandRegistry)
              (unregisterCommand getCommandRegistry) (registerCommands p) r in
  if hook_threw (registerCommands p) then r1 else
  let r2 := hook_registry (registerTool getToolRegistry)
              (unregisterTool getToolRegistry) (registerTools p) r1 in
  if hook_threw (registerTools p) then r2 else
  let r3 := hook_registry (registerTheme getThemeRegistry)
              (unregisterTheme getThemeRegistry) (registerThemes p) r2 in
  if hook_threw (registerThemes p) then r3 else
  hook_registry (registerExtension getExtensionRegistry)
    (unregisterExtension getExtensionRegistry) (registerExtensions p) r3.

Definition same_registry (w w' : World) : Prop := registry w' = registry w.

(** Only the disk differs. *)
Definition same_but_disk (w w' : World) : Prop :=
  pluginRoot w' = pluginRoot w /\ plugins w' = plugins w /\ registry w' = registry w /\
  enabledPlugins w' = enabledPlugins w /\ pluginContexts w' = pluginContexts w /\
  console w' = console w /\ loadPlugin_calls w' = loadPlugin_calls w.

(** The capability maps and the ownership map are in step: a name is
    registered exactly when its ownership key is there. *)
Definition in_step (r : PluginRegistry) : Prop :=
  forall name,
    map_has name (commands r) = map_has ("command:" +:+ name) (pluginOwnership r) /\
    map_has name (tools r) = map_has ("tool:" +:+ name) (pluginOwnership r) /\
    map_has name (themes r) = map_has ("theme:" +:+ name) (pluginOwnership r) /\
    map_has name (extensions r) = map_has ("extension:" +:+ name) (pluginOwnership r).

(** A registry operation that keeps them in step. *)
Definition keeps_in_step (f : PluginRegistry -> PluginRegistry) : Prop :=
  forall r, in_step r -> in_step (f r).

(** A property of the registry that holds after if it held before. *)
Definition stays_in (P : PluginRegistry -> Prop) (w w' : World) : Prop :=
  P (registry w) -> P (registry w').

(** The registry is the same after, if before all its owners were
    ["unknown"]. *)
Definition registry_stays (w w' : World) : Prop :=
  all_unknown (registry w) -> registry w' = registry w.

(** A [Set] of plugin names: strings only, none of them twice. *)
Fixpoint set_of_names (s : JsSet) : bool :=
  match s with
  | [] => true
  | JStr n :: rest => negb (set_has (JStr n) rest) && set_of_names rest
  | _ :: _ => false
  end.

(** The file of the EnabledSet holds what the manager has in memory. *)
Definition saved (w : World) : Prop :=
  nodes (fs w) !! enabledFile w = Some (File (enabled_json_of w)).

(** Every loaded plugin has its [metadata]. *)
Definition all_described (w : World) : Prop :=
  Forall (fun p => metadata p <> None) (map_values (plugins w)).

(** Only the console differs. *)
Definition same_but_console (w w' : World) : Prop :=
  pluginRoot w' = pluginRoot w /\ plugins w' = plugins w /\ registry w' = registry w /\
  enabledPlugins w' = enabledPlugins w /\ pluginContexts w' = pluginContexts w /\
  fs w' = fs w /\ loadPlugin_calls w' = loadPlugin_calls w.

(** A result that reports a failure: no [plugin], and an [error]. *)
Definition reports_failure (r : PluginInstallResult) : Prop :=
  success r = false /\ plugin r = None /\ error r <> None.

(** A name that [path.join] leaves as it is: one path segment that is
    neither empty nor [.] nor [..]. For such a name
    [path.join(dir, name)] is the entry [name] of the directory [dir]. *)
Definition plain_name (name : string) : bool :=
  negb (String.eqb name "") && negb (String.eqb name ".")
  && negb (String.eqb name "..") && negb (has_separator name).

(** A computation whose result, when it returns one, has the property
    [P]. *)
Definition yields (P : PluginInstallResult -> Prop) (c : M PluginInstallResult) : Prop :=
  forall w, match fst (c w) with
            | Ok r => P r
            | Throw _ => True
            end.

(** The result carries the error of [installFromSource] for a source of
    no known kind. *)
Definition invalid_source_error (r : PluginInstallResult) : bool :=
  match error r with
  | Some msg => String.prefix "Invalid source: " msg
  | None => false
  end.

Definition other_result (r : PluginInstallResult) : Prop :=
  invalid_source_error r = false.

(** The capabilities of one kind that the ownership map [l] gives to
    [owner], looked up in the map [m] of that kind, in the order of
    [l]. *)
Definition owned_capabilities {V : Type} (kind owner : string) (l : JsMap string)
    (m : JsMap V) : list V :=
  omap (fun e =>
          if String.eqb (snd e) owner then
            match strip_prefix (kind +:+ ":") (fst e) with
            | Some name => map_get name m
            | None => None
            end
          else None) l.

(** ** Revocation, as it should come out *)

Fixpoint colon_free (s : string) : bool :=
  match s with
  | EmptyString => true
  | String c rest => negb (Ascii.eqb c ":") && colon_free rest
  end.

Definition kinds : list string := ["command"; "tool"; "theme"; "extension"].

(** The ownership keys are [kind:name] with a name that has no colon. *)
Definition well_keyed (l : JsMap string) : Prop :=
  Forall (fun e => exists kind name,
            fst e = kind +:+ ":" +:+ name /\ In kind kinds /\ colon_free name = true) l.

Definition owned_by (owner : string) (l : JsMap string) (kind name : string) : bool :=
  match map_get (kind +:+ ":" +:+ name) l with
  | Some o => String.eqb o owner
  | None => false
  end.

Definition drop_owned {V : Type} (owner : string) (l : JsMap string) (kind : string)
    (m : JsMap V) : JsMap V :=
  List.filter (fun kv => negb (owned_by owner l kind (fst kv))) m.

(** What revoking [owner] is to leave, in the words of the specification:
    the capabilities and the ownership entries whose current owner is
    [owner] are removed, every other entry stays where it is. *)
Definition revoked (owner : string) (r : PluginRegistry) : PluginRegistry :=
  let l := pluginOwnership r in
  {| commands := drop_owned owner l "command" (commands r);
     tools := drop_owned owner l "tool" (tools r);
     themes := drop_owned owner l "theme" (themes r);
     extensions := drop_owned owner l "extension" (extensions r);
     pluginOwnership := List.filter (fun kv => negb (String.eqb (snd kv) owner)) l |}.

(** One pass of the loop, seen from the map of one kind. *)
Definition keyed_delete {V : Type} (kind owner : string) (e : string * string)
    (m : JsMap V) : JsMap V :=
  if String.eqb (snd e) owner then
    match nth_error (split ":" (fst e)) 0 with
    | Some t =>
        if String.eqb t kind then map_delete_opt (nth_error (split ":" (fst e)) 1) m
        else m
    | None => m
    end
  else m.

Definition hits (kind owner : string) (e : string * string) (k : string) : bool :=
  String.eqb (snd e) owner &&
  match nth_error (split ":" (fst e)) 0, nth_error (split ":" (fst e)) 1 with
  | Some t, Some n => String.eqb t kind && String.eqb n k
  | _, _ => false
  end.

Definition disown (owner : string) (m : JsMap string) (e : string * string) : JsMap string :=
  if String.eqb (snd e) owner then map_delete (fst e) m else m.

(** ** A plugin directory tree to run the manager on *)

Module Demo.

Definition root : string := "/w/.gemini/plugins".

Definition package_json (name : string) : json :=
  JObj [("name", JStr name); ("version", JStr "1.0.0"); ("description", JStr "d");
        ("author", JStr "a"); ("type", JStr "tool"); ("entryPoint", JStr "index.js");
        ("compatibility", JObj [("gemini-cli", JStr ">=0.1.0")])].

Definition plugin_metadata (name : string) : PluginMetadata :=
  {| md_name := name; md_version := "1.0.0"; md_description := "d"; md_author := "a";
     md_type := "tool"; md_entryPoint := "index.js" |}.

Definition command (name : string) : PluginCommand :=
  {| cmd_name := name; cmd_description := "d"; cmd_usage := None; cmd_examples := None |}.

Definition tool (name : string) : PluginTool :=
  {| tool_name := name; tool_displayName := name; tool_description := "d";
     tool_parameters := None |}.

(** A plugin whose [registerCommands] adds the command ["x-cmd"]. *)
Definition x : GeminiPlugin :=
  {| metadata := Some (plugin_metadata "x");
     onInstall := None; onUninstall := None; onEnable := None; onDisable := None;
     registerCommands := Some {| hook_calls := [Register (command "x-cmd")];
                                 hook_throws := None |};
     registerTools := None; registerThemes := None; registerExtensions := None |}.

(** As [x], with an [onUninstall] that throws. *)
Definition fragile : GeminiPlugin :=
  {| metadata := Some (plugin_metadata "fragile");
     onInstall := None; onUninstall := Some (Throws "cleanup failed");
     onEnable := Some Returns; onDisable := Some Returns;
     registerCommands := Some {| hook_calls := [Register (command "fragile-cmd")];
                                 hook_throws := None |};
     registerTools := None; registerThemes := None; registerExtensions := None |}.

(** A plugin whose [onDisable] throws. *)
Definition stubborn : GeminiPlugin :=
  {| metadata := Some (plugin_metadata "stubborn");
     onInstall := None; onUninstall := None;
     onEnable := Some Returns; onDisable := Some (Throws "still busy");
     registerCommands := None; registerTools := None;
     registerThemes := None; registerExtensions := None |}.

(** A plugin whose [registerCommands] adds a command and whose
    [registerTools] adds a tool and then throws. *)
Definition half : GeminiPlugin :=
  {| metadata := Some (plugin_metadata "half");
     onInstall := None; onUninstall := None; onEnable := None; onDisable := None;
     registerCommands := Some {| hook_calls := [Register (command "half-cmd")];
                                 hook_throws := None |};
     registerTools := Some {| hook_calls := [Register (tool "half-tool")];
                              hook_throws := Some "tools failed" |};
     registerThemes := None; registerExtensions := None |}.

Definition index_js (p : GeminiPlugin) : FileObs :=
  {| as_json := Throw "Unexpected token 'e'";
     as_module := Ok [("default", fun _ => Ok p)] |}.

Definition plugin_dir (name : string) (p : GeminiPlugin) : list (string * Node) :=
  let dir := path_join root name in
  [(dir, Dir);
   (path_join dir "package.json", File (json_file (package_json name)));
   (path_join dir "index.js", File (index_js p))].

Definition disk : FS :=
  {| nodes := list_to_map ((root, Dir) :: plugin_dir "x" x ++ plugin_dir "fragile" fragile
                           ++ plugin_dir "half" half ++ plugin_dir "stubborn" stubborn);
     read_only := false |}.

Definition lock (d : FS) : FS := {| nodes := nodes d; read_only := true |}.

(** A manager over that disk, before anything is loaded. *)
Definition start : World := new_manager root disk.

(** After [loadPlugin "x"]. *)
Definition x_loaded : World := snd (loadPlugin "x" start).

(** After [loadPlugin "fragile"] and [enablePlugin "fragile"]. *)
Definition fragile_enabled : World :=
  snd (enablePlugin "fragile" (snd (loadPlugin "fragile" start))).

(** After [loadPlugin "stubborn"] and [enablePlugin "stubborn"]. *)
Definition stubborn_enabled : World :=
  snd (enablePlugin "stubborn" (snd (loadPlugin "stubborn" start))).

(** A manager over an empty plugin directory. *)
Definition fresh : World :=
  new_manager root {| nodes := {[ root := Dir ]}; read_only := false |}.

(** [x] loaded and enabled, on a disk that has since become read-only. *)
Definition x_locked : World := set_fs lock (snd (enablePlugin "x" x_loaded)).

Definition half_context : PluginContext :=
  {| workspaceRoot := "/w/.gemini"; ctx_pluginRoot := "/w/.gemini/plugins/half";
     config := JObj [] |}.

(** A registry in which one command was registered, under a name with a
    colon in it. *)
Definition scoped_registry : PluginRegistry :=
  registerCommand getCommandRegistry (command "git:status") empty_registry.

End Demo.

(** * Properties *)

(** ** Sets and maps *)

Lemma set_has_delete (x : json) (s : JsSet) : set_has x (set_delete x s) = false.
Proof.
  unfold set_has, set_delete.
  induction s as [|y s IH]; simpl; [reflexivity|].
  destruct (same_value_zero x y) eqn:E; simpl; [exact IH|].
  rewrite E. exact IH.
Qed.

Lemma set_has_add (n : string) (s : JsSet) : set_has (JStr n) (set_add (JStr n) s) = true.
Proof.
  unfold set_add.
  destruct (set_has (JStr n) s) eqn:E; [exact E|].
  unfold set_has. rewrite existsb_app. simpl.
  rewrite String.eqb_refl. rewrite orb_true_r. reflexivity.
Qed.

Lemma map_get_set_eq {V : Type} (k : string) (v : V) (m : JsMap V) :
  map_get k (map_set k v m) = Some v.
Proof.
  unfold map_get. induction m as [|[k' v'] m IH]; simpl.
  - rewrite String.eqb_refl. reflexivity.
  - destruct (String.eqb k' k) eqn:E; simpl.
    + rewrite String.eqb_refl. reflexivity.
    + rewrite E. exact IH.
Qed.

(** The two updates of a [Map] keep its keys unique. *)
Lemma map_keys_set {V : Type} (k : string) (v : V) (m : JsMap V) :
  map_keys (map_set k v m)
  = if map_has k m then map_keys m else map_keys m ++ [k].
Proof.
  unfold map_has, map_get, map_keys.
  induction m as [|[k' v'] m IH]; simpl; [reflexivity|].
  destruct (String.eqb k' k) eqn:E; simpl.
  - apply String.eqb_eq in E. subst. reflexivity.
  - rewrite IH. destruct (assoc_get k m); reflexivity.
Qed.

Lemma map_has_false {V : Type} (k : string) (m : JsMap V) :
  map_has k m = false -> k ∉ map_keys m.
Proof.
  unfold map_has, map_get, map_keys.
  induction m as [|[k' v'] m IH]; simpl; intros H Hin.
  - inversion Hin.
  - destruct (String.eqb k' k) eqn:E; [discriminate|].
    apply String.eqb_neq in E.
    apply elem_of_cons in Hin. destruct Hin as [->|Hin]; [congruence|].
    exact (IH H Hin).
Qed.

Lemma map_set_NoDup {V : Type} (k : string) (v : V) (m : JsMap V) :
  NoDup (map_keys m) -> NoDup (map_keys (map_set k v m)).
Proof.
  intros H. rewrite map_keys_set. destruct (map_has k m) eqn:E; [exact H|].
  apply NoDup_app. split; [exact H|]. split.
  - intros x Hx Hk. apply list_elem_of_singleton in Hk. subst.
    exact (map_has_false _ _ E Hx).
  - apply NoDup_singleton.
Qed.

Lemma map_delete_NoDup {V : Type} (k : string) (m : JsMap V) :
  NoDup (map_keys m) -> NoDup (map_keys (map_delete k m)).
Proof.
  unfold map_keys, map_delete.
  induction m as [|[k' v'] m IH]; simpl; intros H; [exact H|].
  apply NoDup_cons in H. destruct H as [Hn H].
  destruct (negb (String.eqb k' k)); simpl; [|exact (IH H)].
  apply NoDup_cons. split; [|exact (IH H)].
  intros Hin. apply Hn.
  apply list_elem_of_In in Hin. apply in_map_iff in Hin.
  destruct Hin as ([k2 v2] & E & Hin). simpl in E. subst k2.
  apply filter_In in Hin. destruct Hin as [Hin _].
  apply list_elem_of_In. apply in_map_iff. exists (k', v2). split; [reflexivity|exact Hin].
Qed.

(** ** The disk *)

Lemma rmSync_not_exists (p : string) (d d' : FS) :
  rmSync p d = Ok d' -> existsSync p d' = false.
Proof.
  unfold rmSync. destruct (existsSync p d) eqn:E.
  - destruct (read_only d); [discriminate|]. intros H. inversion H; subst; clear H.
    unfold existsSync, set_nodes. simpl.
    destruct (filter _ (nodes d) !! p) as [n|] eqn:L; [|reflexivity].
    apply map_lookup_filter_Some in L. destruct L as [_ L]. simpl in L.
    unfold below in L. rewrite String.eqb_refl in L. simpl in L. destruct L.
  - intros H. inversion H; subst. exact E.
Qed.

Lemma writeFileSync_ok (p : string) (f : FileObs) (d : FS) :
  read_only d = false -> nodes d !! p <> Some Dir ->
  writeFileSync p f d = Ok (set_nodes (insert p (File f)) d).
Proof.
  intros Hr Hn. unfold writeFileSync. rewrite Hr.
  destruct (nodes d !! p) as [[|g]|]; try reflexivity. contradiction.
Qed.

Lemma saveEnabledPlugins_eq (w : World) :
  saveEnabledPlugins w =
  match writeFileSync (enabledFile w) (enabled_json_of w) (fs w) with
  | Ok d => (Ok tt, set_fs (fun _ => d) w)
  | Throw e => (Throw e, w)
  end.
Proof. reflexivity. Qed.

(** ** Frames *)

Section Frame.

Variable R : World -> World -> Prop.
Hypothesis R_refl : forall w, R w w.
Hypothesis R_trans : forall a b c, R a b -> R b c -> R a c.

Lemma keeps_ret {A : Type} (a : A) : keeps R (ret a).
Proof. intros w. apply R_refl. Qed.

Lemma keeps_throw {A : Type} (e : string) : keeps R (@throw A e).
Proof. intros w. apply R_refl. Qed.

Lemma keeps_lift {A : Type} (x : Exc A) : keeps R (lift x).
Proof. intros w. apply R_refl. Qed.

Lemma keeps_get : keeps R get.
Proof. intros w. apply R_refl. Qed.

Lemma keeps_bind {A B : Type} (c : M A) (k : A -> M B) :
  keeps R c -> (forall a, keeps R (k a)) -> keeps R (bind c k).
Proof.
  intros Hc Hk w. unfold bind. specialize (Hc w).
  destruct (c w) as [[a|e] w1]; simpl in *.
  - eapply R_trans; [exact Hc|]. apply Hk.
  - exact Hc.
Qed.

Lemma keeps_try_catch {A : Type} (c : M A) (h : string -> M A) :
  keeps R c -> (forall e, keeps R (h e)) -> keeps R (try_catch c h).
Proof.
  intros Hc Hh w. unfold try_catch. specialize (Hc w).
  destruct (c w) as [[a|e] w1]; simpl in *.
  - exact Hc.
  - eapply R_trans; [exact Hc|]. apply Hh.
Qed.

Lemma keeps_modify (f : World -> World) :
  (forall w, R w (f w)) -> keeps R (modify f).
Proof. intros Hf w. apply Hf. Qed.

Lemma keeps_if {A : Type} (b : bool) (c d : M A) :
  keeps R c -> keeps R d -> keeps R (if b then c else d).
Proof. destruct b; auto. Qed.

Lemma keeps_fs_do (op : FS -> Exc FS) :
  (forall w d, R w (set_fs (fun _ => d) w)) -> keeps R (fs_do op).
Proof.
  intros Hf w. unfold fs_do. destruct (op (fs w)); simpl; [apply Hf|apply R_refl].
Qed.

End Frame.

Lemma same_but_registry_refl (w : World) : same_but_registry w w.
Proof. repeat split. Qed.

Lemma same_but_registry_trans (a b c : World) :
  same_but_registry a b -> same_but_registry b c -> same_but_registry a c.
Proof.
  unfold same_but_registry. intros (A1 & A2 & A3 & A4 & A5 & A6 & A7)
    (B1 & B2 & B3 & B4 & B5 & B6 & B7).
  repeat split; congruence.
Qed.

Lemma call_registration_hook_keeps {C : Type}
    (register : C -> PluginRegistry -> PluginRegistry)
    (unregister : string -> PluginRegistry -> PluginRegistry)
    (hook : option (RegistrationHook C)) :
  keeps same_but_registry (call_registration_hook register unregister hook).
Proof.
  unfold call_registration_hook. destruct hook as [h|].
  - apply keeps_bind.
    + apply same_but_registry_trans.
    + apply keeps_modify. intros w. repeat split.
    + intros _. destruct (hook_throws h).
      * apply keeps_throw, same_but_registry_refl.
      * apply keeps_ret, same_but_registry_refl.
  - apply keeps_ret, same_but_registry_refl.
Qed.

Lemma registerPluginCapabilities_keeps (p : GeminiPlugin) :
  keeps same_but_registry (registerPluginCapabilities p).
Proof.
  unfold registerPluginCapabilities.
  repeat (apply keeps_bind; [apply same_but_registry_trans
                            | apply call_registration_hook_keeps | intros _]).
  apply call_registration_hook_keeps.
Qed.

(** A registration hook that throws has made its calls by then. *)
Lemma call_registration_hook_throws {C : Type}
    (register : C -> PluginRegistry -> PluginRegistry)
    (unregister : string -> PluginRegistry -> PluginRegistry)
    (h : RegistrationHook C) (e : string) (w : World) :
  hook_throws h = Some e ->
  call_registration_hook register unregister (Some h) w =
  (Throw e, set_registry (run_handle_calls register unregister (hook_calls h)) w).
Proof. intros H. unfold call_registration_hook, bind, modify. rewrite H. reflexivity. Qed.

(** ** Lifecycle hooks *)

Lemma call_hook_returns (h : option HookOutcome) (w : World) :
  does_not_throw h = true -> call_hook h w = (Ok tt, w).
Proof. destruct h as [[|e]|]; simpl; intros H; try reflexivity; discriminate. Qed.

Lemma enablePlugin_loaded (w : World) (pluginName : string) (p : GeminiPlugin) :
  map_get pluginName (plugins w) = Some p ->
  does_not_throw (onEnable p) = true ->
  let w1 := set_enabledPlugins (set_add (JStr pluginName)) w in
  enablePlugin pluginName w =
  match writeFileSync (enabledFile w) (enabled_json_of w1) (fs w) with
  | Ok d => (Ok true, set_fs (fun _ => d) w1)
  | Throw e => (Throw e, w1)
  end.
Proof.
  intros Hp Hh w1. unfold enablePlugin.
  unfold bind at 1. unfold get. rewrite Hp.
  unfold bind at 1. rewrite (call_hook_returns _ _ Hh).
  unfold bind at 1. unfold modify at 1. fold w1.
  unfold bind at 1. rewrite saveEnabledPlugins_eq.
  change (enabledFile w1) with (enabledFile w). change (fs w1) with (fs w).
  destruct (writeFileSync _ _ _); reflexivity.
Qed.

Lemma disablePlugin_loaded (w : World) (pluginName : string) (p : GeminiPlugin) :
  map_get pluginName (plugins w) = Some p ->
  does_not_throw (onDisable p) = true ->
  let w1 := set_enabledPlugins (set_delete (JStr pluginName)) w in
  disablePlugin pluginName w =
  match writeFileSync (enabledFile w) (enabled_json_of w1) (fs w) with
  | Ok d => (Ok true, set_fs (fun _ => d) w1)
  | Throw e => (Throw e, w1)
  end.
Proof.
  intros Hp Hh w1. unfold disablePlugin.
  unfold bind at 1. unfold get. rewrite Hp.
  unfold bind at 1. rewrite (call_hook_returns _ _ Hh).
  unfold bind at 1. unfold modify at 1. fold w1.
  unfold bind at 1. rewrite saveEnabledPlugins_eq.
  change (enabledFile w1) with (enabledFile w). change (fs w1) with (fs w).
  destruct (writeFileSync _ _ _); reflexivity.
Qed.

(** A hook that throws stops [enablePlugin] and [disablePlugin] before
    they touch the set: the exception reaches the caller. *)
Lemma disablePlugin_hook_throws (w : World) (pluginName e : string) (p : GeminiPlugin) :
  map_get pluginName (plugins w) = Some p ->
  onDisable p = Some (Throws e) ->
  disablePlugin pluginName w = (Throw e, w).
Proof.
  intros Hp Hh. unfold disablePlugin. unfold bind at 1. unfold get. rewrite Hp.
  unfold bind at 1. rewrite Hh. reflexivity.
Qed.

Lemma uninstallPlugin_hook_returns (w : World) (pluginName : string) :
  does_not_throw (uninstall_hook pluginName w) = true ->
  uninstallPlugin pluginName w =
  let wm := forget pluginName w in
  match writeFileSync (enabledFile w) (enabled_json_of wm) (fs w) with
  | Throw e => (Ok false, log_uninstall_failure pluginName e wm)
  | Ok d =>
      match PluginInstaller.uninstall pluginName (set_fs (fun _ => d) wm) with
      | (Ok _, w') => (Ok true, w')
      | (Throw e, w') => (Ok false, log_uninstall_failure pluginName e w')
      end
  end.
Proof.
  intros Hh. unfold uninstallPlugin, try_catch.
  unfold bind at 1. unfold get.
  unfold bind at 1.
  assert (Hc : (match map_get pluginName (plugins w) with
                | Some p => call_hook (onUninstall p)
                | None => ret tt
                end) w = (Ok tt, w)).
  { unfold uninstall_hook in Hh. destruct (map_get pluginName (plugins w)).
    - apply call_hook_returns. exact Hh.
    - reflexivity. }
  rewrite Hc.
  unfold bind at 1. unfold modify at 1.
  unfold bind at 1. unfold modify at 1.
  unfold bind at 1. unfold modify at 1.
  unfold bind at 1. unfold modify at 1.
  fold (forget pluginName w).
  unfold bind at 1. rewrite saveEnabledPlugins_eq.
  change (enabledFile (forget pluginName w)) with (enabledFile w).
  change (fs (forget pluginName w)) with (fs w).
  cbv zeta.
  destruct (writeFileSync _ _ _) as [d|e]; [|reflexivity].
  unfold bind at 1.
  destruct (PluginInstaller.uninstall pluginName _) as [[u|e] w']; reflexivity.
Qed.

(** ** Ownership as the handles record it *)

Lemma Forall_map_set {V : Type} (P : string * V -> Prop) (k : string) (v : V) (m : JsMap V) :
  Forall P m -> P (k, v) -> Forall P (map_set k v m).
Proof.
  intros Hm Hkv. induction Hm as [|[k' v'] m Hx Hm IH]; simpl.
  - constructor; [exact Hkv|constructor].
  - destruct (String.eqb k' k); constructor; assumption.
Qed.

Lemma Forall_map_delete {V : Type} (P : string * V -> Prop) (k : string) (m : JsMap V) :
  Forall P m -> Forall P (map_delete k m).
Proof.
  intros Hm. unfold map_delete. induction Hm as [|x m Hx Hm IH]; simpl.
  - constructor.
  - destruct (negb _); [constructor|]; assumption.
Qed.

Lemma registerCommand_unknown (c : PluginCommand) :
  keeps_unknown (registerCommand getCommandRegistry c).
Proof. intros r H. apply Forall_map_set; [exact H|reflexivity]. Qed.

Lemma unregisterCommand_unknown (n : string) :
  keeps_unknown (unregisterCommand getCommandRegistry n).
Proof. intros r H. apply Forall_map_delete. exact H. Qed.

Lemma registerTool_unknown (c : PluginTool) :
  keeps_unknown (registerTool getToolRegistry c).
Proof. intros r H. apply Forall_map_set; [exact H|reflexivity]. Qed.

Lemma unregisterTool_unknown (n : string) :
  keeps_unknown (unregisterTool getToolRegistry n).
Proof. intros r H. apply Forall_map_delete. exact H. Qed.

Lemma registerTheme_unknown (c : PluginTheme) :
  keeps_unknown (registerTheme getThemeRegistry c).
Proof. intros r H. apply Forall_map_set; [exact H|reflexivity]. Qed.

Lemma unregisterTheme_unknown (n : string) :
  keeps_unknown (unregisterTheme getThemeRegistry n).
Proof. intros r H. apply Forall_map_delete. exact H. Qed.

Lemma registerExtension_unknown (c : PluginExtension) :
  keeps_unknown (registerExtension getExtensionRegistry c).
Proof. intros r H. apply Forall_map_set; [exact H|reflexivity]. Qed.

Lemma unregisterExtension_unknown (n : string) :
  keeps_unknown (unregisterExtension getExtensionRegistry n).
Proof. intros r H. apply Forall_map_delete. exact H. Qed.

Lemma run_handle_calls_unknown {C : Type}
    (register : C -> PluginRegistry -> PluginRegistry)
    (unregister : string -> PluginRegistry -> PluginRegistry)
    (calls : list (HandleCall C)) :
  (forall c, keeps_unknown (register c)) ->
  (forall n, keeps_unknown (unregister n)) ->
  keeps_unknown (run_handle_calls register unregister calls).
Proof.
  intros Hr Hu. unfold run_handle_calls.
  induction calls as [|[c|n] calls IH]; intros r H; simpl.
  - exact H.
  - apply IH. apply Hr. exact H.
  - apply IH. apply Hu. exact H.
Qed.

(** Nothing is owned by a name other than ["unknown"]. *)
Lemma getPluginCapabilities_unknown (pluginName : string) (r : PluginRegistry) :
  all_unknown r -> pluginName <> "unknown" ->
  getPluginCapabilities pluginName r = no_capabilities.
Proof.
  intros H Hn. unfold getPluginCapabilities, all_unknown in *.
  generalize no_capabilities as acc.
  induction H as [|[capability owner] l Hx Hl IH]; intros acc; simpl.
  - reflexivity.
  - simpl in Hx. subst owner.
    destruct (String.eqb "unknown" pluginName) eqn:E.
    + apply String.eqb_eq in E. congruence.
    + apply IH.
Qed.

Lemma unknown_stays_refl (w : World) : unknown_stays w w.
Proof. intros H. exact H. Qed.

Lemma unknown_stays_trans (a b c : World) :
  unknown_stays a b -> unknown_stays b c -> unknown_stays a c.
Proof. unfold unknown_stays. auto. Qed.

Ltac keeps_steps refl trans :=
  repeat lazymatch goal with
         | |- keeps _ (bind _ _) => apply keeps_bind; [exact trans| |intros ?]
         | |- keeps _ (try_catch _ _) => apply keeps_try_catch; [exact trans| |intros ?]
         | |- keeps _ (ret _) => apply keeps_ret; exact refl
         | |- keeps _ (throw _) => apply keeps_throw; exact refl
         | |- keeps _ (lift _) => apply keeps_lift; exact refl
         | |- keeps _ get => apply keeps_get; exact refl
         | |- keeps _ (match ?x with _ => _ end) => destruct x
         end.

Lemma call_registration_hook_unknown {C : Type}
    (register : C -> PluginRegistry -> PluginRegistry)
    (unregister : string -> PluginRegistry -> PluginRegistry)
    (hook : option (RegistrationHook C)) :
  (forall c, keeps_unknown (register c)) ->
  (forall n, keeps_unknown (unregister n)) ->
  keeps unknown_stays (call_registration_hook register unregister hook).
Proof.
  intros Hr Hu. unfold call_registration_hook.
  keeps_steps unknown_stays_refl unknown_stays_trans.
  apply keeps_modify. intros w H. simpl. apply run_handle_calls_unknown; assumption.
Qed.

Lemma registerPluginCapabilities_unknown (p : GeminiPlugin) :
  keeps unknown_stays (registerPluginCapabilities p).
Proof.
  unfold registerPluginCapabilities.
  keeps_steps unknown_stays_refl unknown_stays_trans;
    apply call_registration_hook_unknown;
    auto using registerCommand_unknown, unregisterCommand_unknown, registerTool_unknown,
      unregisterTool_unknown, registerTheme_unknown, unregisterTheme_unknown,
      registerExtension_unknown, unregisterExtension_unknown.
Qed.

Lemma loadPluginConfig_unknown (pluginName : string) :
  keeps unknown_stays (loadPluginConfig pluginName).
Proof.
  unfold loadPluginConfig, console_warn.
  keeps_steps unknown_stays_refl unknown_stays_trans.
  apply keeps_modify. intros w H. exact H.
Qed.

Lemma instantiate_unknown (pluginName : string) :
  keeps unknown_stays (instantiate pluginName).
Proof.
  unfold instantiate.
  keeps_steps unknown_stays_refl unknown_stays_trans.
  apply loadPluginConfig_unknown.
Qed.

(** [loadPlugin] is its two parts, one after the other, inside the
    [try]. *)
Lemma loadPlugin_eq (pluginName : string) (w : World) :
  loadPlugin pluginName w =
  (modify (set_loadPlugin_calls (fun l => l ++ [pluginName])) ;;
   try_catch
     (r <- instantiate pluginName ;;
      match r with
      | inl failure => ret failure
      | inr (p, context) => activate pluginName p context
      end)
     (fun error =>
        ret (failed ("Failed to load plugin " +:+ pluginName +:+ ": " +:+ error)))) w.
Proof.
  unfold loadPlugin, instantiate, activate, try_catch, bind, modify, get, lift, ret.
  cbv beta iota.
  repeat match goal with
         | |- context [match ?x with _ => _ end] =>
             lazymatch x with
             | context [match _ with _ => _ end] => fail
             | _ => destruct x; cbv beta iota
             end
         end.
  all: reflexivity.
Qed.

Lemma loadPlugin_unknown (pluginName : string) :
  keeps unknown_stays (loadPlugin pluginName).
Proof.
  intros w0. rewrite loadPlugin_eq. revert w0.
  change (keeps unknown_stays
            (modify (set_loadPlugin_calls (fun l => l ++ [pluginName])) ;;
             try_catch
               (r <- instantiate pluginName ;;
                match r with
                | inl failure => ret failure
                | inr (p, context) => activate pluginName p context
                end)
               (fun error =>
                  ret (failed ("Failed to load plugin " +:+ pluginName +:+ ": "
                               +:+ error))))).
  unfold activate, call_hook.
  keeps_steps unknown_stays_refl unknown_stays_trans;
    try (apply keeps_modify; intros w H; exact H).
  - apply instantiate_unknown.
  - apply registerPluginCapabilities_unknown.
Qed.

(** X3. Whatever a plugin's hooks register, [getPluginCapabilities] of
    its name finds none of it after the load: the handles record the
    owner ["unknown"], never the plugin. *)
Lemma capabilities_of_loaded_plugin_empty (w : World) (pluginName : string) :
  all_unknown (registry w) -> pluginName <> "unknown" ->
  getPluginCapabilities pluginName (registry (snd (loadPlugin pluginName w)))
  = no_capabilities.
Proof.
  intros H Hn. apply getPluginCapabilities_unknown; [|exact Hn].
  apply (loadPlugin_unknown pluginName w). exact H.
Qed.

(** C1, at the plugin ["x"] whose [registerCommands] adds ["x-cmd"]:
    [loadPlugin "x"] succeeds and the command is registered, but its owner
    is recorded as ["unknown"], so [getPluginCapabilities "x"] returns no
    command at all where the claim expects ["x-cmd"] owned by ["x"]. *)
Theorem load_then_capabilities_of_x :
  succeeded (fst (loadPlugin "x" Demo.start)) = true /\
  getCommand "x-cmd" (registry Demo.x_loaded) = Some (Demo.command "x-cmd") /\
  map_get "command:x-cmd" (pluginOwnership (registry Demo.x_loaded)) = Some "unknown" /\
  getPluginCapabilities "x" (registry Demo.x_loaded) = no_capabilities.
Proof. vm_compute. repeat split; reflexivity. Qed.

(** ** The installer's results *)

Lemma settled_plain (c : M PluginInstallResult) : settled c -> plain c.
Proof. intros H w. destruct (H w) as (r & E & P). rewrite E. exact P. Qed.

Lemma settled_ret (r : PluginInstallResult) : plugin r = None -> settled (ret r).
Proof. intros H w. exists r. split; [reflexivity|exact H]. Qed.

Lemma plain_bind {A : Type} (c : M A) (k : A -> M PluginInstallResult) :
  (forall a, plain (k a)) -> plain (bind c k).
Proof.
  intros Hk w. unfold bind. destruct (c w) as [[a|e] w1]; simpl; [apply Hk|exact I].
Qed.

Lemma settled_get (k : World -> M PluginInstallResult) :
  (forall w, settled (k w)) -> settled (bind get k).
Proof. intros Hk w. unfold bind, get. apply Hk. Qed.

Lemma settled_try_catch (c : M PluginInstallResult) (h : string -> M PluginInstallResult) :
  plain c -> (forall e, settled (h e)) -> settled (try_catch c h).
Proof.
  intros Hc Hh w. unfold try_catch. specialize (Hc w).
  destruct (c w) as [[r|e] w1]; simpl in *.
  - exists r. split; [reflexivity|exact Hc].
  - apply Hh.
Qed.

Lemma plain_if (b : bool) (c d : M PluginInstallResult) :
  plain c -> plain d -> plain (if b then c else d).
Proof. destruct b; auto. Qed.

Create HintDb installer.
#[local] Hint Resolve settled_plain settled_ret plain_bind settled_get plain_if : installer.
#[local] Hint Extern 1 (plugin _ = None) => reflexivity : installer.

Ltac plain_binds :=
  repeat lazymatch goal with
         | |- plain (bind _ _) => apply plain_bind; intros ?
         end.

Lemma validateInstallation_settled (pluginName : string) :
  settled (PluginInstaller.validateInstallation pluginName).
Proof.
  unfold PluginInstaller.validateInstallation.
  apply settled_get. intros w.
  destruct (negb (existsSync _ _)); [auto with installer|].
  apply settled_try_catch; [|auto with installer].
  apply plain_bind. intros metadata. apply plain_bind. intros [field|]; [auto with installer|].
  apply plain_bind. intros ep. apply plain_bind. intros entryPoint.
  destruct (negb (existsSync _ _)); auto with installer.
Qed.

Lemma createMockPlugin_settled (pluginName pluginDir : string) :
  settled (PluginInstaller.createMockPlugin pluginName pluginDir).
Proof.
  unfold PluginInstaller.createMockPlugin.
  apply settled_try_catch; [|auto with installer].
  plain_binds. auto with installer.
Qed.

#[local] Hint Resolve validateInstallation_settled createMockPlugin_settled : installer.

Lemma same_but_disk_refl (w : World) : same_but_disk w w.
Proof. repeat split. Qed.

Lemma same_but_disk_trans (a b c : World) :
  same_but_disk a b -> same_but_disk b c -> same_but_disk a c.
Proof.
  unfold same_but_disk. intros (A1 & A2 & A3 & A4 & A5 & A6 & A7)
    (B1 & B2 & B3 & B4 & B5 & B6 & B7).
  repeat split; congruence.
Qed.

Ltac disk_steps :=
  repeat lazymatch goal with
         | |- keeps _ (bind _ _) => apply keeps_bind; [exact same_but_disk_trans| |intros ?]
         | |- keeps _ (try_catch _ _) =>
             apply keeps_try_catch; [exact same_but_disk_trans| |intros ?]
         | |- keeps _ (ret _) => apply keeps_ret; exact same_but_disk_refl
         | |- keeps _ (throw _) => apply keeps_throw; exact same_but_disk_refl
         | |- keeps _ (lift _) => apply keeps_lift; exact same_but_disk_refl
         | |- keeps _ get => apply keeps_get; exact same_but_disk_refl
         | |- keeps _ (fs_do _) =>
             apply keeps_fs_do; [exact same_but_disk_refl|intros ? ?; repeat split]
         | |- keeps _ (modify (set_fs _)) => apply keeps_modify; intros ?; repeat split
         | |- keeps _ (match ?x with _ => _ end) => destruct x
         end.

Lemma uninstall_disk (pluginName : string) :
  keeps same_but_disk (PluginInstaller.uninstall pluginName).
Proof. unfold PluginInstaller.uninstall. disk_steps. Qed.

Lemma validateInstallation_disk (pluginName : string) :
  keeps same_but_disk (PluginInstaller.validateInstallation pluginName).
Proof. unfold PluginInstaller.validateInstallation. disk_steps. Qed.

Lemma createMockPlugin_disk (pluginName pluginDir : string) :
  keeps same_but_disk (PluginInstaller.createMockPlugin pluginName pluginDir).
Proof. unfold PluginInstaller.createMockPlugin. disk_steps. Qed.

Lemma copyDirectory_disk (src dest : string) :
  keeps same_but_disk (PluginInstaller.copyDirectory src dest).
Proof. unfold PluginInstaller.copyDirectory. disk_steps. Qed.

Section InstallerFrame.

Variable execSync : string -> option string -> FS -> Exc FS.

Lemma installFromNpm_disk (pluginName : string) :
  keeps same_but_disk (PluginInstaller.installFromNpm execSync pluginName).
Proof.
  unfold PluginInstaller.installFromNpm. disk_steps.
  - apply createMockPlugin_disk.
  - apply copyDirectory_disk.
  - apply validateInstallation_disk.
Qed.

Lemma installFromUrl_disk (pluginName url : string) :
  keeps same_but_disk (PluginInstaller.installFromUrl execSync pluginName url).
Proof.
  unfold PluginInstaller.installFromUrl. disk_steps.
  apply validateInstallation_disk.
Qed.

Lemma installFromLocalPath_disk (pluginName localPath : string) :
  keeps same_but_disk (PluginInstaller.installFromLocalPath execSync pluginName localPath).
Proof.
  unfold PluginInstaller.installFromLocalPath. disk_steps.
  - apply copyDirectory_disk.
  - apply validateInstallation_disk.
Qed.

Lemma installFromSource_disk (pluginName source : string) :
  keeps same_but_disk (PluginInstaller.installFromSource execSync pluginName source).
Proof.
  unfold PluginInstaller.installFromSource. disk_steps;
    first [apply installFromNpm_disk | apply installFromUrl_disk
          | apply installFromLocalPath_disk].
Qed.

Lemma install_disk (pluginName : string) (source : option string) :
  keeps same_but_disk (PluginInstaller.install execSync pluginName source).
Proof.
  unfold PluginInstaller.install. disk_steps;
    first [apply uninstall_disk | apply installFromSource_disk | apply installFromNpm_disk].
Qed.

End InstallerFrame.

Section InstallerResults.

Variable execSync : string -> option string -> FS -> Exc FS.

Lemma installFromNpm_settled (pluginName : string) :
  settled (PluginInstaller.installFromNpm execSync pluginName).
Proof.
  unfold PluginInstaller.installFromNpm.
  apply settled_get. intros w.
  apply settled_try_catch; [|auto with installer].
  apply plain_bind. intros _.
  apply plain_if; [auto with installer|].
  apply plain_bind. intros _. apply plain_bind. intros w1.
  apply plain_if; [auto with installer|].
  plain_binds. auto with installer.
Qed.

Lemma installFromUrl_settled (pluginName url : string) :
  settled (PluginInstaller.installFromUrl execSync pluginName url).
Proof.
  unfold PluginInstaller.installFromUrl.
  apply settled_get. intros w.
  apply settled_try_catch; [|auto with installer].
  plain_binds. auto with installer.
Qed.

Lemma installFromLocalPath_settled (pluginName localPath : string) :
  settled (PluginInstaller.installFromLocalPath execSync pluginName localPath).
Proof.
  unfold PluginInstaller.installFromLocalPath.
  apply settled_get. intros w.
  apply settled_try_catch; [|auto with installer].
  plain_binds. auto with installer.
Qed.

Lemma installFromSource_settled (pluginName source : string) :
  settled (PluginInstaller.installFromSource execSync pluginName source).
Proof.
  unfold PluginInstaller.installFromSource.
  apply settled_get. intros w.
  apply settled_try_catch; [|auto with installer].
  apply plain_bind. intros _.
  pose proof (installFromNpm_settled pluginName).
  pose proof (installFromUrl_settled pluginName source).
  pose proof (installFromLocalPath_settled pluginName).
  repeat (apply plain_if; [auto with installer|]).
  apply plain_bind. intros w1. auto with installer.
Qed.

(** The installer always returns a result, never throws, and no result
    of it has the [plugin] field. *)
Lemma install_settled (pluginName : string) (source : option string) :
  settled (PluginInstaller.install execSync pluginName source).
Proof.
  unfold PluginInstaller.install.
  apply settled_try_catch; [|auto with installer].
  apply plain_bind. intros w. apply plain_bind. intros _.
  pose proof (installFromSource_settled pluginName).
  pose proof (installFromNpm_settled pluginName).
  destruct source as [s|]; [apply plain_if|]; auto with installer.
Qed.

(** So [installPlugin] does what the installer does and nothing more:
    the branch that calls [loadPlugin] needs [result.plugin]. *)
Lemma installPlugin_is_install (pluginName : string) (source : option string) (w : World) :
  installPlugin execSync pluginName source w =
  PluginInstaller.install execSync pluginName source w.
Proof.
  unfold installPlugin, try_catch. unfold bind at 1.
  destruct (install_settled pluginName source w) as (r & E & P).
  destruct (PluginInstaller.install execSync pluginName source w) as [x w1].
  simpl in E. subst x. rewrite P.
  destruct (success r); reflexivity.
Qed.

(** For every input the state [installPlugin] leaves differs from the
    one it found on disk only: [loadPlugin] is not entered and no instance
    is stored, whether the installer reported success or failure. *)
Lemma installPlugin_only_installs (pluginName : string) (source : option string)
    (w : World) :
  same_but_disk w (snd (installPlugin execSync pluginName source w)).
Proof.
  rewrite installPlugin_is_install. apply install_disk.
Qed.

(** C2, at [installPlugin "pip-analyzer"] over an empty plugin directory:
    the installer reports success, and the claim expects [loadPlugin] to
    be attempted at once; it is not entered and no instance is stored,
    although loading the installed plugin would succeed. *)
Theorem install_pip_analyzer_does_not_load :
  let after := installPlugin execSync "pip-analyzer" None Demo.fresh in
  succeeded (fst after) = true /\
  loadPlugin_calls (snd after) = [] /\
  plugins (snd after) = [] /\
  succeeded (fst (loadPlugin "pip-analyzer" (snd after))) = true /\
  map_keys (plugins (snd (loadPlugin "pip-analyzer" (snd after)))) = ["pip-analyzer"].
Proof. vm_compute. repeat split; reflexivity. Qed.

End InstallerResults.

(** ** Uninstalling *)

(** C3, as amended: when the [onUninstall] hook of a loaded plugin throws,
    [uninstallPlugin] returns [false]; the exception is logged and nothing
    else changes: the instance, its context, the EnabledSet in memory and
    on disk, the Registry and the plugin's files all stay as they were. *)
Theorem uninstallPlugin_hook_throws (w : World) (pluginName e : string) (p : GeminiPlugin) :
  map_get pluginName (plugins w) = Some p ->
  onUninstall p = Some (Throws e) ->
  uninstallPlugin pluginName w = (Ok false, log_uninstall_failure pluginName e w).
Proof.
  intros Hp Hh. unfold uninstallPlugin, try_catch.
  unfold bind at 1. unfold get. rewrite Hp.
  unfold bind at 1. rewrite Hh. reflexivity.
Qed.

Lemma uninstallPlugin_hook_throws_witness :
  map_get "fragile" (plugins Demo.fragile_enabled) = Some Demo.fragile /\
  onUninstall Demo.fragile = Some (Throws "cleanup failed") /\
  uninstallPlugin "fragile" Demo.fragile_enabled =
  (Ok false, log_uninstall_failure "fragile" "cleanup failed" Demo.fragile_enabled).
Proof.
  assert (H1 : map_get "fragile" (plugins Demo.fragile_enabled) = Some Demo.fragile)
    by (vm_compute; reflexivity).
  assert (H2 : onUninstall Demo.fragile = Some (Throws "cleanup failed"))
    by reflexivity.
  split; [exact H1|]. split; [exact H2|].
  exact (uninstallPlugin_hook_throws Demo.fragile_enabled "fragile" "cleanup failed"
           Demo.fragile H1 H2).
Defined.

(** C3 fails at the loaded and enabled plugin ["fragile"], whose
    [onUninstall] throws: [uninstallPlugin] returns [false], the name is
    still in the EnabledSet, in memory and in enabled.json, its command is
    still registered and its directory is still on disk. *)
Lemma uninstall_fragile_counterexample :
  let w := Demo.fragile_enabled in
  let w' := snd (uninstallPlugin "fragile" w) in
  map_get "fragile" (plugins w) = Some Demo.fragile /\
  onUninstall Demo.fragile = Some (Throws "cleanup failed") /\
  fst (uninstallPlugin "fragile" w) = Ok false /\
  set_has (JStr "fragile") (enabledPlugins w') = true /\
  read_json (enabledFile w') (fs w') = Ok (JObj [("plugins", JArr [JStr "fragile"])]) /\
  getCommand "fragile-cmd" (registry w') = Some (Demo.command "fragile-cmd") /\
  existsSync (path_join Demo.root "fragile") (fs w') = true.
Proof. vm_compute. repeat split; reflexivity. Qed.

(** An uninstall that goes through still leaves the plugin's command in
    the Registry: [unregisterPlugin "x"] finds no entry owned by ["x"]. *)
Lemma uninstall_x_leaves_command :
  let after := uninstallPlugin "x" Demo.x_loaded in
  fst after = Ok true /\
  map_get "x" (plugins (snd after)) = None /\
  getCommand "x-cmd" (registry (snd after)) = Some (Demo.command "x-cmd").
Proof. vm_compute. repeat split; reflexivity. Qed.

(** ** Writing the EnabledSet *)

(** C4, as amended: when the write of enabled.json fails, [enablePlugin]
    of a loaded plugin whose [onEnable], if any, returns, and
    [disablePlugin] of a loaded plugin whose [onDisable], if any,
    returns, end with that error, which reaches the caller, with the
    EnabledSet in memory already changed. [uninstallPlugin] of any name,
    loaded or not, returns [false]; and when its [onUninstall], if
    there is one, returns, it is the error of the write that its [catch]
    has caught and logged, with the memory already changed and the disk
    as it was. *)
Theorem enabled_set_write_failure (w : World) (pluginName e : string) :
  (forall f, writeFileSync (enabledFile w) f (fs w) = Throw e) ->
  (forall p, map_get pluginName (plugins w) = Some p ->
             does_not_throw (onEnable p) = true ->
             enablePlugin pluginName w
             = (Throw e, set_enabledPlugins (set_add (JStr pluginName)) w)) /\
  (forall p, map_get pluginName (plugins w) = Some p ->
             does_not_throw (onDisable p) = true ->
             disablePlugin pluginName w
             = (Throw e, set_enabledPlugins (set_delete (JStr pluginName)) w)) /\
  fst (uninstallPlugin pluginName w) = Ok false /\
  (does_not_throw (uninstall_hook pluginName w) = true ->
   uninstallPlugin pluginName w
   = (Ok false, log_uninstall_failure pluginName e (forget pluginName w)) /\
   console (snd (uninstallPlugin pluginName w))
   = console w ++ [Error ("Failed to uninstall plugin " +:+ pluginName +:+ ":") e] /\
   fs (snd (uninstallPlugin pluginName w)) = fs w).
Proof.
  intros Hw.
  assert (U : does_not_throw (uninstall_hook pluginName w) = true ->
              uninstallPlugin pluginName w
              = (Ok false, log_uninstall_failure pluginName e (forget pluginName w))).
  { intros Hu. rewrite (uninstallPlugin_hook_returns w pluginName Hu).
    cbv zeta. rewrite Hw. reflexivity. }
  split; [|split; [|split]].
  - intros p Hp He. rewrite (enablePlugin_loaded w pluginName p Hp He).
    cbv zeta. rewrite Hw. reflexivity.
  - intros p Hp Hd. rewrite (disablePlugin_loaded w pluginName p Hp Hd).
    cbv zeta. rewrite Hw. reflexivity.
  - destruct (does_not_throw (uninstall_hook pluginName w)) eqn:Hu.
    + rewrite (U eq_refl). reflexivity.
    + unfold uninstall_hook in Hu.
      destruct (map_get pluginName (plugins w)) as [p|] eqn:Hp; [|discriminate].
      destruct (onUninstall p) as [[|e']|] eqn:Ho; try discriminate.
      unfold uninstallPlugin, try_catch, bind, get. rewrite Hp. cbv beta iota.
      rewrite Ho. reflexivity.
  - intros Hu. rewrite (U Hu). repeat split.
Qed.

Lemma enabled_set_write_failure_witness :
  let e := "EROFS: read-only file system, open '/w/.gemini/plugins/enabled.json'" in
  let w := Demo.x_locked in
  (forall f, writeFileSync (enabledFile w) f (fs w) = Throw e) /\
  map_get "x" (plugins w) = Some Demo.x /\
  does_not_throw (onEnable Demo.x) = true /\
  does_not_throw (onDisable Demo.x) = true /\
  does_not_throw (uninstall_hook "x" w) = true /\
  fst (enablePlugin "x" w) = Throw e /\
  fst (disablePlugin "x" w) = Throw e /\
  fst (uninstallPlugin "x" w) = Ok false /\
  console (snd (uninstallPlugin "x" w))
  = console w ++ [Error "Failed to uninstall plugin x:" e] /\
  (forall f, writeFileSync (enabledFile (set_fs Demo.lock Demo.fragile_enabled)) f
               (fs (set_fs Demo.lock Demo.fragile_enabled)) = Throw e) /\
  does_not_throw (uninstall_hook "fragile" (set_fs Demo.lock Demo.fragile_enabled)) = false /\
  fst (uninstallPlugin "fragile" (set_fs Demo.lock Demo.fragile_enabled)) = Ok false.
Proof.
  cbv zeta.
  assert (H1 : map_get "x" (plugins Demo.x_locked) = Some Demo.x)
    by (vm_compute; reflexivity).
  assert (H2 : forall f, writeFileSync (enabledFile Demo.x_locked) f (fs Demo.x_locked)
               = Throw "EROFS: read-only file system, open '/w/.gemini/plugins/enabled.json'")
    by (intros f; vm_compute; reflexivity).
  assert (H3 : does_not_throw (uninstall_hook "x" Demo.x_locked) = true)
    by (vm_compute; reflexivity).
  assert (H4 : forall f, writeFileSync (enabledFile (set_fs Demo.lock Demo.fragile_enabled)) f
                           (fs (set_fs Demo.lock Demo.fragile_enabled))
               = Throw "EROFS: read-only file system, open '/w/.gemini/plugins/enabled.json'")
    by (intros f; vm_compute; reflexivity).
  destruct (enabled_set_write_failure Demo.x_locked "x" _ H2) as (T1 & T2 & T3 & T4).
  destruct (T4 H3) as (_ & T5 & _).
  destruct (enabled_set_write_failure (set_fs Demo.lock Demo.fragile_enabled) "fragile" _ H4)
    as (_ & _ & T6 & _).
  split; [exact H2|]. split; [exact H1|]. split; [reflexivity|]. split; [reflexivity|].
  split; [exact H3|].
  split; [rewrite (T1 Demo.x H1 eq_refl); reflexivity|].
  split; [rewrite (T2 Demo.x H1 eq_refl); reflexivity|].
  split; [exact T3|]. split; [exact T5|].
  split; [exact H4|]. split; [vm_compute; reflexivity|exact T6].
Defined.

(** C4 fails for [uninstallPlugin]: on a read-only disk the write of
    enabled.json throws, and the call returns [false] instead of ending
    with the error. *)
Lemma uninstall_on_locked_disk_counterexample :
  let w := Demo.x_locked in
  fst (saveEnabledPlugins (forget "x" w)) =
    Throw "EROFS: read-only file system, open '/w/.gemini/plugins/enabled.json'" /\
  fst (uninstallPlugin "x" w) = Ok false /\
  set_has (JStr "x") (enabledPlugins (snd (uninstallPlugin "x" w))) = false /\
  read_json (enabledFile w) (fs (snd (uninstallPlugin "x" w)))
    = Ok (JObj [("plugins", JArr [JStr "x"])]).
Proof. vm_compute. repeat split; reflexivity. Qed.

(** ** Enabling and disabling *)

(** C7: [enablePlugin] of a name that has no loaded instance returns
    [false] and leaves everything as it was: the EnabledSet in memory and
    the disk, enabled.json included. *)
Theorem enablePlugin_not_loaded (w : World) (pluginName : string) :
  map_get pluginName (plugins w) = None ->
  enablePlugin pluginName w = (Ok false, w).
Proof.
  intros H. unfold enablePlugin, bind, get. rewrite H. reflexivity.
Qed.

Lemma enablePlugin_not_loaded_witness :
  map_get "x" (plugins Demo.start) = None /\
  enablePlugin "x" Demo.start = (Ok false, Demo.start).
Proof.
  assert (H : map_get "x" (plugins Demo.start) = None) by reflexivity.
  split; [exact H|].
  exact (enablePlugin_not_loaded Demo.start "x" H).
Defined.




(** ** Reading the EnabledSet *)

Lemma loadEnabledPlugins_eq (w : World) :
  loadEnabledPlugins w =
  if existsSync (enabledFile w) (fs w) then
    match read_enabled w with
    | Ok s => (Ok tt, set_enabledPlugins (fun _ => s) w)
    | Throw e => (Ok tt, warn_enabled e w)
    end
  else (Ok tt, w).
Proof.
  unfold loadEnabledPlugins, read_enabled, enabledFile.
  unfold bind at 1. unfold get.
  destruct (existsSync _ _); [|reflexivity].
  unfold try_catch, bind, lift, exc_bind.
  destruct (read_json _ _) as [enabled|e]; [|reflexivity].
  destruct (get_prop enabled "plugins") as [p|e]; [|reflexivity].
  destruct (new_Set _) as [s|e]; reflexivity.
Qed.

(** Whatever makes the body of the [try] throw (a file that cannot be read
    or parsed, a [null], a [plugins] that is not iterable) ends in the
    [catch]. *)
Lemma loadEnabledPlugins_unusable (w : World) (e : string) :
  existsSync (enabledFile w) (fs w) = true ->
  read_enabled w = Throw e ->
  loadEnabledPlugins w = (Ok tt, warn_enabled e w).
Proof. intros Hx Hr. rewrite loadEnabledPlugins_eq, Hx, Hr. reflexivity. Qed.

Lemma loadEnabledPlugins_keeps_disk (w : World) :
  fs (snd (loadEnabledPlugins w)) = fs w /\
  pluginRoot (snd (loadEnabledPlugins w)) = pluginRoot w.
Proof.
  rewrite loadEnabledPlugins_eq.
  destruct (existsSync _ _); [|split; reflexivity].
  destruct (read_enabled w); split; reflexivity.
Qed.

(** C8, as amended: [loadEnabledPlugins] always returns, it never throws.
    When enabled.json is missing it changes nothing and logs nothing: the
    set stays as it was, which is empty when the manager is constructed.
    When enabled.json is there and cannot be read or parsed, the set
    becomes empty and one warning is logged. A second read right after
    the first returns as well and leaves the same set. *)
Theorem loadEnabledPlugins_fails_soft (w : World) :
  let w1 := snd (loadEnabledPlugins w) in
  fst (loadEnabledPlugins w) = Ok tt /\
  (existsSync (enabledFile w) (fs w) = false -> w1 = w) /\
  (forall e, existsSync (enabledFile w) (fs w) = true ->
             read_json (enabledFile w) (fs w) = Throw e ->
             enabledPlugins w1 = [] /\
             console w1 = console w ++ [Warn "Failed to load enabled plugins:" e]) /\
  fst (loadEnabledPlugins w1) = Ok tt /\
  enabledPlugins (snd (loadEnabledPlugins w1)) = enabledPlugins w1.
Proof.
  intros w1.
  assert (T : forall v, fst (loadEnabledPlugins v) = Ok tt).
  { intros v. rewrite loadEnabledPlugins_eq.
    destruct (existsSync _ _); [|reflexivity].
    destruct (read_enabled v); reflexivity. }
  split; [apply T|].
  split.
  { intros Hm. subst w1. rewrite loadEnabledPlugins_eq, Hm. reflexivity. }
  split.
  { intros e Hx Hr. subst w1. rewrite loadEnabledPlugins_eq, Hx.
    unfold read_enabled. rewrite Hr. simpl. split; reflexivity. }
  split; [apply T|].
  destruct (loadEnabledPlugins_keeps_disk w) as [Hfs Hroot]. fold w1 in Hfs, Hroot.
  assert (Hx : existsSync (enabledFile w1) (fs w1) = existsSync (enabledFile w) (fs w))
    by (unfold enabledFile; rewrite Hfs, Hroot; reflexivity).
  assert (Hr : read_enabled w1 = read_enabled w)
    by (unfold read_enabled, enabledFile; rewrite Hfs, Hroot; reflexivity).
  rewrite (loadEnabledPlugins_eq w1), Hx, Hr.
  subst w1. rewrite (loadEnabledPlugins_eq w).
  destruct (existsSync (enabledFile w) (fs w)); [|reflexivity].
  destruct (read_enabled w); reflexivity.
Qed.

(** C8 fails where it promises a warning for a missing file: over a
    plugin directory without enabled.json the read leaves the set empty
    and the console empty. *)
Lemma read_without_enabled_json_counterexample :
  existsSync (enabledFile Demo.fresh) (fs Demo.fresh) = false /\
  fst (loadEnabledPlugins Demo.fresh) = Ok tt /\
  enabledPlugins (snd (loadEnabledPlugins Demo.fresh)) = [] /\
  console (snd (loadEnabledPlugins Demo.fresh)) = [].
Proof. vm_compute. repeat split; reflexivity. Qed.

(** ** Loading *)

Lemma call_registration_hook_eq {C : Type}
    (register : C -> PluginRegistry -> PluginRegistry)
    (unregister : string -> PluginRegistry -> PluginRegistry)
    (hook : option (RegistrationHook C)) (w : World) :
  exists x,
    call_registration_hook register unregister hook w
    = (x, set_registry (hook_registry register unregister hook) w) /\
    (hook_threw hook = true <-> exists e, x = Throw e).
Proof.
  unfold call_registration_hook, hook_registry, hook_threw, bind, modify.
  destruct hook as [h|].
  - destruct (hook_throws h) as [e|].
    + eexists. split; [reflexivity|]. split; [intros _; eexists; reflexivity|reflexivity].
    + eexists. split; [reflexivity|]. split; [discriminate|intros [e E]; discriminate].
  - eexists. split.
    + unfold ret. destruct w; reflexivity.
    + split; [discriminate|intros [e E]; discriminate].
Qed.

Lemma registerPluginCapabilities_registered (p : GeminiPlugin) (w : World) :
  registry (snd (registerPluginCapabilities p w)) = registered p (registry w).
Proof.
  unfold registerPluginCapabilities, registered.
  unfold bind at 1.
  destruct (call_registration_hook_eq (registerCommand getCommandRegistry)
              (unregisterCommand getCommandRegistry) (registerCommands p) w)
    as (x1 & E1 & T1).
  rewrite E1. destruct x1 as [u|e].
  2:{ rewrite (proj2 T1 (ex_intro _ e eq_refl)). reflexivity. }
  assert (F1 : hook_threw (registerCommands p) = false).
  { destruct (hook_threw (registerCommands p)); [|reflexivity].
    destruct (proj1 T1 eq_refl) as [e E]. discriminate. }
  rewrite F1. clear E1 T1 F1.
  set (w1 := set_registry _ w).
  change (hook_registry (registerCommand getCommandRegistry)
            (unregisterCommand getCommandRegistry) (registerCommands p) (registry w))
    with (registry w1).
  unfold bind at 1.
  destruct (call_registration_hook_eq (registerTool getToolRegistry)
              (unregisterTool getToolRegistry) (registerTools p) w1)
    as (x2 & E2 & T2).
  rewrite E2. destruct x2 as [u2|e].
  2:{ rewrite (proj2 T2 (ex_intro _ e eq_refl)). reflexivity. }
  assert (F2 : hook_threw (registerTools p) = false).
  { destruct (hook_threw (registerTools p)); [|reflexivity].
    destruct (proj1 T2 eq_refl) as [e E]. discriminate. }
  rewrite F2. clear E2 T2 F2.
  set (w2 := set_registry _ w1).
  change (hook_registry (registerTool getToolRegistry)
            (unregisterTool getToolRegistry) (registerTools p) (registry w1))
    with (registry w2).
  unfold bind at 1.
  destruct (call_registration_hook_eq (registerTheme getThemeRegistry)
              (unregisterTheme getThemeRegistry) (registerThemes p) w2)
    as (x3 & E3 & T3).
  rewrite E3. destruct x3 as [u3|e].
  2:{ rewrite (proj2 T3 (ex_intro _ e eq_refl)). reflexivity. }
  assert (F3 : hook_threw (registerThemes p) = false).
  { destruct (hook_threw (registerThemes p)); [|reflexivity].
    destruct (proj1 T3 eq_refl) as [e E]. discriminate. }
  rewrite F3. clear E3 T3 F3.
  set (w3 := set_registry _ w2).
  change (hook_registry (registerTheme getThemeRegistry)
            (unregisterTheme getThemeRegistry) (registerThemes p) (registry w2))
    with (registry w3).
  destruct (call_registration_hook_eq (registerExtension getExtensionRegistry)
              (unregisterExtension getExtensionRegistry) (registerExtensions p) w3)
    as (x4 & E4 & _).
  rewrite E4. reflexivity.
Qed.

Lemma same_registry_refl (w : World) : same_registry w w.
Proof. reflexivity. Qed.

Lemma same_registry_trans (a b c : World) :
  same_registry a b -> same_registry b c -> same_registry a c.
Proof. unfold same_registry. congruence. Qed.

Lemma instantiate_same_registry (pluginName : string) :
  keeps same_registry (instantiate pluginName).
Proof.
  unfold instantiate, loadPluginConfig, console_warn.
  keeps_steps same_registry_refl same_registry_trans.
  apply keeps_modify. intros w. reflexivity.
Qed.

(** C9: once [loadPlugin] has instantiated the plugin, an exception from a
    registration hook, or from [onEnable] when the name is in the
    EnabledSet, makes it return the failed result built from the
    exception's message, in the state the exception left: the instance
    and its context are in their maps, and the Registry holds what the
    registration hooks registered, up to and including the hook that
    threw. *)
Theorem loadPlugin_not_atomic (w w1 w3 : World) (pluginName e : string)
    (p : GeminiPlugin) (context : PluginContext) :
  instantiate pluginName (note_call pluginName w) = (Ok (inr (p, context)), w1) ->
  (registerPluginCapabilities p (store pluginName p context w1) = (Throw e, w3) \/
   (registerPluginCapabilities p (store pluginName p context w1) = (Ok tt, w3) /\
    set_has (JStr pluginName) (enabledPlugins w3) = true /\
    onEnable p = Some (Throws e))) ->
  loadPlugin pluginName w = (Ok (load_failure pluginName e), w3) /\
  map_get pluginName (plugins w3) = Some p /\
  map_get pluginName (pluginContexts w3) = Some context /\
  registry w3 = registered p (registry w).
Proof.
  intros Hi Hr.
  assert (Hreg : registry w1 = registry w).
  { pose proof (instantiate_same_registry pluginName (note_call pluginName w)) as K.
    rewrite Hi in K. exact K. }
  pose proof (registerPluginCapabilities_keeps p (store pluginName p context w1)) as K.
  assert (Hw3 : snd (registerPluginCapabilities p (store pluginName p context w1)) = w3)
    by (destruct Hr as [Hr|[Hr _]]; rewrite Hr; reflexivity).
  rewrite Hw3 in K. destruct K as (_ & KP & _ & KC & _).
  split.
  - rewrite loadPlugin_eq. unfold bind at 1. unfold modify at 1.
    fold (note_call pluginName w).
    unfold try_catch. unfold bind at 1. rewrite Hi.
    unfold activate.
    unfold bind at 1. unfold modify at 1.
    unfold bind at 1. unfold modify at 1.
    fold (store pluginName p context w1).
    unfold bind at 1.
    destruct Hr as [Hr|(Hr & He & Ho)]; rewrite Hr.
    + reflexivity.
    + unfold bind at 1. unfold get. rewrite He.
      unfold bind at 1. rewrite Ho. reflexivity.
  - split; [|split].
    + rewrite KP. simpl. apply map_get_set_eq.
    + rewrite KC. simpl. apply map_get_set_eq.
    + rewrite <- Hw3, registerPluginCapabilities_registered. simpl. rewrite Hreg.
      reflexivity.
Qed.

Lemma loadPlugin_not_atomic_witness :
  let w := Demo.start in
  let w1 := snd (instantiate "half" (note_call "half" w)) in
  let w3 := snd (registerPluginCapabilities Demo.half
                   (store "half" Demo.half Demo.half_context w1)) in
  instantiate "half" (note_call "half" w) = (Ok (inr (Demo.half, Demo.half_context)), w1) /\
  registerPluginCapabilities Demo.half (store "half" Demo.half Demo.half_context w1)
    = (Throw "tools failed", w3) /\
  loadPlugin "half" w = (Ok (load_failure "half" "tools failed"), w3) /\
  map_get "half" (plugins w3) = Some Demo.half /\
  map_get "half" (pluginContexts w3) = Some Demo.half_context /\
  getCommand "half-cmd" (registry w3) = Some (Demo.command "half-cmd") /\
  getTool "half-tool" (registry w3) = Some (Demo.tool "half-tool").
Proof.
  cbv zeta.
  assert (H1 : instantiate "half" (note_call "half" Demo.start)
               = (Ok (inr (Demo.half, Demo.half_context)),
                  snd (instantiate "half" (note_call "half" Demo.start))))
    by (vm_compute; reflexivity).
  assert (H2 : registerPluginCapabilities Demo.half
                 (store "half" Demo.half Demo.half_context
                    (snd (instantiate "half" (note_call "half" Demo.start))))
               = (Throw "tools failed",
                  snd (registerPluginCapabilities Demo.half
                         (store "half" Demo.half Demo.half_context
                            (snd (instantiate "half" (note_call "half" Demo.start)))))))
    by (vm_compute; reflexivity).
  pose proof (loadPlugin_not_atomic Demo.start _ _ "half" "tools failed" Demo.half
                Demo.half_context H1 (or_introl H2)) as (T1 & T2 & T3 & _).
  split; [exact H1|]. split; [exact H2|]. split; [exact T1|].
  split; [exact T2|]. split; [exact T3|].
  split; vm_compute; reflexivity.
Defined.

(** ** Revoking *)

Lemma split_colon_free (b : string) : colon_free b = true -> split ":" b = [b].
Proof.
  induction b as [|c b IH]; simpl; [reflexivity|].
  intros H. apply andb_prop in H. destruct H as [Hc Hb].
  apply negb_true_iff in Hc. rewrite Hc, (IH Hb). reflexivity.
Qed.

Lemma split_append (a b : string) :
  colon_free a = true -> split ":" (a +:+ String ":" b) = a :: split ":" b.
Proof.
  induction a as [|c a IH]; simpl; [reflexivity|].
  intros H. apply andb_prop in H. destruct H as [Hc Ha].
  apply negb_true_iff in Hc. rewrite Hc, (IH Ha). reflexivity.
Qed.

Lemma split_key (kind name : string) :
  colon_free kind = true -> colon_free name = true ->
  split ":" (kind +:+ ":" +:+ name) = [kind; name].
Proof.
  intros Hk Hn. change (kind +:+ ":" +:+ name) with (kind +:+ String ":" name).
  rewrite (split_append _ _ Hk), (split_colon_free _ Hn). reflexivity.
Qed.

Lemma kinds_colon_free (kind : string) : In kind kinds -> colon_free kind = true.
Proof.
  unfold kinds. simpl. intros [H|[H|[H|[H|[]]]]]; subst; reflexivity.
Qed.

Lemma key_inj (a a' b b' : string) :
  colon_free a = true -> colon_free a' = true ->
  a +:+ String ":" b = a' +:+ String ":" b' -> a = a' /\ b = b'.
Proof.
  revert a'. induction a as [|c a IH]; intros [|c' a'] Ha Ha' E; simpl in *.
  - inversion E. split; reflexivity.
  - inversion E; subst. rewrite Ascii.eqb_refl in Ha'. discriminate.
  - inversion E; subst. rewrite Ascii.eqb_refl in Ha. discriminate.
  - inversion E; subst.
    apply andb_prop in Ha. apply andb_prop in Ha'.
    destruct (IH a' (proj2 Ha) (proj2 Ha') H1) as [-> ->]. split; reflexivity.
Qed.

Lemma filter_twice {V : Type} (f g : V -> bool) (l : list V) :
  List.filter f (List.filter g l) = List.filter (fun x => g x && f x) l.
Proof.
  induction l as [|x l IH]; simpl; [reflexivity|].
  destruct (g x); simpl; [destruct (f x)|]; rewrite IH; reflexivity.
Qed.

Lemma filter_all {V : Type} (l : list V) : List.filter (fun _ => true) l = l.
Proof. induction l as [|x l IH]; simpl; [|rewrite IH]; reflexivity. Qed.

(** Deleting key after key is one filter. *)
Lemma fold_keyed_delete {V : Type} (kind owner : string) (l : JsMap string) (m : JsMap V) :
  fold_left (fun acc e => keyed_delete kind owner e acc) l m
  = List.filter (fun kv => negb (existsb (fun e => hits kind owner e (fst kv)) l)) m.
Proof.
  revert m. induction l as [|e l IH]; intros m; cbn [fold_left existsb].
  - symmetry. apply filter_all.
  - rewrite IH. unfold keyed_delete, hits.
    generalize (nth_error (split ":" (fst e)) 0) as ot.
    generalize (nth_error (split ":" (fst e)) 1) as on. intros on ot.
    destruct (String.eqb (snd e) owner); cbn [andb orb]; [|reflexivity].
    destruct ot as [t|]; [|reflexivity].
    destruct (String.eqb t kind); cbn [andb].
    + destruct on as [n|]; cbn [map_delete_opt]; [|reflexivity].
      unfold map_delete. rewrite filter_twice.
      apply filter_ext. intros [k v]. cbn [fst].
      rewrite negb_orb. rewrite (String.eqb_sym k n). reflexivity.
    + destruct on; reflexivity.
Qed.

Lemma fold_left_proj {S T E : Type} (proj : S -> T) (step : S -> E -> S)
    (g : T -> E -> T) (l : list E) (s : S) :
  (forall s e, proj (step s e) = g (proj s) e) ->
  proj (fold_left step l s) = fold_left g l (proj s).
Proof.
  intros H. revert s. induction l as [|e l IH]; intros s; simpl; [reflexivity|].
  rewrite IH, H. reflexivity.
Qed.

Lemma eqb_true_other (t a b : string) :
  String.eqb t a = true -> String.eqb a b = false -> String.eqb t b = false.
Proof. intros H. apply String.eqb_eq in H. subst. auto. Qed.

Lemma step_commands (owner : string) (r : PluginRegistry) (e : string * string) :
  commands (unregisterPlugin_step owner r e) = keyed_delete "command" owner e (commands r).
Proof.
  unfold unregisterPlugin_step, keyed_delete. destruct e as [cap o]. cbn [fst snd].
  generalize (nth_error (split ":" cap) 0) as ot.
  generalize (nth_error (split ":" cap) 1) as on. intros on ot.
  destruct (String.eqb o owner); [|reflexivity].
  destruct ot as [t|]; [|reflexivity].
  destruct (String.eqb t "command") eqn:E1; [reflexivity|].
  destruct (String.eqb t "tool"); [reflexivity|].
  destruct (String.eqb t "theme"); [reflexivity|].
  destruct (String.eqb t "extension"); reflexivity.
Qed.

Lemma step_tools (owner : string) (r : PluginRegistry) (e : string * string) :
  tools (unregisterPlugin_step owner r e) = keyed_delete "tool" owner e (tools r).
Proof.
  unfold unregisterPlugin_step, keyed_delete. destruct e as [cap o]. cbn [fst snd].
  generalize (nth_error (split ":" cap) 0) as ot.
  generalize (nth_error (split ":" cap) 1) as on. intros on ot.
  destruct (String.eqb o owner); [|reflexivity].
  destruct ot as [t|]; [|reflexivity].
  destruct (String.eqb t "command") eqn:E1.
  { rewrite (eqb_true_other _ _ "tool" E1 eq_refl). reflexivity. }
  destruct (String.eqb t "tool"); [reflexivity|].
  destruct (String.eqb t "theme"); [reflexivity|].
  destruct (String.eqb t "extension"); reflexivity.
Qed.

Lemma step_themes (owner : string) (r : PluginRegistry) (e : string * string) :
  themes (unregisterPlugin_step owner r e) = keyed_delete "theme" owner e (themes r).
Proof.
  unfold unregisterPlugin_step, keyed_delete. destruct e as [cap o]. cbn [fst snd].
  generalize (nth_error (split ":" cap) 0) as ot.
  generalize (nth_error (split ":" cap) 1) as on. intros on ot.
  destruct (String.eqb o owner); [|reflexivity].
  destruct ot as [t|]; [|reflexivity].
  destruct (String.eqb t "command") eqn:E1.
  { rewrite (eqb_true_other _ _ "theme" E1 eq_refl). reflexivity. }
  destruct (String.eqb t "tool") eqn:E2.
  { rewrite (eqb_true_other _ _ "theme" E2 eq_refl). reflexivity. }
  destruct (String.eqb t "theme"); [reflexivity|].
  destruct (String.eqb t "extension"); reflexivity.
Qed.

Lemma step_extensions (owner : string) (r : PluginRegistry) (e : string * string) :
  extensions (unregisterPlugin_step owner r e)
  = keyed_delete "extension" owner e (extensions r).
Proof.
  unfold unregisterPlugin_step, keyed_delete. destruct e as [cap o]. cbn [fst snd].
  generalize (nth_error (split ":" cap) 0) as ot.
  generalize (nth_error (split ":" cap) 1) as on. intros on ot.
  destruct (String.eqb o owner); [|reflexivity].
  destruct ot as [t|]; [|reflexivity].
  destruct (String.eqb t "command") eqn:E1.
  { rewrite (eqb_true_other _ _ "extension" E1 eq_refl). reflexivity. }
  destruct (String.eqb t "tool") eqn:E2.
  { rewrite (eqb_true_other _ _ "extension" E2 eq_refl). reflexivity. }
  destruct (String.eqb t "theme") eqn:E3.
  { rewrite (eqb_true_other _ _ "extension" E3 eq_refl). reflexivity. }
  destruct (String.eqb t "extension"); reflexivity.
Qed.

Lemma step_ownership (owner : string) (r : PluginRegistry) (e : string * string) :
  pluginOwnership (unregisterPlugin_step owner r e) = disown owner (pluginOwnership r) e.
Proof.
  unfold unregisterPlugin_step, disown. destruct e as [cap o]. cbn [fst snd].
  generalize (nth_error (split ":" cap) 0) as ot.
  generalize (nth_error (split ":" cap) 1) as on. intros on ot.
  destruct (String.eqb o owner); [|reflexivity].
  destruct ot as [t|]; [|reflexivity].
  destruct (String.eqb t "command"); [reflexivity|].
  destruct (String.eqb t "tool"); [reflexivity|].
  destruct (String.eqb t "theme"); [reflexivity|].
  destruct (String.eqb t "extension"); reflexivity.
Qed.

Lemma fold_disown (owner : string) (l m : JsMap string) :
  fold_left (disown owner) l m
  = List.filter (fun kv => negb (existsb (fun e => String.eqb (snd e) owner
                                                 && String.eqb (fst e) (fst kv)) l)) m.
Proof.
  revert m. induction l as [|e l IH]; intros m; simpl.
  - symmetry. apply filter_all.
  - rewrite IH. unfold disown.
    destruct (String.eqb (snd e) owner); simpl; [|reflexivity].
    unfold map_delete. rewrite filter_twice.
    apply filter_ext. intros [k v]. simpl.
    rewrite negb_orb. rewrite (String.eqb_sym k (fst e)). reflexivity.
Qed.

Lemma map_get_not_in {V : Type} (k : string) (m : JsMap V) :
  ~ In k (map_keys m) -> map_get k m = None.
Proof.
  unfold map_get, map_keys. induction m as [|[k' v] m IH]; simpl; [reflexivity|].
  intros H. destruct (String.eqb k' k) eqn:E.
  - apply String.eqb_eq in E. exfalso. apply H. left. exact E.
  - apply IH. intros Hin. apply H. right. exact Hin.
Qed.

(** With unique, well-formed keys an entry is hit exactly when the
    capability it names is owned by [owner]. *)
Lemma hits_owned (kind owner k : string) (l : JsMap string) :
  In kind kinds -> NoDup (map_keys l) -> well_keyed l ->
  existsb (fun e => hits kind owner e k) l = owned_by owner l kind k.
Proof.
  intros Hk Hnd Hwf. unfold owned_by.
  induction l as [|[cap o] l IH]; simpl; [reflexivity|].
  inversion Hnd as [|? ? Hnotin Hnd']; subst.
  inversion Hwf as [|? ? (kd & nm & Hcap & Hkd & Hnm) Hwf']; subst.
  simpl in Hcap. subst cap.
  rewrite (IH Hnd' Hwf'). clear IH.
  unfold hits. simpl fst. simpl snd.
  rewrite (split_key kd nm (kinds_colon_free kd Hkd) Hnm). simpl nth_error.
  unfold map_get at 1. simpl assoc_get.
  destruct (String.eqb (kd +:+ ":" +:+ nm) (kind +:+ ":" +:+ k)) eqn:E.
  - apply String.eqb_eq in E.
    destruct (key_inj kd kind nm k (kinds_colon_free kd Hkd) (kinds_colon_free kind Hk) E)
      as [-> ->].
    rewrite !String.eqb_refl. simpl.
    fold (map_get (kind +:+ ":" +:+ k) l).
    rewrite (map_get_not_in _ _ (proj1 (not_iff_compat (list_elem_of_In _ _)) Hnotin)).
    rewrite andb_true_r, orb_false_r. reflexivity.
  - assert (F : String.eqb kd kind && String.eqb nm k = false).
    { destruct (String.eqb kd kind) eqn:E1; [|reflexivity].
      destruct (String.eqb nm k) eqn:E2; [|reflexivity].
      apply String.eqb_eq in E1, E2. subst.
      rewrite String.eqb_refl in E. discriminate. }
    rewrite F, andb_false_r. reflexivity.
Qed.

Lemma In_map_keys {V : Type} (k : string) (v : V) (m : JsMap V) :
  In (k, v) m -> In k (map_keys m).
Proof. intros H. unfold map_keys. apply (in_map fst) in H. exact H. Qed.

Lemma disown_owned (owner : string) (l : JsMap string) (kv : string * string) :
  NoDup (map_keys l) -> In kv l ->
  existsb (fun e => String.eqb (snd e) owner && String.eqb (fst e) (fst kv)) l
  = String.eqb (snd kv) owner.
Proof.
  intros Hnd Hin. induction l as [|[k o] l IH]; simpl; [destruct Hin|].
  inversion Hnd as [|? ? Hnotin Hnd']; subst.
  destruct Hin as [<-|Hin]; simpl.
  - rewrite String.eqb_refl, andb_true_r.
    destruct (String.eqb o owner); [reflexivity|]. simpl.
    apply not_true_is_false. intros H. apply existsb_exists in H.
    destruct H as ([k' o'] & Hin' & H). apply andb_prop in H. destruct H as [_ H].
    simpl in H. apply String.eqb_eq in H. subst k'.
    apply Hnotin. apply list_elem_of_In. eapply In_map_keys. exact Hin'.
  - rewrite (IH Hnd' Hin).
    assert (F : String.eqb k (fst kv) = false).
    { apply String.eqb_neq. intros ->. apply Hnotin. apply list_elem_of_In.
      destruct kv as [k' o']. eapply In_map_keys. exact Hin. }
    rewrite F, andb_false_r. reflexivity.
Qed.

(** For a registry whose ownership keys are [kind:name] with colon-free
    names, [unregisterPlugin owner] removes exactly the capabilities and
    ownership entries whose owner is [owner], and leaves every other
    entry in place. *)
Lemma unregisterPlugin_revokes (owner : string) (r : PluginRegistry) :
  NoDup (map_keys (pluginOwnership r)) -> well_keyed (pluginOwnership r) ->
  unregisterPlugin owner r = revoked owner r.
Proof.
  intros Hnd Hwf. unfold unregisterPlugin.
  set (l := pluginOwnership r).
  set (r' := fold_left (unregisterPlugin_step owner) l r).
  assert (Hc : commands r' = drop_owned owner l "command" (commands r)).
  { subst r'. rewrite (fold_left_proj commands _ (fun m e => keyed_delete "command" owner e m) _ _
               (step_commands owner)).
    rewrite (fold_keyed_delete (V:=PluginCommand)). unfold drop_owned.
    apply filter_ext. intros kv. f_equal.
    apply hits_owned; [unfold kinds; simpl; auto|exact Hnd|exact Hwf]. }
  assert (Ht : tools r' = drop_owned owner l "tool" (tools r)).
  { subst r'. rewrite (fold_left_proj tools _ (fun m e => keyed_delete "tool" owner e m) _ _
               (step_tools owner)).
    rewrite (fold_keyed_delete (V:=PluginTool)). unfold drop_owned.
    apply filter_ext. intros kv. f_equal.
    apply hits_owned; [unfold kinds; simpl; auto|exact Hnd|exact Hwf]. }
  assert (Hh : themes r' = drop_owned owner l "theme" (themes r)).
  { subst r'. rewrite (fold_left_proj themes _ (fun m e => keyed_delete "theme" owner e m) _ _
               (step_themes owner)).
    rewrite (fold_keyed_delete (V:=PluginTheme)). unfold drop_owned.
    apply filter_ext. intros kv. f_equal.
    apply hits_owned; [unfold kinds; simpl; auto|exact Hnd|exact Hwf]. }
  assert (He : extensions r' = drop_owned owner l "extension" (extensions r)).
  { subst r'. rewrite (fold_left_proj extensions _ (fun m e => keyed_delete "extension" owner e m) _ _
               (step_extensions owner)).
    rewrite (fold_keyed_delete (V:=PluginExtension)). unfold drop_owned.
    apply filter_ext. intros kv. f_equal.
    apply hits_owned; [unfold kinds; simpl; auto 6|exact Hnd|exact Hwf]. }
  assert (Ho : pluginOwnership r'
               = List.filter (fun kv => negb (String.eqb (snd kv) owner)) l).
  { subst r'. rewrite (fold_left_proj pluginOwnership _ (disown owner) _ _ (step_ownership owner)).
    rewrite fold_disown. fold l.
    apply filter_ext_in. intros kv Hin. f_equal.
    apply disown_owned; assumption. }
  unfold revoked. fold l. rewrite <- Hc, <- Ht, <- Hh, <- He, <- Ho.
  destruct r'. reflexivity.
Qed.


(** The revocation of ["unknown"] in the registry that loading ["x"]
    leaves: its keys are unique and well formed, and its one command goes. *)
Lemma revoke_unknown_after_x :
  NoDup (map_keys (pluginOwnership (registry Demo.x_loaded))) /\
  well_keyed (pluginOwnership (registry Demo.x_loaded)) /\
  unregisterPlugin "unknown" (registry Demo.x_loaded) = empty_registry.
Proof.
  assert (N : NoDup (map_keys (pluginOwnership (registry Demo.x_loaded)))).
  { vm_compute. apply NoDup_singleton. }
  assert (W : well_keyed (pluginOwnership (registry Demo.x_loaded))).
  { vm_compute. constructor; [|constructor].
    exists "command", "x-cmd". repeat split. left. reflexivity. }
  split; [exact N|]. split; [exact W|].
  rewrite (unregisterPlugin_revokes "unknown" _ N W). vm_compute. reflexivity.
Qed.

(** C5, at a registry in which the command ["git:status"] was registered
    through the handle: its ownership entry names ["unknown"], and
    [unregisterPlugin "unknown"] removes that ownership entry but deletes
    the key ["git"] from the commands, so the command stays registered
    where the claim has it removed. *)
Theorem unregisterPlugin_keeps_scoped_command :
  let r := Demo.scoped_registry in
  map_get "command:git:status" (pluginOwnership r) = Some "unknown" /\
  getCommand "git:status" r = Some (Demo.command "git:status") /\
  pluginOwnership (unregisterPlugin "unknown" r) = [] /\
  getCommand "git:status" (unregisterPlugin "unknown" r) = Some (Demo.command "git:status").
Proof. vm_compute. repeat split; reflexivity. Qed.

(** * Further properties *)

(** ** The registry: lookups after the handles *)

Lemma map_get_set {V : Type} (k k' : string) (v : V) (m : JsMap V) :
  map_get k' (map_set k v m) = if String.eqb k k' then Some v else map_get k' m.
Proof.
  unfold map_get. induction m as [|[k0 v0] m IH]; simpl.
  - reflexivity.
  - destruct (String.eqb k0 k) eqn:E; simpl.
    + apply String.eqb_eq in E. subst k0. destruct (String.eqb k k'); reflexivity.
    + rewrite IH. destruct (String.eqb k k') eqn:E2; [|reflexivity].
      apply String.eqb_eq in E2. subst k'. rewrite E. reflexivity.
Qed.

Lemma map_get_delete {V : Type} (k k' : string) (m : JsMap V) :
  map_get k' (map_delete k m) = if String.eqb k k' then None else map_get k' m.
Proof.
  unfold map_get, map_delete. induction m as [|[k0 v0] m IH]; simpl.
  - destruct (String.eqb k k'); reflexivity.
  - destruct (String.eqb k0 k) eqn:E; simpl.
    + rewrite IH. apply String.eqb_eq in E. subst k0.
      destruct (String.eqb k k'); reflexivity.
    + rewrite IH. destruct (String.eqb k k') eqn:E2; [|reflexivity].
      apply String.eqb_eq in E2. subst k'. rewrite E. reflexivity.
Qed.

Lemma map_has_set {V : Type} (k k' : string) (v : V) (m : JsMap V) :
  map_has k' (map_set k v m) = String.eqb k k' || map_has k' m.
Proof. unfold map_has. rewrite map_get_set. destruct (String.eqb k k'); reflexivity. Qed.

Lemma map_has_delete {V : Type} (k k' : string) (m : JsMap V) :
  map_has k' (map_delete k m) = negb (String.eqb k k') && map_has k' m.
Proof. unfold map_has. rewrite map_get_delete. destruct (String.eqb k k'); reflexivity. Qed.

Lemma append_eqb (p a b : string) : String.eqb (p +:+ a) (p +:+ b) = String.eqb a b.
Proof.
  induction p as [|c p IH]; simpl; [reflexivity|].
  rewrite Ascii.eqb_refl. exact IH.
Qed.

(** X1. A lookup after a call on a handle: the name just registered
    gives the capability registered, the name just unregistered gives
    nothing, and every other name gives what it gave before; so for the
    four kinds. *)
Theorem lookup_after_handle_call (r : PluginRegistry) :
  (forall c n, getCommand n (registerCommand getCommandRegistry c r)
               = if String.eqb (cmd_name c) n then Some c else getCommand n r) /\
  (forall k n, getCommand n (unregisterCommand getCommandRegistry k r)
               = if String.eqb k n then None else getCommand n r) /\
  (forall t n, getTool n (registerTool getToolRegistry t r)
               = if String.eqb (tool_name t) n then Some t else getTool n r) /\
  (forall k n, getTool n (unregisterTool getToolRegistry k r)
               = if String.eqb k n then None else getTool n r) /\
  (forall t n, getTheme n (registerTheme getThemeRegistry t r)
               = if String.eqb (theme_name t) n then Some t else getTheme n r) /\
  (forall k n, getTheme n (unregisterTheme getThemeRegistry k r)
               = if String.eqb k n then None else getTheme n r) /\
  (forall e n, getExtension n (registerExtension getExtensionRegistry e r)
               = if String.eqb (ext_name e) n then Some e else getExtension n r) /\
  (forall k n, getExtension n (unregisterExtension getExtensionRegistry k r)
               = if String.eqb k n then None else getExtension n r).
Proof.
  unfold getCommand, getTool, getTheme, getExtension.
  repeat split; intros; simpl; first [apply map_get_set | apply map_get_delete].
Qed.

(** ** The registry: the capability maps and the ownership map in step *)

Ltac in_step_op :=
  let r := fresh "r" in
  let H := fresh "H" in
  let name := fresh "name" in
  intros r H name; destruct (H name) as (Hc & Ht & Hh & He);
  cbn [commands tools themes extensions pluginOwnership
       registerCommand unregisterCommand getCommandRegistry
       registerTool unregisterTool getToolRegistry
       registerTheme unregisterTheme getThemeRegistry
       registerExtension unregisterExtension getExtensionRegistry
       with_commands with_tools with_themes with_extensions with_ownership];
  rewrite ?map_has_set, ?map_has_delete, ?Hc, ?Ht, ?Hh, ?He;
  rewrite ?(append_eqb "command:"), ?(append_eqb "tool:"), ?(append_eqb "theme:"),
    ?(append_eqb "extension:");
  repeat split; reflexivity.

Lemma registerCommand_in_step (c : PluginCommand) :
  keeps_in_step (registerCommand getCommandRegistry c).
Proof. in_step_op. Qed.

Lemma unregisterCommand_in_step (n : string) :
  keeps_in_step (unregisterCommand getCommandRegistry n).
Proof. in_step_op. Qed.

Lemma registerTool_in_step (c : PluginTool) :
  keeps_in_step (registerTool getToolRegistry c).
Proof. in_step_op. Qed.

Lemma unregisterTool_in_step (n : string) :
  keeps_in_step (unregisterTool getToolRegistry n).
Proof. in_step_op. Qed.

Lemma registerTheme_in_step (c : PluginTheme) :
  keeps_in_step (registerTheme getThemeRegistry c).
Proof. in_step_op. Qed.

Lemma unregisterTheme_in_step (n : string) :
  keeps_in_step (unregisterTheme getThemeRegistry n).
Proof. in_step_op. Qed.

Lemma registerExtension_in_step (c : PluginExtension) :
  keeps_in_step (registerExtension getExtensionRegistry c).
Proof. in_step_op. Qed.

Lemma unregisterExtension_in_step (n : string) :
  keeps_in_step (unregisterExtension getExtensionRegistry n).
Proof. in_step_op. Qed.

(** What the handles keep of the registry, [loadPlugin] keeps. *)
Section RegistryInvariant.

Variable P : PluginRegistry -> Prop.

Hypothesis registerCommand_P : forall c r, P r -> P (registerCommand getCommandRegistry c r).
Hypothesis unregisterCommand_P : forall n r, P r -> P (unregisterCommand getCommandRegistry n r).
Hypothesis registerTool_P : forall c r, P r -> P (registerTool getToolRegistry c r).
Hypothesis unregisterTool_P : forall n r, P r -> P (unregisterTool getToolRegistry n r).
Hypothesis registerTheme_P : forall c r, P r -> P (registerTheme getThemeRegistry c r).
Hypothesis unregisterTheme_P : forall n r, P r -> P (unregisterTheme getThemeRegistry n r).
Hypothesis registerExtension_P :
  forall c r, P r -> P (registerExtension getExtensionRegistry c r).
Hypothesis unregisterExtension_P :
  forall n r, P r -> P (unregisterExtension getExtensionRegistry n r).

Lemma stays_in_refl (w : World) : stays_in P w w.
Proof. intros H. exact H. Qed.

Lemma stays_in_trans (a b c : World) :
  stays_in P a b -> stays_in P b c -> stays_in P a c.
Proof. unfold stays_in. auto. Qed.

Lemma run_handle_calls_P {C : Type}
    (register : C -> PluginRegistry -> PluginRegistry)
    (unregister : string -> PluginRegistry -> PluginRegistry)
    (calls : list (HandleCall C)) :
  (forall c r, P r -> P (register c r)) ->
  (forall n r, P r -> P (unregister n r)) ->
  forall r, P r -> P (run_handle_calls register unregister calls r).
Proof.
  intros Hr Hu. unfold run_handle_calls.
  induction calls as [|[c|n] calls IH]; intros r H; simpl; auto.
Qed.

Lemma call_registration_hook_P {C : Type}
    (register : C -> PluginRegistry -> PluginRegistry)
    (unregister : string -> PluginRegistry -> PluginRegistry)
    (hook : option (RegistrationHook C)) :
  (forall c r, P r -> P (register c r)) ->
  (forall n r, P r -> P (unregister n r)) ->
  keeps (stays_in P) (call_registration_hook register unregister hook).
Proof.
  intros Hr Hu. unfold call_registration_hook.
  keeps_steps stays_in_refl stays_in_trans.
  apply keeps_modify. intros w H. simpl. apply run_handle_calls_P; assumption.
Qed.

Lemma registerPluginCapabilities_P (p : GeminiPlugin) :
  keeps (stays_in P) (registerPluginCapabilities p).
Proof.
  unfold registerPluginCapabilities.
  keeps_steps stays_in_refl stays_in_trans; apply call_registration_hook_P; assumption.
Qed.

Lemma loadPlugin_P (pluginName : string) : keeps (stays_in P) (loadPlugin pluginName).
Proof.
  intros w0. rewrite loadPlugin_eq. revert w0.
  change (keeps (stays_in P)
            (modify (set_loadPlugin_calls (fun l => l ++ [pluginName])) ;;
             try_catch
               (r <- instantiate pluginName ;;
                match r with
                | inl failure => ret failure
                | inr (p, context) => activate pluginName p context
                end)
               (fun error =>
                  ret (failed ("Failed to load plugin " +:+ pluginName +:+ ": "
                               +:+ error))))).
  unfold activate, call_hook, instantiate, loadPluginConfig, console_warn.
  keeps_steps stays_in_refl stays_in_trans;
    try (apply keeps_modify; intros w H; exact H).
  apply registerPluginCapabilities_P.
Qed.

End RegistryInvariant.

(** X2. The handles keep the capability maps and the ownership map in
    step, and so does a load, whatever the hooks of the plugin register
    or unregister and whether the load succeeds or not: a name is in a
    capability map exactly when its key is in the ownership map. *)
Theorem loadPlugin_keeps_in_step (pluginName : string) (w : World) :
  in_step (registry w) -> in_step (registry (snd (loadPlugin pluginName w))).
Proof.
  apply (loadPlugin_P in_step registerCommand_in_step unregisterCommand_in_step
           registerTool_in_step unregisterTool_in_step registerTheme_in_step
           unregisterTheme_in_step registerExtension_in_step unregisterExtension_in_step
           pluginName w).
Qed.

Lemma loadPlugin_keeps_in_step_witness :
  getCommand "x-cmd" (registry Demo.x_loaded) = Some (Demo.command "x-cmd") /\
  in_step (registry Demo.start) /\
  in_step (registry (snd (loadPlugin "x" Demo.start))).
Proof.
  assert (H : in_step (registry Demo.start)) by (intros name; repeat split).
  split; [reflexivity|]. split; [exact H|].
  apply (loadPlugin_keeps_in_step "x" Demo.start H).
Defined.

(** ** Revocation by plugin name, with the owners the handles record *)

Lemma unregisterPlugin_noop (pluginName : string) (r : PluginRegistry) :
  all_unknown r -> pluginName <> "unknown" -> unregisterPlugin pluginName r = r.
Proof.
  intros H Hn. unfold unregisterPlugin, all_unknown in *.
  generalize r at 2 3.
  induction H as [|[capability owner] l Hx Hl IH]; intros r0; simpl.
  - reflexivity.
  - simpl in Hx. subst owner.
    destruct (String.eqb "unknown" pluginName) eqn:E.
    + apply String.eqb_eq in E. congruence.
    + apply IH.
Qed.

Lemma registry_stays_refl (w : World) : registry_stays w w.
Proof. intros _. reflexivity. Qed.

Lemma registry_stays_trans (a b c : World) :
  registry_stays a b -> registry_stays b c -> registry_stays a c.
Proof.
  unfold registry_stays. intros Hab Hbc H. specialize (Hab H).
  rewrite Hbc; [exact Hab|]. rewrite Hab. exact H.
Qed.

Lemma uninstallPlugin_registry_stays (pluginName : string) :
  pluginName <> "unknown" -> keeps registry_stays (uninstallPlugin pluginName).
Proof.
  intros Hn.
  unfold uninstallPlugin, saveEnabledPlugins, PluginInstaller.uninstall, call_hook,
    console_error.
  keeps_steps registry_stays_refl registry_stays_trans;
    try (apply keeps_modify; intros w H; reflexivity);
    try (apply keeps_fs_do; [exact registry_stays_refl|intros w d H; reflexivity]).
  apply keeps_modify. intros w H. simpl. apply unregisterPlugin_noop; assumption.
Qed.

(** X4. With the owners the handles record, uninstalling a plugin takes
    nothing out of the registry: when every ownership entry names
    ["unknown"], as after any number of loads, [uninstallPlugin] of a
    plugin of another name leaves the registry as it was, whether it
    reports success or failure. *)
Theorem uninstallPlugin_revokes_nothing (pluginName : string) (w : World) :
  all_unknown (registry w) -> pluginName <> "unknown" ->
  registry (snd (uninstallPlugin pluginName w)) = registry w.
Proof.
  intros H Hn. apply (uninstallPlugin_registry_stays pluginName Hn w H).
Qed.

Lemma uninstallPlugin_revokes_nothing_witness :
  all_unknown (registry Demo.x_loaded) /\
  "x" <> "unknown" /\
  fst (uninstallPlugin "x" Demo.x_loaded) = Ok true /\
  getCommand "x-cmd" (registry Demo.x_loaded) = Some (Demo.command "x-cmd") /\
  registry (snd (uninstallPlugin "x" Demo.x_loaded)) = registry Demo.x_loaded.
Proof.
  assert (H : all_unknown (registry Demo.x_loaded)).
  { vm_compute. constructor; [reflexivity|constructor]. }
  assert (Hn : "x" <> "unknown") by discriminate.
  split; [exact H|]. split; [exact Hn|]. split; [vm_compute; reflexivity|].
  split; [vm_compute; reflexivity|].
  apply (uninstallPlugin_revokes_nothing "x" Demo.x_loaded H Hn).
Defined.

(** ** The two validations of [package.json] *)

Lemma validate_fields_first_missing (metadata : json) (fields : list string) :
  validate_fields metadata fields =
  match PluginInstaller.first_missing metadata fields with
  | Ok None => Ok true
  | Ok (Some _) => Ok false
  | Throw e => Throw e
  end.
Proof.
  induction fields as [|field rest IH]; simpl; [reflexivity|].
  destruct (get_prop metadata field) as [v|e]; simpl; [|reflexivity].
  destruct (negb (truthy_opt v)); [reflexivity|exact IH].
Qed.

(** X5. The loader and the installer validate a [package.json] alike: the
    loader's [validatePluginMetadata] accepts it exactly when the
    installer's loop over the required fields finds none missing, rejects
    it when the installer names a missing field, and throws when the
    installer's loop throws. *)
Theorem validations_agree (metadata : json) :
  validatePluginMetadata metadata =
  match PluginInstaller.first_missing metadata PluginInstaller.required with
  | Ok None => Ok true
  | Ok (Some _) => Ok false
  | Throw e => Throw e
  end.
Proof. apply validate_fields_first_missing. Qed.

(** ** The EnabledSet and its file *)

Lemma same_value_zero_name (n : string) (y : json) :
  same_value_zero y (JStr n) = same_value_zero (JStr n) y.
Proof. destruct y; simpl; try reflexivity. apply String.eqb_sym. Qed.

Lemma set_has_app (x : json) (a b : JsSet) :
  set_has x (a ++ b) = set_has x a || set_has x b.
Proof. apply existsb_app. Qed.

Lemma set_of_names_restringify (s : JsSet) :
  set_of_names s = true -> List.map restringify s = s.
Proof.
  induction s as [|x s IH]; simpl; [reflexivity|].
  destruct x; try discriminate. intros H. apply andb_prop in H.
  rewrite (IH (proj2 H)). reflexivity.
Qed.

Lemma set_has_false_In (x y : json) (s : JsSet) :
  set_has x s = false -> In y s -> same_value_zero x y = false.
Proof.
  induction s as [|z s IH]; simpl; [contradiction|].
  intros H [->|Hy]; apply orb_false_elim in H; [exact (proj1 H)|].
  apply IH; [exact (proj2 H)|exact Hy].
Qed.

Lemma fold_set_add (l acc : JsSet) :
  (forall x, In x l -> set_has x acc = false) -> set_of_names l = true ->
  fold_left (fun s x => set_add x s) l acc = acc ++ l.
Proof.
  revert acc. induction l as [|x l IH]; intros acc Hacc Hl; simpl.
  - symmetry. apply app_nil_r.
  - simpl in Hl. destruct x as [| | |n| |]; try discriminate.
    apply andb_prop in Hl. destruct Hl as [Hx Hl]. apply negb_true_iff in Hx.
    unfold set_add at 2. rewrite (Hacc (JStr n) (or_introl eq_refl)).
    rewrite IH; [rewrite <- app_assoc; reflexivity| |exact Hl].
    intros y Hy. rewrite set_has_app, (Hacc y (or_intror Hy)). simpl.
    rewrite orb_false_r, same_value_zero_name.
    exact (set_has_false_In _ _ _ Hx Hy).
Qed.

Lemma set_from_list_names (s : JsSet) : set_of_names s = true -> set_from_list s = s.
Proof.
  intros H. unfold set_from_list. rewrite fold_set_add; [reflexivity| |exact H].
  intros x _. reflexivity.
Qed.

Lemma set_has_filter (x : json) (f : json -> bool) (s : JsSet) :
  set_has x s = false -> set_has x (List.filter f s) = false.
Proof.
  induction s as [|y s IH]; simpl; [reflexivity|].
  intros H. apply orb_false_elim in H. destruct H as [Hy Hs].
  destruct (f y); simpl; [rewrite Hy|]; apply IH; exact Hs.
Qed.

Lemma set_delete_names (x : json) (s : JsSet) :
  set_of_names s = true -> set_of_names (set_delete x s) = true.
Proof.
  unfold set_delete. induction s as [|y s IH]; simpl; [reflexivity|].
  destruct y as [| | |n| |]; try discriminate. intros H.
  apply andb_prop in H. destruct H as [Hy Hs]. apply negb_true_iff in Hy.
  destruct (negb (same_value_zero x (JStr n))); [|apply IH; exact Hs].
  simpl. rewrite (set_has_filter _ _ _ Hy), (IH Hs). reflexivity.
Qed.

Lemma set_add_names (n : string) (s : JsSet) :
  set_of_names s = true -> set_of_names (set_add (JStr n) s) = true.
Proof.
  unfold set_add. destruct (set_has (JStr n) s) eqn:E; [trivial|].
  induction s as [|y s IH]; simpl; [reflexivity|].
  destruct y as [| | |m| |]; try discriminate. intros H.
  apply andb_prop in H. destruct H as [Hy Hs]. apply negb_true_iff in Hy.
  simpl in E. apply orb_false_elim in E. destruct E as [Em Es].
  rewrite set_has_app, Hy. simpl. rewrite String.eqb_sym, Em. simpl.
  apply IH; assumption.
Qed.

Lemma saveEnabledPlugins_saved (w : World) :
  fst (saveEnabledPlugins w) = Ok tt -> 
  saved (snd (saveEnabledPlugins w)) /\
  enabledPlugins (snd (saveEnabledPlugins w)) = enabledPlugins w /\
  pluginRoot (snd (saveEnabledPlugins w)) = pluginRoot w /\
  (forall p, existsSync p (fs w) = true ->
             existsSync p (fs (snd (saveEnabledPlugins w))) = true).
Proof.
  rewrite saveEnabledPlugins_eq. unfold writeFileSync.
  destruct (read_only (fs w)); [discriminate|].
  destruct (nodes (fs w) !! enabledFile w) as [[|f]|] eqn:E; try discriminate;
    intros _; (split; [|split; [reflexivity|split; [reflexivity|]]]).
  all: unfold saved, existsSync; simpl.
  all: try (rewrite lookup_insert_eq; reflexivity).
  all: intros p; destruct (decide (enabledFile w = p)) as [->|Hne];
    [rewrite lookup_insert_eq; reflexivity|rewrite lookup_insert_ne by exact Hne; trivial].
Qed.

Lemma loadEnabledPlugins_saved (w w2 : World) :
  saved w -> set_of_names (enabledPlugins w) = true ->
  pluginRoot w2 = pluginRoot w -> fs w2 = fs w ->
  loadEnabledPlugins w2 = (Ok tt, set_enabledPlugins (fun _ => enabledPlugins w) w2).
Proof.
  intros Hs Hn Hr Hf. rewrite loadEnabledPlugins_eq.
  unfold saved, read_enabled, read_json, readFileSync, existsSync, enabledFile in *.
  rewrite Hr, Hf, Hs. simpl.
  rewrite (set_of_names_restringify _ Hn), (set_from_list_names _ Hn). reflexivity.
Qed.

(** X6. Writing the EnabledSet and reading it back: when the set holds
    plugin names, each once, and [saveEnabledPlugins] returns, then
    [loadEnabledPlugins], run by any manager over the same plugin root
    and the disk the write left, sets that manager's EnabledSet to the
    set that was written, in the same order, and logs nothing. *)
Theorem save_then_load_enabled (w w2 : World) :
  set_of_names (enabledPlugins w) = true ->
  fst (saveEnabledPlugins w) = Ok tt ->
  pluginRoot w2 = pluginRoot w ->
  fs w2 = fs (snd (saveEnabledPlugins w)) ->
  loadEnabledPlugins w2 = (Ok tt, set_enabledPlugins (fun _ => enabledPlugins w) w2).
Proof.
  intros Hn Hs Hr Hf.
  destruct (saveEnabledPlugins_saved w Hs) as (S1 & S2 & S3 & _).
  rewrite <- S2.
  apply loadEnabledPlugins_saved; [exact S1|rewrite S2; exact Hn|congruence|exact Hf].
Qed.

Lemma save_then_load_enabled_witness :
  let w := snd (enablePlugin "x" Demo.x_loaded) in
  let w2 := new_manager Demo.root (fs (snd (saveEnabledPlugins w))) in
  enabledPlugins w = [JStr "x"] /\
  set_of_names (enabledPlugins w) = true /\
  fst (saveEnabledPlugins w) = Ok tt /\
  loadEnabledPlugins w2 = (Ok tt, set_enabledPlugins (fun _ => enabledPlugins w) w2).
Proof.
  cbv zeta.
  split; [vm_compute; reflexivity|]. split; [vm_compute; reflexivity|].
  split; [vm_compute; reflexivity|].
  apply (save_then_load_enabled (snd (enablePlugin "x" Demo.x_loaded))
           (new_manager Demo.root
              (fs (snd (saveEnabledPlugins (snd (enablePlugin "x" Demo.x_loaded))))))).
  - vm_compute; reflexivity.
  - vm_compute; reflexivity.
  - reflexivity.
  - reflexivity.
Defined.

Lemma enablePlugin_returns_true (pluginName : string) (w : World) :
  fst (enablePlugin pluginName w) = Ok true ->
  let w1 := set_enabledPlugins (set_add (JStr pluginName)) w in
  fst (saveEnabledPlugins w1) = Ok tt /\
  snd (enablePlugin pluginName w) = snd (saveEnabledPlugins w1).
Proof.
  unfold enablePlugin, bind, get, call_hook, modify, ret. cbv zeta.
  destruct (map_get pluginName (plugins w)) as [p|]; [|discriminate].
  destruct (onEnable p) as [[|e]|]; try discriminate.
  all: destruct (saveEnabledPlugins (set_enabledPlugins (set_add (JStr pluginName)) w))
    as [[[]|e] w']; try discriminate; intros _; split; reflexivity.
Qed.

Lemma disablePlugin_returns_true (pluginName : string) (w : World) :
  fst (disablePlugin pluginName w) = Ok true ->
  let w1 := set_enabledPlugins (set_delete (JStr pluginName)) w in
  fst (saveEnabledPlugins w1) = Ok tt /\
  snd (disablePlugin pluginName w) = snd (saveEnabledPlugins w1).
Proof.
  unfold disablePlugin, bind, get, call_hook, modify, ret. cbv zeta.
  destruct (map_get pluginName (plugins w)) as [p|]; [|discriminate].
  destruct (onDisable p) as [[|e]|]; try discriminate.
  all: destruct (saveEnabledPlugins (set_enabledPlugins (set_delete (JStr pluginName)) w))
    as [[[]|e] w']; try discriminate; intros _; split; reflexivity.
Qed.

Lemma new_PluginManager_saved (w : World) (workspaceRoot : string) :
  pluginRoot w = path_join (path_join workspaceRoot ".gemini") "plugins" ->
  existsSync (pluginRoot w) (fs w) = true ->
  saved w -> set_of_names (enabledPlugins w) = true ->
  fst (new_PluginManager workspaceRoot (fs w)) = Ok tt /\
  enabledPlugins (snd (new_PluginManager workspaceRoot (fs w))) = enabledPlugins w.
Proof.
  intros Hr He Hs Hn. unfold new_PluginManager. rewrite <- Hr.
  cbv [ensurePluginDirectory bind get].
  cbn [pluginRoot fs new_manager]. rewrite He. cbn [negb ret].
  rewrite (loadEnabledPlugins_saved w _ Hs Hn); [split; reflexivity| |reflexivity].
  reflexivity.
Qed.

(** X7. The enabled state survives a restart. In a manager whose plugin
    root exists and whose EnabledSet holds plugin names, each once: when
    [enablePlugin] or [disablePlugin] returns [true], a manager
    constructed afterwards over the same workspace reads back from
    [enabled.json] the EnabledSet the first one had in memory, with the
    plugin in it after an enable and out of it after a disable. *)
Theorem enabled_state_survives_restart (w : World) (workspaceRoot pluginName : string) :
  pluginRoot w = path_join (path_join workspaceRoot ".gemini") "plugins" ->
  existsSync (pluginRoot w) (fs w) = true ->
  set_of_names (enabledPlugins w) = true ->
  (fst (enablePlugin pluginName w) = Ok true ->
   let w' := snd (enablePlugin pluginName w) in
   fst (new_PluginManager workspaceRoot (fs w')) = Ok tt /\
   enabledPlugins (snd (new_PluginManager workspaceRoot (fs w'))) = enabledPlugins w' /\
   set_has (JStr pluginName) (enabledPlugins w') = true) /\
  (fst (disablePlugin pluginName w) = Ok true ->
   let w' := snd (disablePlugin pluginName w) in
   fst (new_PluginManager workspaceRoot (fs w')) = Ok tt /\
   enabledPlugins (snd (new_PluginManager workspaceRoot (fs w'))) = enabledPlugins w' /\
   set_has (JStr pluginName) (enabledPlugins w') = false).
Proof.
  intros Hr He Hn. split; intros Ht; cbv zeta.
  - destruct (enablePlugin_returns_true _ _ Ht) as [Hs Hw]. rewrite Hw.
    destruct (saveEnabledPlugins_saved _ Hs) as (S1 & S2 & S3 & S4).
    assert (N : set_of_names (enabledPlugins (snd (saveEnabledPlugins
                  (set_enabledPlugins (set_add (JStr pluginName)) w)))) = true)
      by (rewrite S2; apply set_add_names; exact Hn).
    pose proof (S4 _ He) as X. simpl in S3. rewrite <- S3 in X at 1.
    destruct (new_PluginManager_saved _ workspaceRoot (eq_trans S3 Hr) X S1 N)
      as [K1 K2].
    split; [exact K1|]. split; [exact K2|]. rewrite S2. apply set_has_add.
  - destruct (disablePlugin_returns_true _ _ Ht) as [Hs Hw]. rewrite Hw.
    destruct (saveEnabledPlugins_saved _ Hs) as (S1 & S2 & S3 & S4).
    assert (N : set_of_names (enabledPlugins (snd (saveEnabledPlugins
                  (set_enabledPlugins (set_delete (JStr pluginName)) w)))) = true)
      by (rewrite S2; apply set_delete_names; exact Hn).
    pose proof (S4 _ He) as X. simpl in S3. rewrite <- S3 in X at 1.
    destruct (new_PluginManager_saved _ workspaceRoot (eq_trans S3 Hr) X S1 N)
      as [K1 K2].
    split; [exact K1|]. split; [exact K2|]. rewrite S2. apply set_has_delete.
Qed.

Lemma enabled_state_survives_restart_witness :
  let w := Demo.x_loaded in
  let w' := snd (enablePlugin "x" w) in
  pluginRoot w = path_join (path_join "/w" ".gemini") "plugins" /\
  existsSync (pluginRoot w) (fs w) = true /\
  set_of_names (enabledPlugins w) = true /\
  fst (enablePlugin "x" w) = Ok true /\
  fst (new_PluginManager "/w" (fs w')) = Ok tt /\
  enabledPlugins (snd (new_PluginManager "/w" (fs w'))) = [JStr "x"].
Proof.
  cbv zeta.
  assert (H1 : pluginRoot Demo.x_loaded = path_join (path_join "/w" ".gemini") "plugins")
    by (vm_compute; reflexivity).
  assert (H2 : existsSync (pluginRoot Demo.x_loaded) (fs Demo.x_loaded) = true)
    by (vm_compute; reflexivity).
  assert (H3 : set_of_names (enabledPlugins Demo.x_loaded) = true)
    by (vm_compute; reflexivity).
  assert (H4 : fst (enablePlugin "x" Demo.x_loaded) = Ok true)
    by (vm_compute; reflexivity).
  destruct (proj1 (enabled_state_survives_restart Demo.x_loaded "/w" "x" H1 H2 H3) H4)
    as (T1 & T2 & _).
  split; [exact H1|]. split; [exact H2|]. split; [exact H3|]. split; [exact H4|].
  split; [exact T1|]. rewrite T2. vm_compute. reflexivity.
Defined.

(** ** What a load leaves *)

Lemma same_but_console_refl (w : World) : same_but_console w w.
Proof. repeat split. Qed.

Lemma same_but_console_trans (a b c : World) :
  same_but_console a b -> same_but_console b c -> same_but_console a c.
Proof.
  intros (A1 & A2 & A3 & A4 & A5 & A6 & A7) (B1 & B2 & B3 & B4 & B5 & B6 & B7).
  repeat split; congruence.
Qed.

Lemma instantiate_same_but_console (pluginName : string) :
  keeps same_but_console (instantiate pluginName).
Proof.
  unfold instantiate, loadPluginConfig, console_warn.
  keeps_steps same_but_console_refl same_but_console_trans.
  apply keeps_modify. intros w. repeat split.
Qed.

Lemma instantiate_result (pluginName : string) (w : World) :
  match fst (instantiate pluginName w) with
  | Ok (inl failure) => reports_failure failure
  | Ok (inr (p, _)) => metadata p <> None
  | Throw _ => True
  end.
Proof.
  unfold instantiate, loadPluginConfig, console_warn, try_catch, bind, modify, get,
    lift, ret.
  cbv beta iota.
  repeat match goal with
         | |- context [match ?x with _ => _ end] =>
             lazymatch x with
             | context [match _ with _ => _ end] => fail
             | _ => destruct x eqn:?; cbv beta iota
             end
         end.
  all: cbn [fst] in *; simplify_eq; try exact I; try (repeat split; discriminate).
  all: match goal with
       | H : negb (implements_interface ?p _) = false |- _ =>
           apply negb_false_iff in H; unfold implements_interface in H;
           destruct (metadata p); [discriminate|discriminate H]
       end.
Qed.

Lemma failed_reports_failure (msg : string) : reports_failure (failed msg).
Proof. repeat split. discriminate. Qed.

Lemma loadPlugin_cases (pluginName : string) (w : World) :
  let w' := snd (loadPlugin pluginName w) in
  exists r,
    fst (loadPlugin pluginName w) = Ok r /\
    pluginRoot w' = pluginRoot w /\ fs w' = fs w /\
    enabledPlugins w' = enabledPlugins w /\
    loadPlugin_calls w' = loadPlugin_calls w ++ [pluginName] /\
    ((reports_failure r /\ plugins w' = plugins w /\
      pluginContexts w' = pluginContexts w /\ registry w' = registry w) \/
     (exists p context,
        metadata p <> None /\
        plugins w' = map_set pluginName p (plugins w) /\
        pluginContexts w' = map_set pluginName context (pluginContexts w) /\
        registry w' = registered p (registry w) /\
        (r = {| success := true; plugin := Some p; error := None |} \/
         reports_failure r))).
Proof.
  cbv zeta. rewrite loadPlugin_eq.
  cbv [bind try_catch modify]. fold (note_call pluginName w).
  pose proof (instantiate_same_but_console pluginName (note_call pluginName w)) as K.
  pose proof (instantiate_result pluginName (note_call pluginName w)) as R.
  destruct (instantiate pluginName (note_call pluginName w)) as [[[f|[p c]]|e] w1].
  - cbn [fst snd] in *. unfold note_call in K. simpl in K.
    destruct K as (K1 & K2 & K3 & K4 & K5 & K6 & K7).
    exists f. cbn [ret fst snd]. repeat (split; [first [reflexivity|assumption]|]).
    left. split; [exact R|]. repeat split; assumption.
  - cbn [fst snd] in *. unfold note_call in K. simpl in K.
    destruct K as (K1 & K2 & K3 & K4 & K5 & K6 & K7).
    unfold activate. cbv [bind modify get]. fold (store pluginName p c w1).
    pose proof (registerPluginCapabilities_keeps p (store pluginName p c w1)) as S.
    pose proof (registerPluginCapabilities_registered p (store pluginName p c w1)) as G.
    destruct (registerPluginCapabilities p (store pluginName p c w1)) as [[[]|e] w3];
      cbn [fst snd] in *; destruct S as (S1 & S2 & S3 & S4 & S5 & S6 & S7).
    + destruct (set_has (JStr pluginName) (enabledPlugins w3));
        [destruct (onEnable p) as [[|e]|]|]; cbn [call_hook ret throw fst snd];
        eexists; (split; [reflexivity|]);
        rewrite S1, S5, S3, S7, S2, S4, G; cbn; rewrite K1, K6, K4, K7, K2, K5, K3;
        repeat (split; [reflexivity|]);
        right; exists p, c; repeat (split; [first [reflexivity|assumption]|]);
        first [left; reflexivity|right; apply failed_reports_failure].
    + eexists. cbn [ret fst snd]. split; [reflexivity|].
      rewrite S1, S5, S3, S7, S2, S4, G. cbn. rewrite K1, K6, K4, K7, K2, K5, K3.
      repeat (split; [reflexivity|]).
      right. exists p, c. repeat (split; [first [reflexivity|assumption]|]).
      right. apply failed_reports_failure.
  - cbn [fst snd] in *. unfold note_call in K. simpl in K.
    destruct K as (K1 & K2 & K3 & K4 & K5 & K6 & K7).
    eexists. cbn [ret fst snd]. repeat (split; [first [reflexivity|assumption]|]).
    left. split; [apply failed_reports_failure|]. repeat split; assumption.
Qed.

(** X8. [loadPlugin] never throws: it returns a result. A successful
    result carries the instance, which has its metadata and is what
    [getPlugin] then returns for the name, with a context beside it; a
    failed result carries an error message and no plugin. *)
Theorem loadPlugin_reports (pluginName : string) (w : World) :
  let w' := snd (loadPlugin pluginName w) in
  exists r,
    fst (loadPlugin pluginName w) = Ok r /\
    (success r = true ->
     exists p, plugin r = Some p /\ error r = None /\ metadata p <> None /\
               getPlugin pluginName w' = Some p /\
               map_has pluginName (pluginContexts w') = true) /\
    (success r = false -> reports_failure r).
Proof.
  destruct (loadPlugin_cases pluginName w)
    as (r & Hr & _ & _ & _ & _ & [(F & _)|(p & c & Hm & Hp & Hc & _ & [->|F])]).
  all: exists r || eexists; split; [exact Hr|]; split.
  all: try (intros _; exact F).
  all: try (destruct F as (F & _); rewrite F; discriminate).
  - intros _. exists p. unfold getPlugin, map_has.
    rewrite Hp, Hc, !map_get_set_eq. repeat split. exact Hm.
  - discriminate.
Qed.

(** X9. A load stays within its own name: it leaves the disk, the plugin
    root and the EnabledSet as they were, and the instance and the
    context of every other name. *)
Theorem loadPlugin_frame (pluginName : string) (w : World) :
  let w' := snd (loadPlugin pluginName w) in
  fs w' = fs w /\ pluginRoot w' = pluginRoot w /\
  enabledPlugins w' = enabledPlugins w /\
  forall other, other <> pluginName ->
    getPlugin other w' = getPlugin other w /\
    map_get other (pluginContexts w') = map_get other (pluginContexts w).
Proof.
  destruct (loadPlugin_cases pluginName w)
    as (r & _ & H1 & H2 & H3 & _ & [(_ & Hp & Hc & _)|(p & c & _ & Hp & Hc & _)]).
  all: cbv zeta; split; [exact H2|]; split; [exact H1|]; split; [exact H3|].
  all: intros other Hne; unfold getPlugin; rewrite Hp, Hc.
  - split; reflexivity.
  - rewrite !map_get_set.
    destruct (String.eqb pluginName other) eqn:E; [|split; reflexivity].
    apply String.eqb_eq in E. congruence.
Qed.

(** X10. What a load does to the memory of the manager is one of two
    things. Either it leaves the plugins, the contexts and the Registry
    as they were, and its result reports a failure; or it stores an
    instance and its context under the name, and the Registry is then
    what the registration hooks of that instance make of it, up to and
    including the first hook that throws, whether the result reports
    success or failure. *)
Theorem loadPlugin_all_or_stored (pluginName : string) (w : World) :
  let w' := snd (loadPlugin pluginName w) in
  (succeeded (fst (loadPlugin pluginName w)) = false /\
   plugins w' = plugins w /\ pluginContexts w' = pluginContexts w /\
   registry w' = registry w) \/
  (exists p context,
     plugins w' = map_set pluginName p (plugins w) /\
     pluginContexts w' = map_set pluginName context (pluginContexts w) /\
     registry w' = registered p (registry w)).
Proof.
  destruct (loadPlugin_cases pluginName w)
    as (r & Hr & _ & _ & _ & _ & [(F & Hp & Hc & Hg)|(p & c & _ & Hp & Hc & Hg & _)]).
  - left. cbv zeta. rewrite Hr. split; [exact (proj1 F)|]. repeat split; assumption.
  - right. exists p, c. repeat split; assumption.
Qed.

(** ** Loading every plugin directory *)

Lemma append_assoc (a b c : string) : (a +:+ b) +:+ c = a +:+ (b +:+ c).
Proof.
  induction a as [|x a IH]; [reflexivity|].
  change (String x ((a +:+ b) +:+ c) = String x (a +:+ (b +:+ c))).
  rewrite IH. reflexivity.
Qed.

Lemma strip_prefix_append (p s : string) : strip_prefix p (p +:+ s) = Some s.
Proof.
  induction p as [|a p IH]; [reflexivity|].
  change (String a p +:+ s) with (String a (p +:+ s)). simpl.
  rewrite Ascii.eqb_refl. exact IH.
Qed.

Lemma strip_prefix_Some (p s x : string) : strip_prefix p s = Some x -> s = p +:+ x.
Proof.
  revert s. induction p as [|a p IH]; intros s; simpl.
  - intros H. inversion H. reflexivity.
  - destruct s as [|b s]; [discriminate|].
    destruct (Ascii.eqb a b) eqn:E; [|discriminate].
    apply Ascii.eqb_eq in E. subst b. intros H. rewrite (IH _ H). reflexivity.
Qed.

Lemma entry_name_Some (dir p name : string) :
  entry_name dir p = Some name <->
  p = path_join dir name /\ name <> "" /\ has_separator name = false.
Proof.
  unfold entry_name, path_join. split.
  - destruct (strip_prefix (dir +:+ "/") p) as [x|] eqn:E; [|discriminate].
    apply strip_prefix_Some in E.
    destruct (String.eqb x "") eqn:E1; [discriminate|].
    destruct (has_separator x) eqn:E2; [discriminate|]. simpl.
    intros H. inversion H. subst x. subst p.
    split; [apply append_assoc|]. split; [|exact E2].
    intros ->. discriminate.
  - intros (-> & Hn & Hs). rewrite <- append_assoc, strip_prefix_append, Hs.
    destruct (String.eqb name "") eqn:E; [|reflexivity].
    apply String.eqb_eq in E. contradiction.
Qed.

Lemma readdir_directories_In (dir : string) (d : FS) (l : list string) (name : string) :
  readdir_directories dir d = Ok l ->
  (In name l <->
   nodes d !! path_join dir name = Some Dir /\ name <> "" /\ has_separator name = false).
Proof.
  unfold readdir_directories.
  destruct (nodes d !! dir) as [[|f]|]; try discriminate.
  intros H. inversion H. subst l. clear H.
  rewrite <- list_elem_of_In, list_elem_of_omap. split.
  - intros ([p n] & Hin & He). apply elem_of_map_to_list in Hin.
    unfold directory_entry in He. simpl in He. destruct n; [|discriminate].
    apply entry_name_Some in He. destruct He as (-> & Hn & Hs). auto.
  - intros (Hl & Hn & Hs). exists (path_join dir name, Dir). split.
    + apply elem_of_map_to_list. exact Hl.
    + unfold directory_entry. simpl. apply entry_name_Some. auto.
Qed.

Lemma NoDup_omap_keys {A : Type} (f : string * A -> option string) (l : list (string * A)) :
  NoDup (l.*1) ->
  (forall x y n, f x = Some n -> f y = Some n -> fst x = fst y) ->
  NoDup (omap f l).
Proof.
  intros Hnd Hinj. induction l as [|x l IH]; simpl; [constructor|].
  simpl in Hnd. apply NoDup_cons in Hnd. destruct Hnd as [Hx Hl].
  destruct (f x) as [n|] eqn:E; [|apply IH; exact Hl].
  apply NoDup_cons. split; [|apply IH; exact Hl].
  intros Hin. apply list_elem_of_omap in Hin. destruct Hin as (y & Hy & Ey).
  apply Hx. rewrite (Hinj x y n E Ey). apply list_elem_of_fmap. exists y. auto.
Qed.

Lemma readdir_directories_NoDup (dir : string) (d : FS) (l : list string) :
  readdir_directories dir d = Ok l -> NoDup l.
Proof.
  unfold readdir_directories.
  destruct (nodes d !! dir) as [[|f]|]; try discriminate.
  intros H. inversion H. subst l. clear H.
  apply NoDup_omap_keys; [apply NoDup_fst_map_to_list|].
  intros [p n] [q m] name. unfold directory_entry. simpl.
  destruct n; [|discriminate]. destruct m; [|discriminate].
  intros Hp Hq. apply entry_name_Some in Hp. apply entry_name_Some in Hq.
  destruct Hp as [-> _]. destruct Hq as [-> _]. reflexivity.
Qed.

Lemma load_each_spec (pluginDirs : list string) (w : World) :
  let w' := snd (load_each pluginDirs w) in
  fst (load_each pluginDirs w) = Ok tt /\
  pluginRoot w' = pluginRoot w /\ fs w' = fs w /\
  enabledPlugins w' = enabledPlugins w /\
  loadPlugin_calls w' = loadPlugin_calls w ++ pluginDirs.
Proof.
  revert w. induction pluginDirs as [|n rest IH]; intros w; cbn [load_each].
  - cbn. rewrite app_nil_r. repeat split.
  - destruct (loadPlugin_cases n w) as (r & Hr & H1 & H2 & H3 & H4 & _).
    cbv zeta. unfold bind.
    destruct (loadPlugin n w) as [x w1]. cbn [fst snd] in *. subst x.
    destruct (IH w1) as (I0 & I1 & I2 & I3 & I4).
    split; [exact I0|]. split; [congruence|]. split; [congruence|].
    split; [congruence|]. rewrite I4, H4, <- app_assoc. reflexivity.
Qed.

(** X11. [loadAllPlugins] over a plugin root that is a directory returns
    ([loadPlugin] never throws), and has then entered [loadPlugin] once
    for every directory directly under the root and for nothing else,
    whether the loads before it failed or not; it leaves the disk and
    the EnabledSet as they were. *)
Theorem loadAllPlugins_tries_every_directory (w : World) :
  nodes (fs w) !! pluginRoot w = Some Dir ->
  let w' := snd (loadAllPlugins w) in
  fst (loadAllPlugins w) = Ok tt /\ fs w' = fs w /\
  enabledPlugins w' = enabledPlugins w /\
  exists pluginDirs,
    loadPlugin_calls w' = loadPlugin_calls w ++ pluginDirs /\
    NoDup pluginDirs /\
    forall name,
      In name pluginDirs <->
      nodes (fs w) !! path_join (pluginRoot w) name = Some Dir /\
      name <> "" /\ has_separator name = false.
Proof.
  intros Hroot. cbv zeta. unfold loadAllPlugins, bind, get, lift.
  destruct (readdir_directories (pluginRoot w) (fs w)) as [l|e] eqn:E.
  - destruct (load_each_spec l w) as (I0 & I1 & I2 & I3 & I4).
    split; [exact I0|]. split; [exact I2|]. split; [exact I3|].
    exists l. split; [exact I4|]. split; [exact (readdir_directories_NoDup _ _ _ E)|].
    intros name. apply readdir_directories_In. exact E.
  - unfold readdir_directories in E. rewrite Hroot in E. discriminate.
Qed.

Lemma loadAllPlugins_tries_every_directory_witness :
  nodes (fs Demo.start) !! pluginRoot Demo.start = Some Dir /\
  fst (loadAllPlugins Demo.start) = Ok tt /\
  length (loadPlugin_calls (snd (loadAllPlugins Demo.start))) = 4 /\
  map_has "x" (plugins (snd (loadAllPlugins Demo.start))) = true /\
  exists pluginDirs,
    loadPlugin_calls (snd (loadAllPlugins Demo.start)) = pluginDirs /\
    (In "half" pluginDirs <->
     nodes (fs Demo.start) !! path_join (pluginRoot Demo.start) "half" = Some Dir /\
     "half" <> "" /\ has_separator "half" = false).
Proof.
  assert (H : nodes (fs Demo.start) !! pluginRoot Demo.start = Some Dir)
    by (vm_compute; reflexivity).
  destruct (loadAllPlugins_tries_every_directory Demo.start H)
    as (T1 & _ & _ & l & T2 & _ & T3).
  split; [exact H|]. split; [exact T1|].
  split; [vm_compute; reflexivity|]. split; [vm_compute; reflexivity|].
  exists l. split; [exact T2|]. apply T3.
Defined.

(** ** Reloading *)

Lemma loadPlugin_missing_directory (pluginName : string) (w : World) :
  existsSync (path_join (pluginRoot w) pluginName) (fs w) = false ->
  loadPlugin pluginName w
  = (Ok (failed ("Plugin " +:+ pluginName +:+ " not found")), note_call pluginName w).
Proof.
  intros H. unfold loadPlugin, bind, try_catch, modify, get.
  cbn [pluginRoot fs set_loadPlugin_calls]. rewrite H. reflexivity.
Qed.

Lemma map_get_delete_eq {V : Type} (k : string) (m : JsMap V) :
  map_get k (map_delete k m) = None.
Proof. rewrite map_get_delete, String.eqb_refl. reflexivity. Qed.

(** X12. Reloading a plugin whose directory is gone unloads it: when the
    [onDisable] of the loaded instance, if there is one, does not throw,
    [reloadPlugin] returns the failed result ["Plugin ... not found"],
    and the name has no instance and no context any more, while the
    EnabledSet and the disk are as before. When [onDisable] throws,
    [reloadPlugin] throws that exception and changes nothing. *)
Theorem reloadPlugin_of_removed_plugin (pluginName : string) (w : World) :
  let w' := snd (reloadPlugin pluginName w) in
  (existsSync (path_join (pluginRoot w) pluginName) (fs w) = false ->
   (forall p, getPlugin pluginName w = Some p -> does_not_throw (onDisable p) = true) ->
   fst (reloadPlugin pluginName w)
     = Ok (failed ("Plugin " +:+ pluginName +:+ " not found")) /\
   getPlugin pluginName w' = None /\
   map_get pluginName (pluginContexts w') = None /\
   enabledPlugins w' = enabledPlugins w /\ fs w' = fs w) /\
  (forall p e, getPlugin pluginName w = Some p -> onDisable p = Some (Throws e) ->
               reloadPlugin pluginName w = (Throw e, w)).
Proof.
  cbv zeta. unfold getPlugin. split.
  - intros Hd Hh.
    assert (Hc : (match map_get pluginName (plugins w) with
                  | Some p => call_hook (onDisable p)
                  | None => ret tt
                  end) w = (Ok tt, w)).
    { destruct (map_get pluginName (plugins w)) as [p|]; [|reflexivity].
      apply call_hook_returns. apply Hh. reflexivity. }
    assert (E : reloadPlugin pluginName w
                = loadPlugin pluginName
                    (set_registry (unregisterPlugin pluginName)
                       (set_pluginContexts (map_delete pluginName)
                          (set_plugins (map_delete pluginName) w)))).
    { unfold reloadPlugin, bind, get, modify. rewrite Hc. reflexivity. }
    rewrite E, loadPlugin_missing_directory by exact Hd.
    cbn [fst snd]. unfold note_call.
    cbn [plugins pluginContexts enabledPlugins fs set_loadPlugin_calls set_registry
         set_pluginContexts set_plugins].
    rewrite !map_get_delete_eq. repeat split.
  - intros p e Hp He. unfold reloadPlugin, bind, get.
    rewrite Hp, He. reflexivity.
Qed.

Lemma reloadPlugin_of_removed_plugin_witness :
  let w := snd (PluginInstaller.uninstall "x" Demo.x_loaded) in
  getPlugin "x" w = Some Demo.x /\
  existsSync (path_join (pluginRoot w) "x") (fs w) = false /\
  fst (reloadPlugin "x" w) = Ok (failed "Plugin x not found") /\
  getPlugin "x" (snd (reloadPlugin "x" w)) = None /\
  getPlugin "stubborn" Demo.stubborn_enabled = Some Demo.stubborn /\
  reloadPlugin "stubborn" Demo.stubborn_enabled = (Throw "still busy", Demo.stubborn_enabled).
Proof.
  cbv zeta.
  assert (H1 : existsSync
                 (path_join (pluginRoot (snd (PluginInstaller.uninstall "x" Demo.x_loaded))) "x")
                 (fs (snd (PluginInstaller.uninstall "x" Demo.x_loaded))) = false)
    by (vm_compute; reflexivity).
  assert (H2 : forall p,
             getPlugin "x" (snd (PluginInstaller.uninstall "x" Demo.x_loaded)) = Some p ->
             does_not_throw (onDisable p) = true).
  { intros p Hp. vm_compute in Hp. inversion Hp. reflexivity. }
  assert (H3 : getPlugin "stubborn" Demo.stubborn_enabled = Some Demo.stubborn)
    by (vm_compute; reflexivity).
  destruct (reloadPlugin_of_removed_plugin "x"
              (snd (PluginInstaller.uninstall "x" Demo.x_loaded))) as [T _].
  destruct (T H1 H2) as (T1 & T2 & _).
  destruct (reloadPlugin_of_removed_plugin "stubborn" Demo.stubborn_enabled) as [_ U].
  split; [vm_compute; reflexivity|]. split; [exact H1|]. split; [exact T1|].
  split; [exact T2|]. split; [exact H3|].
  exact (U Demo.stubborn "still busy" H3 eq_refl).
Defined.

(** ** The installer *)

Section InstallerExtras.

Variable execSync : string -> option string -> FS -> Exc FS.

Lemma update_settled (pluginName : string) :
  settled (PluginInstaller.update execSync pluginName).
Proof.
  unfold PluginInstaller.update.
  apply settled_try_catch; [|auto with installer].
  apply plain_bind. intros w.
  pose proof (installFromNpm_settled execSync pluginName).
  apply plain_if; [auto with installer|].
  apply plain_bind. intros _. auto with installer.
Qed.

Lemma update_disk (pluginName : string) :
  keeps same_but_disk (PluginInstaller.update execSync pluginName).
Proof.
  unfold PluginInstaller.update. disk_steps. apply installFromNpm_disk.
Qed.

(** X13. The installer reports, it does not throw: [install], from any
    source, and [update] always return a result, and no result of
    theirs carries a [plugin]; whatever [npm] and [git] do. *)
Theorem installer_always_reports (pluginName : string) (source : option string)
    (w : World) :
  (exists r, fst (PluginInstaller.install execSync pluginName source w) = Ok r /\
             plugin r = None) /\
  (exists r, fst (PluginInstaller.update execSync pluginName w) = Ok r /\
             plugin r = None).
Proof.
  split; [apply install_settled|apply update_settled].
Qed.

(** X14. [installPlugin] installs and never loads: it returns what the
    installer's [install] returns and leaves the state that one leaves,
    in which only the disk can differ from the state before; no
    instance is stored and [loadPlugin] is not entered, whether the
    installation succeeded or not. *)
Theorem installPlugin_never_loads (pluginName : string) (source : option string)
    (w : World) :
  installPlugin execSync pluginName source w
  = PluginInstaller.install execSync pluginName source w /\
  same_but_disk w (snd (installPlugin execSync pluginName source w)).
Proof.
  split; [apply installPlugin_is_install|apply installPlugin_only_installs].
Qed.

(** X15. [update] changes nothing but the disk, and for a plugin without
    a [package.json] it changes nothing at all and reports
    ["Plugin ... not found"]. *)
Theorem update_of_missing_plugin (pluginName : string) (w : World) :
  same_but_disk w (snd (PluginInstaller.update execSync pluginName w)) /\
  (existsSync (path_join (path_join (pluginRoot w) pluginName) "package.json") (fs w)
   = false ->
   PluginInstaller.update execSync pluginName w
   = (Ok (failed ("Plugin " +:+ pluginName +:+ " not found")), w)).
Proof.
  split; [apply update_disk|].
  intros H. unfold PluginInstaller.update, try_catch, bind, get. rewrite H. reflexivity.
Qed.

End InstallerExtras.

Lemma update_of_missing_plugin_witness :
  let execSync := fun (_ : string) (_ : option string) (d : FS) => Ok d in
  existsSync (path_join (path_join (pluginRoot Demo.start) "absent") "package.json")
    (fs Demo.start) = false /\
  PluginInstaller.update execSync "absent" Demo.start
  = (Ok (failed "Plugin absent not found"), Demo.start).
Proof.
  cbv zeta.
  assert (H : existsSync
                (path_join (path_join (pluginRoot Demo.start) "absent") "package.json")
                (fs Demo.start) = false) by (vm_compute; reflexivity).
  split; [exact H|].
  exact (proj2 (update_of_missing_plugin (fun _ _ d => Ok d) "absent" Demo.start) H).
Defined.

Lemma prefix_append (p a b : string) :
  String.prefix (p +:+ a) (p +:+ b) = String.prefix a b.
Proof.
  induction p as [|c p IH]; [reflexivity|].
  change (String c p +:+ a) with (String c (p +:+ a)).
  change (String c p +:+ b) with (String c (p +:+ b)).
  cbn [String.prefix]. destruct (ascii_dec c c) as [_|N]; [exact IH|contradiction].
Qed.

Lemma prefix_longer (p a : string) (c : ascii) :
  String.prefix (p +:+ String c a) p = false.
Proof.
  induction p as [|x p IH]; [reflexivity|].
  change (String x p +:+ String c a) with (String x (p +:+ String c a)).
  cbn [String.prefix]. destruct (ascii_dec x x) as [_|N]; [exact IH|contradiction].
Qed.

Lemma prefix_separator (n m : string) :
  String.prefix (n +:+ "/") m = true -> has_separator m = true.
Proof.
  revert m. induction n as [|c n IH]; intros [|x m]; try discriminate.
  - change ("" +:+ "/") with "/". cbn [String.prefix has_separator].
    destruct (ascii_dec "/" x) as [<-|N]; [reflexivity|discriminate].
  - change (String c n +:+ "/") with (String c (n +:+ "/")).
    cbn [String.prefix has_separator].
    destruct (ascii_dec c x) as [_|N]; [|discriminate].
    intros H. rewrite (IH _ H). apply orb_true_r.
Qed.

Lemma eqb_append_longer (p a : string) (c : ascii) :
  String.eqb p (p +:+ String c a) = false.
Proof.
  induction p as [|x p IH]; [reflexivity|].
  change (String x p +:+ String c a) with (String x (p +:+ String c a)).
  simpl. rewrite Ascii.eqb_refl. exact IH.
Qed.

(** The root is not below one of its entries. *)
Lemma below_root (root name : string) : below (path_join root name) root = false.
Proof.
  unfold below, path_join.
  change ("/" +:+ name) with (String "/" name).
  rewrite eqb_append_longer. rewrite append_assoc.
  change (String "/" name +:+ "/") with (String "/" (name +:+ "/")).
  rewrite prefix_longer. reflexivity.
Qed.

(** Nor is another entry. *)
Lemma below_other (root name other : string) :
  other <> name -> has_separator other = false ->
  below (path_join root name) (path_join root other) = false.
Proof.
  intros Hne Hs. unfold below, path_join.
  rewrite append_eqb. rewrite (append_assoc root), prefix_append.
  change ("/" +:+ other) with (String "/" other).
  change ("/" +:+ name) with (String "/" name).
  change (String "/" name +:+ "/") with (String "/" (name +:+ "/")).
  cbn [String.eqb String.prefix]. rewrite Ascii.eqb_refl.
  destruct (ascii_dec "/" "/") as [_|N]; [|contradiction].
  destruct (String.eqb other name) eqn:E.
  - apply String.eqb_eq in E. contradiction.
  - destruct (String.prefix (name +:+ "/") other) eqn:P; [|reflexivity].
    apply prefix_separator in P. congruence.
Qed.

Lemma rmSync_lookup (p q : string) (d d' : FS) :
  rmSync p d = Ok d' ->
  nodes d' !! q = nodes d !! q \/ (nodes d' !! q = None /\ below p q = true).
Proof.
  unfold rmSync. destruct (existsSync p d).
  - destruct (read_only d); [discriminate|]. intros H. inversion H. subst d'. clear H.
    simpl. destruct (below p q) eqn:B.
    + right. split; [|reflexivity]. apply map_lookup_filter_None. right.
      intros x _. simpl. rewrite B. simpl. auto.
    + left. destruct (nodes d !! q) as [x|] eqn:E.
      * apply map_lookup_filter_Some. split; [exact E|]. simpl. rewrite B. exact I.
      * apply map_lookup_filter_None. left. exact E.
  - intros H. inversion H. left. reflexivity.
Qed.

Lemma uninstall_returns (pluginName : string) (w : World) :
  fst (PluginInstaller.uninstall pluginName w) = Ok tt ->
  exists d,
    rmSync (path_join (pluginRoot w) pluginName) (fs w) = Ok d /\
    snd (PluginInstaller.uninstall pluginName w) = set_fs (fun _ => d) w.
Proof.
  unfold PluginInstaller.uninstall, bind, get, fs_do.
  destruct (existsSync (path_join (pluginRoot w) pluginName) (fs w)) eqn:E.
  - destruct (rmSync (path_join (pluginRoot w) pluginName) (fs w)) as [d|e];
      [|discriminate].
    intros _. exists d. split; reflexivity.
  - intros _. exists (fs w). unfold rmSync. rewrite E. split; [reflexivity|].
    destruct w. reflexivity.
Qed.

(** X16. The installer's [uninstall] takes one plugin off the list: for
    a plain name, one that is not empty, is neither ["."] nor [".."]
    and has no separator, so that the path joined from the root and
    the name is the plugin's own directory, when [uninstall] returns,
    the plugin's directory is gone, and [getInstalledPlugins] lists the
    names it listed before, except the one uninstalled. *)
Theorem uninstall_removes_one_plugin (pluginName : string) (w : World) :
  plain_name pluginName = true ->
  fst (PluginInstaller.uninstall pluginName w) = Ok tt ->
  let w' := snd (PluginInstaller.uninstall pluginName w) in
  existsSync (path_join (pluginRoot w) pluginName) (fs w') = false /\
  forall before after,
    PluginInstaller.getInstalledPlugins w = Ok before ->
    PluginInstaller.getInstalledPlugins w' = Ok after ->
    forall name, In name after <-> In name before /\ name <> pluginName.
Proof.
  intros _ H. cbv zeta. destruct (uninstall_returns _ _ H) as (d & Hd & ->).
  cbn [fs set_fs]. pose proof (rmSync_not_exists _ _ _ Hd) as Hgone.
  split; [exact Hgone|].
  intros before after. unfold PluginInstaller.getInstalledPlugins. cbn [pluginRoot fs set_fs].
  assert (Hroot : nodes d !! pluginRoot w = nodes (fs w) !! pluginRoot w).
  { destruct (rmSync_lookup _ (pluginRoot w) _ _ Hd) as [E|[_ B]]; [exact E|].
    rewrite below_root in B. discriminate. }
  unfold existsSync at 1 2. rewrite Hroot.
  destruct (nodes (fs w) !! pluginRoot w) as [node|] eqn:R; cbn [negb].
  - intros Hb Ha name.
    rewrite (readdir_directories_In _ _ _ name Ha), (readdir_directories_In _ _ _ name Hb).
    split.
    + intros (Hl & Hn & Hs).
      assert (Hne : name <> pluginName).
      { intros ->. unfold existsSync in Hgone. rewrite Hl in Hgone. discriminate. }
      split; [|exact Hne]. split; [|auto].
      destruct (rmSync_lookup _ (path_join (pluginRoot w) name) _ _ Hd) as [E|[E _]];
        congruence.
    + intros ((Hl & Hn & Hs) & Hne). split; [|auto].
      destruct (rmSync_lookup _ (path_join (pluginRoot w) name) _ _ Hd) as [E|[_ B]];
        [congruence|].
      rewrite (below_other _ _ _ Hne Hs) in B. discriminate.
  - intros Hb Ha. inversion Hb. inversion Ha. subst. intros name. simpl. tauto.
Qed.

Lemma uninstall_removes_one_plugin_witness :
  let w := Demo.start in
  let w' := snd (PluginInstaller.uninstall "half" w) in
  plain_name "half" = true /\
  fst (PluginInstaller.uninstall "half" w) = Ok tt /\
  existsSync (path_join (pluginRoot w) "half") (fs w) = true /\
  existsSync (path_join (pluginRoot w) "half") (fs w') = false /\
  exists before after,
    PluginInstaller.getInstalledPlugins w = Ok before /\
    PluginInstaller.getInstalledPlugins w' = Ok after /\
    length before = 4 /\ length after = 3 /\
    (In "x" after <-> In "x" before /\ "x" <> "half").
Proof.
  cbv zeta.
  assert (H : fst (PluginInstaller.uninstall "half" Demo.start) = Ok tt)
    by (vm_compute; reflexivity).
  destruct (uninstall_removes_one_plugin "half" Demo.start eq_refl H) as [T1 T2].
  split; [reflexivity|]. split; [exact H|]. split; [vm_compute; reflexivity|]. split; [exact T1|].
  destruct (PluginInstaller.getInstalledPlugins Demo.start) as [before|e] eqn:Eb;
    [|vm_compute in Eb; discriminate].
  destruct (PluginInstaller.getInstalledPlugins
              (snd (PluginInstaller.uninstall "half" Demo.start))) as [after|e] eqn:Ea;
    [|vm_compute in Ea; discriminate].
  exists before, after. split; [reflexivity|]. split; [reflexivity|].
  split; [vm_compute in Eb; inversion Eb; reflexivity|].
  split; [vm_compute in Ea; inversion Ea; reflexivity|].
  apply (T2 before after eq_refl eq_refl).
Defined.

(** ** The plugins that are enabled *)

Lemma filter_enabled_described (enabled : JsSet) (l : list GeminiPlugin) :
  Forall (fun p => metadata p <> None) l ->
  exists kept,
    filter_enabled enabled l = Ok kept /\
    forall p, In p kept <->
              In p l /\ exists md, metadata p = Some md /\
                                   set_has (JStr (md_name md)) enabled = true.
Proof.
  induction 1 as [|q l Hq Hl IH]; simpl.
  - exists []. split; [reflexivity|]. intros p. simpl. tauto.
  - destruct IH as (kept & -> & Hk). destruct (metadata q) as [md|] eqn:E; [|contradiction].
    simpl. eexists. split; [reflexivity|]. intros p.
    destruct (set_has (JStr (md_name md)) enabled) eqn:S; simpl; rewrite Hk; split.
    + intros [<-|(Hin & Hmd)]; [|auto]. split; [auto|]. exists md. auto.
    + intros ([<-|Hin] & Hmd); auto.
    + intros (Hin & Hmd). auto.
    + intros ([<-|Hin] & Hmd); [|auto].
      destruct Hmd as (md' & E' & S'). congruence.
Qed.

Lemma all_described_loadPlugin (pluginName : string) (w : World) :
  all_described w -> all_described (snd (loadPlugin pluginName w)).
Proof.
  unfold all_described, map_values. intros H.
  destruct (loadPlugin_cases pluginName w)
    as (r & _ & _ & _ & _ & _ & [(_ & Hp & _)|(p & c & Hm & Hp & _)]); rewrite Hp.
  - exact H.
  - rewrite List.Forall_map in *.
    apply Forall_map_set; [exact H|exact Hm].
Qed.

(** X17. [getEnabledPlugins] on a manager filled by [loadPlugin]. A load
    stores only an instance that has its metadata; and when every loaded
    instance has, [getEnabledPlugins] does not throw and returns exactly
    the loaded instances whose metadata name is in the EnabledSet,
    whatever the name they were loaded and enabled under. *)
Theorem getEnabledPlugins_by_metadata_name (pluginName : string) (w : World) :
  all_described w ->
  all_described (snd (loadPlugin pluginName w)) /\
  exists enabled,
    getEnabledPlugins w = Ok enabled /\
    forall p, In p enabled <->
              In p (getAllPlugins w) /\
              exists md, metadata p = Some md /\
                         set_has (JStr (md_name md)) (enabledPlugins w) = true.
Proof.
  intros H. split; [apply all_described_loadPlugin; exact H|].
  apply filter_enabled_described. exact H.
Qed.

Lemma getEnabledPlugins_by_metadata_name_witness :
  let w := snd (enablePlugin "x" Demo.x_loaded) in
  all_described w /\
  all_described (snd (loadPlugin "fragile" w)) /\
  getEnabledPlugins w = Ok [Demo.x] /\
  getEnabledPlugins (snd (loadPlugin "fragile" w)) = Ok [Demo.x].
Proof.
  cbv zeta.
  assert (H : all_described (snd (enablePlugin "x" Demo.x_loaded))).
  { vm_compute. constructor; [discriminate|constructor]. }
  destruct (getEnabledPlugins_by_metadata_name "fragile" _ H) as [T _].
  split; [exact H|]. split; [exact T|].
  split; vm_compute; reflexivity.
Defined.

(** ** The commands *)

Section CommandsExtras.

Variable execSync : string -> option string -> FS -> Exc FS.

Lemma install_command_manager (pluginName : string) (source : option string)
    (t : PluginCommands.Terminal) :
  PluginCommands.manager (snd (PluginCommands.install execSync pluginName source t))
  = snd (installPlugin execSync pluginName source (PluginCommands.manager t)).
Proof.
  unfold PluginCommands.install, PluginCommands.call. cbv zeta.
  cbn [PluginCommands.manager PluginCommands.console_log].
  destruct (fst (installPlugin execSync pluginName source (PluginCommands.manager t)))
    as [r|e]; [destruct (success r)|]; reflexivity.
Qed.

(** X18. A plugin cannot be enabled right after it was installed. For a
    name that is not loaded, the [install] command, whatever it reports,
    leaves the name not loaded, so the [enable] command that follows
    answers ["Failed to enable plugin"] and changes neither the
    EnabledSet nor the disk. *)
Theorem install_then_enable_reports_failure (pluginName : string) (source : option string)
    (t : PluginCommands.Terminal) :
  getPlugin pluginName (PluginCommands.manager t) = None ->
  let t1 := snd (PluginCommands.install execSync pluginName source t) in
  let t2 := snd (PluginCommands.enable pluginName t1) in
  fst (PluginCommands.enable pluginName t1)
    = PluginCommands.nl +:+ "❌ Failed to enable plugin: " +:+ pluginName
      +:+ PluginCommands.nl /\
  PluginCommands.manager t2 = PluginCommands.manager t1 /\
  getPlugin pluginName (PluginCommands.manager t2) = None /\
  enabledPlugins (PluginCommands.manager t2) = enabledPlugins (PluginCommands.manager t).
Proof.
  intros H. cbv zeta.
  pose proof (install_command_manager pluginName source t) as Hm.
  pose proof (installPlugin_only_installs execSync pluginName source
                (PluginCommands.manager t)) as (_ & Hp & _ & He & _).
  rewrite <- Hm in Hp, He.
  set (t1 := snd (PluginCommands.install execSync pluginName source t)) in *.
  assert (Hn : map_get pluginName (plugins (PluginCommands.manager t1)) = None)
    by (rewrite Hp; exact H).
  assert (E : enablePlugin pluginName (PluginCommands.manager t1)
              = (Ok false, PluginCommands.manager t1)).
  { unfold enablePlugin, bind, get. rewrite Hn. reflexivity. }
  unfold PluginCommands.enable, PluginCommands.call. cbv zeta.
  cbn [PluginCommands.manager PluginCommands.console_log]. rewrite E.
  cbn [fst snd PluginCommands.manager]. unfold getPlugin.
  repeat split; assumption.
Qed.

(** X19. The [update] command reports success whenever the installer's
    [update] succeeded and the reload that follows returned: it does not
    look at the result of the reload, so it reports success also when
    the reload failed to load the plugin. The manager is then as the
    reload left it. *)
Theorem update_command_ignores_reload_result (pluginName : string)
    (t : PluginCommands.Terminal) (r r' : PluginInstallResult) :
  let updated := PluginInstaller.update execSync pluginName (PluginCommands.manager t) in
  fst updated = Ok r -> success r = true ->
  fst (reloadPlugin pluginName (snd updated)) = Ok r' ->
  fst (PluginCommands.update execSync pluginName t)
    = PluginCommands.nl +:+ "✅ Successfully updated plugin: " +:+ pluginName
      +:+ PluginCommands.nl /\
  PluginCommands.manager (snd (PluginCommands.update execSync pluginName t))
    = snd (reloadPlugin pluginName (snd updated)).
Proof.
  cbv zeta. intros Hu Hs Hr.
  unfold PluginCommands.update, PluginCommands.call. cbv zeta.
  cbn [PluginCommands.manager PluginCommands.console_log].
  rewrite Hu, Hs. cbn [PluginCommands.manager]. rewrite Hr. split; reflexivity.
Qed.

End CommandsExtras.

Lemma install_then_enable_reports_failure_witness :
  let execSync := fun (_ : string) (_ : option string) (d : FS) => Ok d in
  let t := {| PluginCommands.manager := Demo.fresh; PluginCommands.stdout := [] |} in
  let t1 := snd (PluginCommands.install execSync "pip-analyzer" None t) in
  getPlugin "pip-analyzer" (PluginCommands.manager t) = None /\
  fst (PluginCommands.install execSync "pip-analyzer" None t)
    = PluginCommands.nl +:+ "✅ Successfully installed plugin: pip-analyzer"
      +:+ PluginCommands.nl /\
  fst (PluginCommands.enable "pip-analyzer" t1)
    = PluginCommands.nl +:+ "❌ Failed to enable plugin: pip-analyzer"
      +:+ PluginCommands.nl.
Proof.
  cbv zeta.
  assert (H : getPlugin "pip-analyzer"
                (PluginCommands.manager
                   {| PluginCommands.manager := Demo.fresh;
                      PluginCommands.stdout := [] |}) = None) by reflexivity.
  split; [exact H|]. split; [vm_compute; reflexivity|].
  exact (proj1 (install_then_enable_reports_failure (fun _ _ d => Ok d)
                  "pip-analyzer" None _ H)).
Defined.

Lemma update_command_ignores_reload_result_witness :
  let execSync := fun (_ : string) (_ : option string) (d : FS) => Ok d in
  let w := snd (PluginInstaller.install execSync "pip-analyzer" None Demo.fresh) in
  let t := {| PluginCommands.manager := w; PluginCommands.stdout := [] |} in
  succeeded (fst (PluginInstaller.update execSync "pip-analyzer" w)) = true /\
  succeeded (fst (reloadPlugin "pip-analyzer"
                    (snd (PluginInstaller.update execSync "pip-analyzer" w)))) = true /\
  fst (PluginCommands.update execSync "pip-analyzer" t)
    = PluginCommands.nl +:+ "✅ Successfully updated plugin: pip-analyzer"
      +:+ PluginCommands.nl.
Proof.
  cbv zeta.
  split; [vm_compute; reflexivity|]. split; [vm_compute; reflexivity|].
  set (exec := fun (_ : string) (_ : option string) (d : FS) => Ok d).
  set (w := snd (PluginInstaller.install exec "pip-analyzer" None Demo.fresh)).
  destruct (fst (PluginInstaller.update exec "pip-analyzer" w)) as [r|e] eqn:Eu;
    [|vm_compute in Eu; discriminate].
  destruct (fst (reloadPlugin "pip-analyzer"
                   (snd (PluginInstaller.update exec "pip-analyzer" w)))) as [r'|e] eqn:Er;
    [|vm_compute in Er; discriminate].
  assert (Hs : success r = true) by (vm_compute in Eu; inversion Eu; reflexivity).
  exact (proj1 (update_command_ignores_reload_result exec "pip-analyzer"
                  {| PluginCommands.manager := w; PluginCommands.stdout := [] |}
                  r r' Eu Hs Er)).
Defined.

(** ** A successful uninstall *)

Lemma uninstallPlugin_returns_true (pluginName : string) (w : World) :
  fst (uninstallPlugin pluginName w) = Ok true ->
  let wm := forget pluginName w in
  exists d,
    writeFileSync (enabledFile w) (enabled_json_of wm) (fs w) = Ok d /\
    fst (PluginInstaller.uninstall pluginName (set_fs (fun _ => d) wm)) = Ok tt /\
    snd (uninstallPlugin pluginName w)
    = snd (PluginInstaller.uninstall pluginName (set_fs (fun _ => d) wm)).
Proof.
  intros H. cbv zeta.
  destruct (does_not_throw (uninstall_hook pluginName w)) eqn:Hh.
  - rewrite (uninstallPlugin_hook_returns _ _ Hh) in *. cbv zeta in *.
    destruct (writeFileSync (enabledFile w) (enabled_json_of (forget pluginName w)) (fs w))
      as [d|e]; [|discriminate].
    exists d. split; [reflexivity|].
    destruct (PluginInstaller.uninstall pluginName
                (set_fs (fun _ => d) (forget pluginName w))) as [[[]|e] w'];
      [|discriminate].
    split; reflexivity.
  - unfold uninstall_hook in Hh.
    destruct (map_get pluginName (plugins w)) as [p|] eqn:Hp; [|discriminate].
    destruct (onUninstall p) as [[|e]|] eqn:Ho; try discriminate.
    exfalso. revert H. unfold uninstallPlugin, try_catch, bind, get.
    rewrite Hp, Ho. discriminate.
Qed.

(** X20. What [uninstallPlugin] returning [true] means: the name has no
    instance and no context, it is not in the EnabledSet, and its
    directory is gone from the disk. *)
Theorem uninstallPlugin_true_means_gone (pluginName : string) (w : World) :
  fst (uninstallPlugin pluginName w) = Ok true ->
  let w' := snd (uninstallPlugin pluginName w) in
  getPlugin pluginName w' = None /\
  map_get pluginName (pluginContexts w') = None /\
  set_has (JStr pluginName) (enabledPlugins w') = false /\
  existsSync (path_join (pluginRoot w) pluginName) (fs w') = false /\
  console w' = console w.
Proof.
  intros H. cbv zeta.
  destruct (uninstallPlugin_returns_true _ _ H) as (d & Hw & Hu & ->).
  destruct (uninstall_returns _ _ Hu) as (d' & Hd & ->).
  cbn [pluginRoot fs set_fs forget set_enabledPlugins set_pluginContexts set_plugins
       set_registry] in Hd.
  unfold getPlugin, forget.
  cbn [plugins pluginContexts enabledPlugins console fs set_fs set_enabledPlugins
       set_pluginContexts set_plugins set_registry].
  rewrite !map_get_delete_eq, set_has_delete.
  repeat split. exact (rmSync_not_exists _ _ _ Hd).
Qed.

Lemma uninstallPlugin_true_means_gone_witness :
  let w := snd (enablePlugin "x" Demo.x_loaded) in
  let w' := snd (uninstallPlugin "x" w) in
  getPlugin "x" w = Some Demo.x /\
  set_has (JStr "x") (enabledPlugins w) = true /\
  fst (uninstallPlugin "x" w) = Ok true /\
  getPlugin "x" w' = None /\
  set_has (JStr "x") (enabledPlugins w') = false /\
  existsSync (path_join (pluginRoot w) "x") (fs w') = false.
Proof.
  cbv zeta.
  assert (H : fst (uninstallPlugin "x" (snd (enablePlugin "x" Demo.x_loaded))) = Ok true)
    by (vm_compute; reflexivity).
  destruct (uninstallPlugin_true_means_gone "x" _ H) as (T1 & _ & T3 & T4 & _).
  split; [vm_compute; reflexivity|]. split; [vm_compute; reflexivity|].
  split; [exact H|]. split; [exact T1|]. split; [exact T3|exact T4].
Defined.

Lemma capabilities_of_loaded_plugin_empty_witness :
  all_unknown (registry Demo.start) /\
  "x" <> "unknown" /\
  getCommand "x-cmd" (registry (snd (loadPlugin "x" Demo.start)))
    = Some (Demo.command "x-cmd") /\
  getPluginCapabilities "x" (registry (snd (loadPlugin "x" Demo.start))) = no_capabilities.
Proof.
  assert (H : all_unknown (registry Demo.start)) by constructor.
  assert (Hn : "x" <> "unknown") by discriminate.
  split; [exact H|]. split; [exact Hn|]. split; [vm_compute; reflexivity|].
  apply (capabilities_of_loaded_plugin_empty Demo.start "x" H Hn).
Defined.

(** X21. Revocation by owner, where the ownership keys are unique and
    each is [kind:name] with one of the four kinds and a name without a
    colon: [unregisterPlugin] removes the capabilities and the ownership
    entries whose owner is the given name, and leaves every other entry
    where it was. *)
Theorem unregisterPlugin_removes_what_is_owned (owner : string) (r : PluginRegistry) :
  NoDup (map_keys (pluginOwnership r)) -> well_keyed (pluginOwnership r) ->
  unregisterPlugin owner r = revoked owner r.
Proof. apply unregisterPlugin_revokes. Qed.

Lemma unregisterPlugin_removes_what_is_owned_witness :
  NoDup (map_keys (pluginOwnership (registry Demo.x_loaded))) /\
  well_keyed (pluginOwnership (registry Demo.x_loaded)) /\
  getCommand "x-cmd" (registry Demo.x_loaded) = Some (Demo.command "x-cmd") /\
  unregisterPlugin "unknown" (registry Demo.x_loaded) = empty_registry.
Proof.
  assert (N : NoDup (map_keys (pluginOwnership (registry Demo.x_loaded)))).
  { vm_compute. apply NoDup_singleton. }
  assert (W : well_keyed (pluginOwnership (registry Demo.x_loaded))).
  { vm_compute. constructor; [|constructor].
    exists "command", "x-cmd". repeat split. left. reflexivity. }
  split; [exact N|]. split; [exact W|]. split; [vm_compute; reflexivity|].
  rewrite (unregisterPlugin_removes_what_is_owned "unknown" _ N W). vm_compute. reflexivity.
Defined.

(** ** Paths that differ *)

Lemma path_join_ne_self (d f : string) : path_join d f <> d.
Proof.
  unfold path_join. change ("/" +:+ f) with (String "/" f). intros E.
  pose proof (eqb_append_longer d f "/") as H. rewrite E, String.eqb_refl in H.
  discriminate.
Qed.


(** ** The capabilities of an owner *)

Lemma strip_kind (kind kind' name : string) :
  In kind kinds -> In kind' kinds ->
  strip_prefix (kind +:+ ":") (kind' +:+ ":" +:+ name)
  = if String.eqb kind' kind then Some name else None.
Proof.
  unfold kinds. simpl.
  intros [<-|[<-|[<-|[<-|[]]]]] [<-|[<-|[<-|[<-|[]]]]]; reflexivity.
Qed.

Lemma owned_capabilities_cons {V : Type} (kind owner : string) (e : string * string)
    (l : JsMap string) (m : JsMap V) :
  owned_capabilities kind owner (e :: l) m
  = match (if String.eqb (snd e) owner then
             match strip_prefix (kind +:+ ":") (fst e) with
             | Some name => map_get name m
             | None => None
             end
           else None) with
    | Some x => x :: owned_capabilities kind owner l m
    | None => owned_capabilities kind owner l m
    end.
Proof. reflexivity. Qed.

Lemma getPluginCapabilities_fold (owner : string) (r : PluginRegistry) (l : JsMap string)
    (acc : Capabilities) :
  well_keyed l ->
  fold_left (getPluginCapabilities_step owner r) l acc
  = {| cap_commands := cap_commands acc ++ owned_capabilities "command" owner l (commands r);
       cap_tools := cap_tools acc ++ owned_capabilities "tool" owner l (tools r);
       cap_themes := cap_themes acc ++ owned_capabilities "theme" owner l (themes r);
       cap_extensions :=
         cap_extensions acc ++ owned_capabilities "extension" owner l (extensions r) |}.
Proof.
  intros H. revert acc. induction H as [|[capability o] l Hx Hl IH]; intros acc.
  - simpl. rewrite !app_nil_r. destruct acc. reflexivity.
  - destruct Hx as (kind & name & Hk & Hkind & Hname). simpl in Hk. subst capability.
    cbn [fold_left]. rewrite IH, !owned_capabilities_cons. cbn [fst snd].
    unfold getPluginCapabilities_step.
    destruct (String.eqb o owner).
    + rewrite (split_key kind name (kinds_colon_free _ Hkind) Hname).
      cbn [nth_error].
      rewrite !(fun k H => strip_kind k kind name H Hkind)
        by (unfold kinds; simpl; auto 6).
      unfold kinds in Hkind. simpl in Hkind.
      destruct Hkind as [<-|[<-|[<-|[<-|[]]]]]; cbn [String.eqb Ascii.eqb Bool.eqb];
        cbn [cap_commands cap_tools cap_themes cap_extensions map_get_opt];
        unfold push_opt;
        repeat match goal with
               | |- context [map_get name ?m] => destruct (map_get name m)
               end;
        rewrite <- ?app_assoc; reflexivity.
    + reflexivity.
Qed.

(** X24. What [getPluginCapabilities] returns, where each ownership key
    is [kind:name] with one of the four kinds and a name without a
    colon: for each kind, in the order of the ownership map, the
    capabilities whose ownership entry names the given owner and that
    are registered under the name in the key. *)
Theorem getPluginCapabilities_lists_what_is_owned (owner : string) (r : PluginRegistry) :
  well_keyed (pluginOwnership r) ->
  let l := pluginOwnership r in
  getPluginCapabilities owner r
  = {| cap_commands := owned_capabilities "command" owner l (commands r);
       cap_tools := owned_capabilities "tool" owner l (tools r);
       cap_themes := owned_capabilities "theme" owner l (themes r);
       cap_extensions := owned_capabilities "extension" owner l (extensions r) |}.
Proof.
  intros H. unfold getPluginCapabilities. rewrite getPluginCapabilities_fold by exact H.
  reflexivity.
Qed.

Lemma getPluginCapabilities_lists_what_is_owned_witness :
  let r := registry (snd (loadPlugin "half" Demo.start)) in
  well_keyed (pluginOwnership r) /\
  getPluginCapabilities "unknown" r
  = {| cap_commands := [Demo.command "half-cmd"]; cap_tools := [Demo.tool "half-tool"];
       cap_themes := []; cap_extensions := [] |}.
Proof.
  cbv zeta.
  assert (W : well_keyed (pluginOwnership (registry (snd (loadPlugin "half" Demo.start))))).
  { vm_compute. constructor; [|constructor; [|constructor]].
    - exists "command", "half-cmd". repeat split. left. reflexivity.
    - exists "tool", "half-tool". repeat split. right. left. reflexivity. }
  split; [exact W|].
  rewrite (getPluginCapabilities_lists_what_is_owned "unknown" _ W). vm_compute. reflexivity.
Defined.

(** ** Validating an installation *)

(** X25. When [validateInstallation] reports success: exactly when the
    plugin's [package.json] can be read and parsed, none of the required
    fields is missing, its [entryPoint] is a string, and the file that
    names exists. It never throws and changes nothing. *)
Theorem validateInstallation_succeeds_iff (pluginName : string) (w : World) :
  let dir := path_join (pluginRoot w) pluginName in
  let validated := PluginInstaller.validateInstallation pluginName w in
  snd validated = w /\
  (exists r, fst validated = Ok r) /\
  (succeeded (fst validated) = true <->
   exists md entryPoint,
     read_json (path_join dir "package.json") (fs w) = Ok md /\
     PluginInstaller.first_missing md PluginInstaller.required = Ok None /\
     get_prop md "entryPoint" = Ok (Some (JStr entryPoint)) /\
     existsSync (path_join dir entryPoint) (fs w) = true).
Proof.
  cbv zeta. unfold PluginInstaller.validateInstallation, try_catch, bind, get, lift.
  set (dir := path_join (pluginRoot w) pluginName).
  destruct (existsSync (path_join dir "package.json") (fs w)) eqn:Ep; cbn [negb].
  - destruct (read_json (path_join dir "package.json") (fs w)) as [md|e] eqn:Er.
    + destruct (PluginInstaller.first_missing md PluginInstaller.required)
        as [[field|]|e] eqn:Em.
      * cbn [fst snd succeeded success failed ret]. split; [reflexivity|]. split; [eauto|]. split; [discriminate|].
        intros (md' & ep & H1 & H2 & _). congruence.
      * destruct (get_prop md "entryPoint") as [[v|]|e] eqn:Eg.
        -- destruct v as [| | |s| |];
             try (cbn [fst snd succeeded success failed ret]; split; [reflexivity|]; split; [eauto|]; split; [discriminate|];
                  intros (md' & ep & H1 & _ & H3 & _); congruence).
           cbn [PluginInstaller.join_entryPoint].
           destruct (existsSync (path_join dir s) (fs w)) eqn:Ee; cbn [fst snd succeeded success failed ret negb].
           ++ split; [reflexivity|]. split; [eauto|]. split; [|reflexivity].
              intros _. exists md, s. auto.
           ++ split; [reflexivity|]. split; [eauto|]. split; [discriminate|].
              intros (md' & ep & H1 & _ & H3 & H4). congruence.
        -- cbn [fst snd succeeded success failed ret]. split; [reflexivity|]. split; [eauto|]. split; [discriminate|].
           intros (md' & ep & H1 & _ & H3 & _). congruence.
        -- cbn [fst snd succeeded success failed ret]. split; [reflexivity|]. split; [eauto|]. split; [discriminate|].
           intros (md' & ep & H1 & _ & H3 & _). congruence.
      * cbn [fst snd succeeded success failed ret]. split; [reflexivity|]. split; [eauto|]. split; [discriminate|].
        intros (md' & ep & H1 & H2 & _). congruence.
    + cbn [fst snd succeeded success failed ret]. split; [reflexivity|]. split; [eauto|]. split; [discriminate|].
      intros (md' & ep & H1 & _). congruence.
  - cbn [fst snd succeeded success failed ret]. split; [reflexivity|]. split; [eauto|]. split; [discriminate|].
    intros (md & ep & H1 & _). unfold read_json, readFileSync, existsSync in *.
    destruct (nodes (fs w) !! path_join dir "package.json"); discriminate.
Qed.

Lemma validateInstallation_succeeds_iff_witness :
  succeeded (fst (PluginInstaller.validateInstallation "x" Demo.start)) = true /\
  succeeded (fst (PluginInstaller.validateInstallation "absent" Demo.start)) = false /\
  exists md entryPoint,
    read_json (path_join (path_join (pluginRoot Demo.start) "x") "package.json")
      (fs Demo.start) = Ok md /\
    PluginInstaller.first_missing md PluginInstaller.required = Ok None /\
    get_prop md "entryPoint" = Ok (Some (JStr entryPoint)) /\
    existsSync (path_join (path_join (pluginRoot Demo.start) "x") entryPoint)
      (fs Demo.start) = true.
Proof.
  assert (H : succeeded (fst (PluginInstaller.validateInstallation "x" Demo.start)) = true)
    by (vm_compute; reflexivity).
  split; [exact H|]. split; [vm_compute; reflexivity|].
  destruct (validateInstallation_succeeds_iff "x" Demo.start) as (_ & _ & T).
  exact (proj1 T H).
Defined.

(** ** The configuration of a plugin *)

(** X26. [loadPluginConfig] fails soft: it never throws and changes
    nothing but the console. Without a [config.json] it returns the
    empty object and logs nothing; with one that parses it returns the
    parsed value and logs nothing; with one that cannot be read or
    parsed it returns the empty object and logs one warning. *)
Theorem loadPluginConfig_fails_soft (pluginName : string) (w : World) :
  let configFile := path_join (path_join (pluginRoot w) pluginName) "config.json" in
  let loaded := loadPluginConfig pluginName w in
  same_but_console w (snd loaded) /\
  (existsSync configFile (fs w) = false -> loaded = (Ok (JObj []), w)) /\
  (forall cfg, read_json configFile (fs w) = Ok cfg -> loaded = (Ok cfg, w)) /\
  (forall e, existsSync configFile (fs w) = true ->
             read_json configFile (fs w) = Throw e ->
             fst loaded = Ok (JObj []) /\
             console (snd loaded)
             = console w ++ [Warn ("Failed to load config for plugin " +:+ pluginName
                                   +:+ ":") e]).
Proof.
  cbv zeta. unfold loadPluginConfig, try_catch, bind, get, lift, console_warn, modify, ret.
  set (configFile := path_join (path_join (pluginRoot w) pluginName) "config.json").
  destruct (existsSync configFile (fs w)) eqn:E.
  - destruct (read_json configFile (fs w)) as [cfg|e]; cbn.
    + split; [repeat split|]. split; [discriminate|]. split; [|discriminate].
      intros cfg' H. inversion H. reflexivity.
    + split; [repeat split|]. split; [discriminate|]. split; [discriminate|].
      intros e' _ H. inversion H. split; reflexivity.
  - split; [repeat split|]. split; [reflexivity|]. split; [|discriminate].
    intros cfg H. unfold read_json, readFileSync, existsSync in *.
    destruct (nodes (fs w) !! configFile); discriminate.
Qed.

Lemma loadPluginConfig_fails_soft_witness :
  existsSync (path_join (path_join (pluginRoot Demo.start) "x") "config.json")
    (fs Demo.start) = false /\
  loadPluginConfig "x" Demo.start = (Ok (JObj []), Demo.start).
Proof.
  assert (H : existsSync (path_join (path_join (pluginRoot Demo.start) "x") "config.json")
                (fs Demo.start) = false) by (vm_compute; reflexivity).
  split; [exact H|].
  destruct (loadPluginConfig_fails_soft "x" Demo.start) as (_ & T & _).
  exact (T H).
Defined.

(** ** The commands, over a plugin whose hook throws *)

(** X27. What the commands answer when a lifecycle hook of the loaded
    plugin throws. [enable] and [disable] answer with the failure
    message that carries the message of the exception, and leave the
    manager as it was; [uninstall] answers with the failure message
    without a reason, and leaves the plugin loaded, with the failure
    logged on the console. Each prints its one line first. *)
Theorem commands_report_hook_failures (pluginName e : string) (p : GeminiPlugin)
    (t : PluginCommands.Terminal) :
  getPlugin pluginName (PluginCommands.manager t) = Some p ->
  (onEnable p = Some (Throws e) ->
   PluginCommands.enable pluginName t
   = (PluginCommands.nl +:+ "❌ Failed to enable plugin: " +:+ pluginName
      +:+ PluginCommands.nl +:+ "   Error: " +:+ e +:+ PluginCommands.nl,
      PluginCommands.console_log ("✅ Enabling plugin: " +:+ pluginName +:+ "...") t)) /\
  (onDisable p = Some (Throws e) ->
   PluginCommands.disable pluginName t
   = (PluginCommands.nl +:+ "❌ Failed to disable plugin: " +:+ pluginName
      +:+ PluginCommands.nl +:+ "   Error: " +:+ e +:+ PluginCommands.nl,
      PluginCommands.console_log ("❌ Disabling plugin: " +:+ pluginName +:+ "...") t)) /\
  (onUninstall p = Some (Throws e) ->
   let after := PluginCommands.uninstall pluginName t in
   fst after = PluginCommands.nl +:+ "❌ Failed to uninstall plugin: " +:+ pluginName
               +:+ PluginCommands.nl /\
   PluginCommands.manager (snd after)
   = log_uninstall_failure pluginName e (PluginCommands.manager t) /\
   getPlugin pluginName (PluginCommands.manager (snd after)) = Some p).
Proof.
  unfold getPlugin. intros Hp. split; [|split]; intros Hh.
  - unfold PluginCommands.enable, PluginCommands.call. cbv zeta.
    cbn [PluginCommands.manager PluginCommands.console_log].
    assert (E : enablePlugin pluginName (PluginCommands.manager t)
                = (Throw e, PluginCommands.manager t)).
    { unfold enablePlugin, bind, get. rewrite Hp. cbv beta iota. rewrite Hh. reflexivity. }
    rewrite E. destruct t. reflexivity.
  - unfold PluginCommands.disable, PluginCommands.call. cbv zeta.
    cbn [PluginCommands.manager PluginCommands.console_log].
    rewrite (disablePlugin_hook_throws _ _ _ _ Hp Hh). destruct t. reflexivity.
  - unfold PluginCommands.uninstall, PluginCommands.call. cbv zeta.
    cbn [PluginCommands.manager PluginCommands.console_log].
    assert (E : uninstallPlugin pluginName (PluginCommands.manager t)
                = (Ok false, log_uninstall_failure pluginName e (PluginCommands.manager t))).
    { unfold uninstallPlugin, try_catch, bind, get. rewrite Hp. cbv beta iota.
      rewrite Hh. reflexivity. }
    rewrite E. cbn [fst snd PluginCommands.manager]. repeat split. exact Hp.
Qed.

Lemma commands_report_hook_failures_witness :
  let t := {| PluginCommands.manager := Demo.fragile_enabled;
              PluginCommands.stdout := [] |} in
  getPlugin "fragile" (PluginCommands.manager t) = Some Demo.fragile /\
  onUninstall Demo.fragile = Some (Throws "cleanup failed") /\
  fst (PluginCommands.uninstall "fragile" t)
    = PluginCommands.nl +:+ "❌ Failed to uninstall plugin: fragile" +:+ PluginCommands.nl /\
  getPlugin "fragile" (PluginCommands.manager (snd (PluginCommands.uninstall "fragile" t)))
    = Some Demo.fragile.
Proof.
  cbv zeta.
  assert (H : getPlugin "fragile"
                (PluginCommands.manager
                   {| PluginCommands.manager := Demo.fragile_enabled;
                      PluginCommands.stdout := [] |}) = Some Demo.fragile)
    by (vm_compute; reflexivity).
  destruct (commands_report_hook_failures "fragile" "cleanup failed" Demo.fragile _ H)
    as (_ & _ & T).
  destruct (T eq_refl) as (T1 & _ & T3).
  split; [exact H|]. split; [reflexivity|]. split; [exact T1|exact T3].
Defined.

(** ** After a revocation *)

Lemma unregisterPlugin_ownership (owner : string) (r : PluginRegistry) :
  Forall (fun e => String.eqb (snd e) owner = false)
    (pluginOwnership (unregisterPlugin owner r)).
Proof.
  unfold unregisterPlugin.
  rewrite (fold_left_proj pluginOwnership _ (disown owner) _ _ (step_ownership owner)).
  rewrite fold_disown. apply List.Forall_forall. intros kv Hin.
  apply filter_In in Hin. destruct Hin as [Hin Hf].
  apply negb_true_iff in Hf.
  destruct (String.eqb (snd kv) owner) eqn:E; [|reflexivity].
  assert (X : existsb (fun e => String.eqb (snd e) owner && String.eqb (fst e) (fst kv))
                (pluginOwnership r) = true).
  { apply existsb_exists. exists kv. split; [exact Hin|].
    rewrite E, String.eqb_refl. reflexivity. }
  congruence.
Qed.

Lemma getPluginCapabilities_none (owner : string) (r : PluginRegistry) :
  Forall (fun e => String.eqb (snd e) owner = false) (pluginOwnership r) ->
  getPluginCapabilities owner r = no_capabilities.
Proof.
  intros H. unfold getPluginCapabilities. generalize no_capabilities.
  induction H as [|[capability o] l Hx Hl IH]; intros acc; simpl.
  - reflexivity.
  - simpl in Hx. rewrite Hx. apply IH.
Qed.

(** X28. After a revocation the owner owns nothing: for every registry
    and every name, [getPluginCapabilities] of the name is empty in the
    registry that [unregisterPlugin] of the name leaves, also where the
    keys are such that a capability stays registered. *)
Theorem revoked_owner_owns_nothing (owner : string) (r : PluginRegistry) :
  getPluginCapabilities owner (unregisterPlugin owner r) = no_capabilities.
Proof.
  apply getPluginCapabilities_none. apply unregisterPlugin_ownership.
Qed.

Lemma map_has_filter_key {V : Type} (f : string -> bool) (k : string) (m : JsMap V) :
  map_has k (List.filter (fun kv => f (fst kv)) m) = f k && map_has k m.
Proof.
  unfold map_has, map_get. induction m as [|[k0 v0] m IH]; simpl.
  - rewrite andb_false_r. reflexivity.
  - destruct (f k0) eqn:F; simpl.
    + destruct (String.eqb k0 k) eqn:E.
      * apply String.eqb_eq in E. subst k0. rewrite F. reflexivity.
      * exact IH.
    + destruct (String.eqb k0 k) eqn:E; [|exact IH].
      apply String.eqb_eq in E. subst k0. rewrite IH, F. reflexivity.
Qed.

Lemma map_get_filter_owner (owner k : string) (l : JsMap string) :
  NoDup (map_keys l) ->
  map_get k (List.filter (fun kv => negb (String.eqb (snd kv) owner)) l)
  = match map_get k l with
    | Some o => if String.eqb o owner then None else Some o
    | None => None
    end.
Proof.
  unfold map_get. induction l as [|[k0 o] l IH]; simpl; [reflexivity|].
  intros Hnd. apply NoDup_cons in Hnd. destruct Hnd as [Hk Hl].
  destruct (String.eqb k0 k) eqn:E.
  - apply String.eqb_eq in E. subst k0.
    destruct (String.eqb o owner); simpl; [|rewrite String.eqb_refl; reflexivity].
    apply map_get_not_in. intros Hin. apply Hk. apply list_elem_of_In.
    unfold map_keys in *. apply in_map_iff in Hin. destruct Hin as ([k1 o1] & <- & Hin).
    apply filter_In in Hin. apply in_map_iff. exists (k1, o1). split; [reflexivity|tauto].
  - destruct (String.eqb o owner); simpl; [|rewrite E]; apply IH; exact Hl.
Qed.

(** X29. Revocation keeps the capability maps and the ownership map in
    step, where the ownership keys are unique and each is [kind:name]
    with one of the four kinds and a name without a colon. *)
Theorem unregisterPlugin_keeps_in_step (owner : string) (r : PluginRegistry) :
  NoDup (map_keys (pluginOwnership r)) -> well_keyed (pluginOwnership r) ->
  in_step r -> in_step (unregisterPlugin owner r).
Proof.
  intros Hnd Hwk Hs. rewrite (unregisterPlugin_revokes owner r Hnd Hwk).
  intros name. destruct (Hs name) as (Hc & Ht & Hh & He).
  unfold revoked, drop_owned.
  cbn [commands tools themes extensions pluginOwnership].
  rewrite !(map_has_filter_key (fun k => negb (owned_by owner (pluginOwnership r) _ k))).
  unfold map_has at 2 4 6 8. rewrite !(map_get_filter_owner _ _ _ Hnd).
  rewrite Hc, Ht, Hh, He. unfold owned_by, map_has.
  change ("command" +:+ ":" +:+ name) with ("command:" +:+ name).
  change ("tool" +:+ ":" +:+ name) with ("tool:" +:+ name).
  change ("theme" +:+ ":" +:+ name) with ("theme:" +:+ name).
  change ("extension" +:+ ":" +:+ name) with ("extension:" +:+ name).
  repeat split.
  all: match goal with
       | |- context [map_get ?k ?l] => destruct (map_get k l) as [o|]; [|reflexivity]
       end.
  all: destruct (String.eqb o owner); reflexivity.
Qed.

Lemma unregisterPlugin_keeps_in_step_witness :
  let r := registry (snd (loadPlugin "half" Demo.start)) in
  NoDup (map_keys (pluginOwnership r)) /\
  well_keyed (pluginOwnership r) /\
  in_step r /\
  getCommand "half-cmd" r = Some (Demo.command "half-cmd") /\
  getCommand "half-cmd" (unregisterPlugin "unknown" r) = None /\
  in_step (unregisterPlugin "unknown" r).
Proof.
  cbv zeta.
  assert (N : NoDup (map_keys (pluginOwnership
                                 (registry (snd (loadPlugin "half" Demo.start)))))).
  { vm_compute. apply NoDup_cons. split; [|apply NoDup_singleton].
    intros H. apply list_elem_of_singleton in H. discriminate. }
  assert (W : well_keyed (pluginOwnership (registry (snd (loadPlugin "half" Demo.start))))).
  { vm_compute. constructor; [|constructor; [|constructor]].
    - exists "command", "half-cmd". repeat split. left. reflexivity.
    - exists "tool", "half-tool". repeat split. right. left. reflexivity. }
  assert (S : in_step (registry (snd (loadPlugin "half" Demo.start)))).
  { apply (loadPlugin_P in_step registerCommand_in_step unregisterCommand_in_step
             registerTool_in_step unregisterTool_in_step registerTheme_in_step
             unregisterTheme_in_step registerExtension_in_step
             unregisterExtension_in_step "half" Demo.start).
    intros name. repeat split. }
  split; [exact N|]. split; [exact W|]. split; [exact S|].
  split; [vm_compute; reflexivity|]. split; [vm_compute; reflexivity|].
  apply (unregisterPlugin_keeps_in_step "unknown" _ N W S).
Defined.

(** ** An uninstall and a restart *)

Lemma new_PluginManager_reads_saved (w : World) (workspaceRoot : string) :
  pluginRoot w = path_join (path_join workspaceRoot ".gemini") "plugins" ->
  existsSync (pluginRoot w) (fs w) = true ->
  saved w -> set_of_names (enabledPlugins w) = true ->
  new_PluginManager workspaceRoot (fs w)
  = (Ok tt, set_enabledPlugins (fun _ => enabledPlugins w)
              (new_manager (pluginRoot w) (fs w))).
Proof.
  intros Hr He Hs Hn. unfold new_PluginManager. rewrite <- Hr.
  cbv [ensurePluginDirectory bind get].
  cbn [pluginRoot fs new_manager]. rewrite He. cbn [negb ret].
  apply (loadEnabledPlugins_saved w _ Hs Hn); reflexivity.
Qed.

Lemma writeFileSync_lookup (p q : string) (f : FileObs) (d d' : FS) :
  writeFileSync p f d = Ok d' ->
  nodes d' !! p = Some (File f) /\ (q <> p -> nodes d' !! q = nodes d !! q).
Proof.
  unfold writeFileSync. destruct (read_only d); [discriminate|].
  destruct (nodes d !! p) as [[|g]|]; try discriminate;
    intros H; inversion H; subst d'; cbn [nodes set_nodes];
    (split; [apply lookup_insert_eq|intros Hq; apply lookup_insert_ne; congruence]).
Qed.

(** X30. An uninstall lasts. In a manager whose plugin root exists and
    whose EnabledSet holds plugin names, each once: when
    [uninstallPlugin] of a plain name (not empty, neither ["."] nor
    [".."], without a separator) other than ["enabled.json"] returns
    [true], a manager constructed afterwards over the same workspace
    reads back the EnabledSet without the name, and its
    [loadAllPlugins] does not enter [loadPlugin] for the name. *)
Theorem uninstall_survives_restart (w : World) (workspaceRoot pluginName : string) :
  pluginRoot w = path_join (path_join workspaceRoot ".gemini") "plugins" ->
  existsSync (pluginRoot w) (fs w) = true ->
  set_of_names (enabledPlugins w) = true ->
  plain_name pluginName = true ->
  pluginName <> "enabled.json" ->
  fst (uninstallPlugin pluginName w) = Ok true ->
  let restarted := new_PluginManager workspaceRoot (fs (snd (uninstallPlugin pluginName w))) in
  fst restarted = Ok tt /\
  enabledPlugins (snd restarted) = set_delete (JStr pluginName) (enabledPlugins w) /\
  set_has (JStr pluginName) (enabledPlugins (snd restarted)) = false /\
  ~ In pluginName (loadPlugin_calls (snd (loadAllPlugins (snd restarted)))).
Proof.
  intros Hr He Hn _ Hne Ht. cbv zeta.
  destruct (uninstallPlugin_returns_true _ _ Ht) as (d & Hw & Hu & Hw').
  destruct (uninstall_returns _ _ Hu) as (d' & Hd & Hw'').
  rewrite Hw', Hw''. clear Hw' Hw''.
  cbn [pluginRoot fs set_fs forget set_enabledPlugins set_pluginContexts set_plugins
       set_registry] in Hd.
  set (w' := set_fs (fun _ => d') (set_fs (fun _ => d) (forget pluginName w))).
  assert (Hroot : pluginRoot w' = pluginRoot w) by reflexivity.
  assert (Hen : enabledPlugins w' = set_delete (JStr pluginName) (enabledPlugins w))
    by reflexivity.
  destruct (writeFileSync_lookup _ (pluginRoot w) _ _ _ Hw) as [Hfile Hother].
  assert (Hsaved : saved w').
  { unfold saved. change (enabledFile w') with (enabledFile w).
    change (enabled_json_of w') with (enabled_json_of (forget pluginName w)).
    change (fs w') with d'.
    destruct (rmSync_lookup _ (enabledFile w) _ _ Hd) as [E|[_ B]]; [congruence|].
    unfold enabledFile in B. rewrite below_other in B; [discriminate| |reflexivity].
    intros E. apply Hne. symmetry. exact E. }
  assert (Hexists : existsSync (pluginRoot w') (fs w') = true).
  { change (fs w') with d'. rewrite Hroot. unfold existsSync in *.
    destruct (rmSync_lookup _ (pluginRoot w) _ _ Hd) as [E|[_ B]].
    - rewrite E, Hother; [exact He|].
      intros E'. symmetry in E'. exact (path_join_ne_self _ _ E').
    - rewrite below_root in B. discriminate. }
  assert (Hnames : set_of_names (enabledPlugins w') = true)
    by (rewrite Hen; apply set_delete_names; exact Hn).
  rewrite (new_PluginManager_reads_saved w' workspaceRoot (eq_trans Hroot Hr)
             Hexists Hsaved Hnames).
  cbn [fst snd enabledPlugins set_enabledPlugins]. rewrite Hen.
  split; [reflexivity|]. split; [reflexivity|]. split; [apply set_has_delete|].
  unfold loadAllPlugins, bind, get, lift.
  cbn [pluginRoot fs set_enabledPlugins new_manager].
  destruct (readdir_directories (pluginRoot w') (fs w')) as [l|e] eqn:El.
  - destruct (load_each_spec l (set_enabledPlugins (fun _ => enabledPlugins w')
                                  (new_manager (pluginRoot w') (fs w'))))
      as (_ & _ & _ & _ & I4).
    rewrite <- Hen. rewrite I4. cbn [loadPlugin_calls set_enabledPlugins new_manager app].
    intros Hin. apply (readdir_directories_In _ _ _ pluginName El) in Hin.
    destruct Hin as (Hl & _).
    pose proof (rmSync_not_exists _ _ _ Hd) as Hgone.
    unfold existsSync in Hgone. change (fs w') with d' in Hl. rewrite Hroot in Hl.
    rewrite Hl in Hgone. discriminate.
  - cbn. auto.
Qed.

Lemma uninstall_survives_restart_witness :
  let w := snd (enablePlugin "x" Demo.x_loaded) in
  let restarted := new_PluginManager "/w" (fs (snd (uninstallPlugin "x" w))) in
  pluginRoot w = path_join (path_join "/w" ".gemini") "plugins" /\
  existsSync (pluginRoot w) (fs w) = true /\
  set_of_names (enabledPlugins w) = true /\
  plain_name "x" = true /\
  "x" <> "enabled.json" /\
  set_has (JStr "x") (enabledPlugins w) = true /\
  fst (uninstallPlugin "x" w) = Ok true /\
  fst restarted = Ok tt /\
  enabledPlugins (snd restarted) = [] /\
  length (loadPlugin_calls (snd (loadAllPlugins (snd restarted)))) = 3 /\
  ~ In "x" (loadPlugin_calls (snd (loadAllPlugins (snd restarted)))).
Proof.
  cbv zeta.
  assert (H1 : pluginRoot (snd (enablePlugin "x" Demo.x_loaded))
               = path_join (path_join "/w" ".gemini") "plugins") by (vm_compute; reflexivity).
  assert (H2 : existsSync (pluginRoot (snd (enablePlugin "x" Demo.x_loaded)))
                 (fs (snd (enablePlugin "x" Demo.x_loaded))) = true)
    by (vm_compute; reflexivity).
  assert (H3 : set_of_names (enabledPlugins (snd (enablePlugin "x" Demo.x_loaded))) = true)
    by (vm_compute; reflexivity).
  assert (H4 : "x" <> "enabled.json") by discriminate.
  assert (H5 : fst (uninstallPlugin "x" (snd (enablePlugin "x" Demo.x_loaded))) = Ok true)
    by (vm_compute; reflexivity).
  destruct (uninstall_survives_restart _ "/w" "x" H1 H2 H3 eq_refl H4 H5)
    as (T1 & T2 & _ & T4).
  split; [exact H1|]. split; [exact H2|]. split; [exact H3|]. split; [reflexivity|].
  split; [exact H4|].
  split; [vm_compute; reflexivity|]. split; [exact H5|]. split; [exact T1|].
  split; [rewrite T2; vm_compute; reflexivity|]. split; [vm_compute; reflexivity|exact T4].
Defined.

(** ** Installing a mock plugin and loading it *)

Lemma mkdirSync_lookup (p q : string) (d d' : FS) :
  mkdirSync p d = Ok d' ->
  nodes d' !! p = Some Dir /\ (q <> p -> nodes d' !! q = nodes d !! q).
Proof.
  unfold mkdirSync. destruct (nodes d !! p) as [[|f]|] eqn:E; try discriminate.
  - intros H. inversion H. subst d'. split; [exact E|reflexivity].
  - destruct (read_only d); [discriminate|].
    intros H. inversion H. subst d'. cbn [nodes set_nodes].
    split; [apply lookup_insert_eq|intros Hq; apply lookup_insert_ne; congruence].
Qed.




Section MockInstall.

Variable execSync : string -> option string -> FS -> Exc FS.




End MockInstall.


(** ** The result for a source of no known kind *)

Lemma yields_ret (P : PluginInstallResult -> Prop) (r : PluginInstallResult) :
  P r -> yields P (ret r).
Proof. intros H w. exact H. Qed.

Lemma yields_bind {A : Type} (P : PluginInstallResult -> Prop) (c : M A)
    (k : A -> M PluginInstallResult) :
  (forall a, yields P (k a)) -> yields P (bind c k).
Proof.
  intros Hk w. unfold bind. destruct (c w) as [[a|e] w1]; simpl; [apply Hk|exact I].
Qed.

Lemma yields_try_catch (P : PluginInstallResult -> Prop) (c : M PluginInstallResult)
    (h : string -> M PluginInstallResult) :
  yields P c -> (forall e, yields P (h e)) -> yields P (try_catch c h).
Proof.
  intros Hc Hh w. unfold try_catch. specialize (Hc w).
  destruct (c w) as [[r|e] w1]; simpl in *; [exact Hc|apply Hh].
Qed.

Lemma yields_if (P : PluginInstallResult -> Prop) (b : bool) (c d : M PluginInstallResult) :
  yields P c -> yields P d -> yields P (if b then c else d).
Proof. destruct b; auto. Qed.

Ltac other_steps :=
  repeat lazymatch goal with
         | |- yields _ (ret _) => apply yields_ret; exact eq_refl
         | |- yields _ (try_catch _ _) => apply yields_try_catch; [|intros ?; cbv beta]
         | |- yields _ (bind _ _) => apply yields_bind; intros ?; cbv beta
         | |- yields _ (let _ := _ in _) => cbv zeta
         | |- yields _ (if _ then _ else _) => apply yields_if
         | |- yields _ (match ?x with _ => _ end) => destruct x
         | |- yields _ _ => solve [auto]
         end.

Lemma validateInstallation_other (pluginName : string) :
  yields other_result (PluginInstaller.validateInstallation pluginName).
Proof. unfold PluginInstaller.validateInstallation. other_steps. Qed.

Lemma createMockPlugin_other (pluginName pluginDir : string) :
  yields other_result (PluginInstaller.createMockPlugin pluginName pluginDir).
Proof. unfold PluginInstaller.createMockPlugin. other_steps. Qed.

Section InvalidSource.

Variable execSync : string -> option string -> FS -> Exc FS.

Lemma installFromNpm_other (pluginName : string) :
  yields other_result (PluginInstaller.installFromNpm execSync pluginName).
Proof.
  pose proof (validateInstallation_other pluginName).
  pose proof (createMockPlugin_other pluginName).
  unfold PluginInstaller.installFromNpm. other_steps.
Qed.

Lemma installFromUrl_other (pluginName url : string) :
  yields other_result (PluginInstaller.installFromUrl execSync pluginName url).
Proof.
  pose proof (validateInstallation_other pluginName).
  unfold PluginInstaller.installFromUrl. other_steps.
Qed.

Lemma installFromLocalPath_other (pluginName localPath : string) :
  yields other_result (PluginInstaller.installFromLocalPath execSync pluginName localPath).
Proof.
  pose proof (validateInstallation_other pluginName).
  unfold PluginInstaller.installFromLocalPath. other_steps.
Qed.

Lemma installFromSource_invalid (pluginName source : string) (w : World)
    (r : PluginInstallResult) :
  let installed := PluginInstaller.installFromSource execSync pluginName source w in
  fst installed = Ok r -> invalid_source_error r = true ->
  nodes (fs (snd installed)) !! path_join (pluginRoot w) pluginName = Some Dir /\
  existsSync source (fs (snd installed)) = false /\
  String.eqb source "npm" = false /\
  PluginInstaller.startsWith "http" source = false /\
  PluginInstaller.startsWith "file://" source = false.
Proof.
  cbv zeta.
  set (dir := path_join (pluginRoot w) pluginName).
  remember (PluginInstaller.installFromSource execSync pluginName source w) as res eqn:E.
  revert E.
  unfold PluginInstaller.installFromSource. unfold bind at 1. unfold get at 1.
  fold dir. unfold try_catch. unfold bind at 1. unfold fs_do at 1.
  destruct (mkdirSync dir (fs w)) as [d1|e1] eqn:E1; [|intros -> E H; cbn [ret fst] in E; inversion E; subst r; discriminate H].
  destruct (mkdirSync_lookup dir dir _ _ E1) as [L1 _].
  set (w1 := set_fs (fun _ => d1) w).
  destruct (String.eqb source "npm") eqn:Hnpm.
  { intros -> E H. exfalso. revert E H.
    pose proof (installFromNpm_other pluginName w1) as Y.
    destruct (PluginInstaller.installFromNpm execSync pluginName w1) as [[r'|e] w2];
      cbn [fst] in *; intros E H; inversion E; subst; unfold other_result in Y;
      try congruence; discriminate H. }
  destruct (PluginInstaller.startsWith "http" source) eqn:Hhttp.
  { intros -> E H. exfalso. revert E H.
    pose proof (installFromUrl_other pluginName source w1) as Y.
    destruct (PluginInstaller.installFromUrl execSync pluginName source w1)
      as [[r'|e] w2];
      cbn [fst] in *; intros E H; inversion E; subst; unfold other_result in Y;
      try congruence; discriminate H. }
  destruct (PluginInstaller.startsWith "file://" source) eqn:Hfile.
  { intros -> E H. exfalso. revert E H.
    pose proof (installFromLocalPath_other pluginName
                  (PluginInstaller.after_prefix "file://" source) w1) as Y.
    destruct (PluginInstaller.installFromLocalPath execSync pluginName
                (PluginInstaller.after_prefix "file://" source) w1) as [[r'|e] w2];
      cbn [fst] in *; intros E H; inversion E; subst; unfold other_result in Y;
      try congruence; discriminate H. }
  unfold bind, get. destruct (existsSync source (fs w1)) eqn:Hex.
  { intros -> E H. exfalso. revert E H.
    pose proof (installFromLocalPath_other pluginName source w1) as Y.
    destruct (PluginInstaller.installFromLocalPath execSync pluginName source w1)
      as [[r'|e] w2];
      cbn [fst] in *; intros E H; inversion E; subst; unfold other_result in Y;
      try congruence; discriminate H. }
  intros -> _ _. cbn [ret fst snd]. subst w1. cbn [fs set_fs] in *.
  repeat split; assumption || reflexivity.
Qed.

(** X23. An installation that answers [Invalid source: ...] has created
    the plugin's directory and leaves it behind. When [install] with a
    source returns the failed result whose error is
    ["Invalid source: "] followed by the source, the directory of the
    plugin exists afterwards, nothing exists at the source path, the
    source is not empty, is not ["npm"] and starts with neither
    ["http"] nor ["file://"], and nothing but the disk has changed. *)
Theorem install_from_invalid_source (pluginName source : string) (w : World) :
  let installed := PluginInstaller.install execSync pluginName (Some source) w in
  fst installed = Ok (failed ("Invalid source: " +:+ source)) ->
  nodes (fs (snd installed)) !! path_join (pluginRoot w) pluginName = Some Dir /\
  existsSync source (fs (snd installed)) = false /\
  String.eqb source "" = false /\
  String.eqb source "npm" = false /\
  PluginInstaller.startsWith "http" source = false /\
  PluginInstaller.startsWith "file://" source = false /\
  same_but_disk w (snd installed).
Proof.
  cbv zeta. intros H.
  assert (V : invalid_source_error (failed ("Invalid source: " +:+ source)) = true).
  { unfold invalid_source_error, failed. cbn [error].
    change (String.prefix ("Invalid source: " +:+ "") ("Invalid source: " +:+ source)
            = true).
    rewrite prefix_append. destruct source; reflexivity. }
  pose proof (install_disk execSync pluginName (Some source) w) as Kd.
  cut (nodes (fs (snd (PluginInstaller.install execSync pluginName (Some source) w)))
         !! path_join (pluginRoot w) pluginName = Some Dir /\
       existsSync source
         (fs (snd (PluginInstaller.install execSync pluginName (Some source) w))) = false /\
       String.eqb source "" = false /\
       String.eqb source "npm" = false /\
       PluginInstaller.startsWith "http" source = false /\
       PluginInstaller.startsWith "file://" source = false).
  { intros (A & B & C & D & F & G). repeat split; try assumption; apply Kd. }
  clear Kd. revert H.
  remember (PluginInstaller.install execSync pluginName (Some source) w) as res eqn:E.
  revert E.
  unfold PluginInstaller.install, try_catch. unfold bind at 1. unfold get at 1.
  unfold bind at 1.
  set (dir := path_join (pluginRoot w) pluginName).
  pose proof (uninstall_disk pluginName w) as Ku.
  assert (K0 : pluginRoot (snd ((if existsSync dir (fs w)
                                 then PluginInstaller.uninstall pluginName
                                 else ret tt) w)) = pluginRoot w).
  { destruct (existsSync dir (fs w)); [exact (proj1 Ku)|reflexivity]. }
  destruct ((if existsSync dir (fs w) then PluginInstaller.uninstall pluginName
             else ret tt) w) as [[[]|e0] w0]; [|intros -> H; discriminate H].
  cbn [snd] in K0.
  destruct (String.eqb source "") eqn:Hs; cbn [negb].
  { intros -> H. exfalso. revert H.
    pose proof (installFromNpm_other pluginName w0) as Y.
    destruct (PluginInstaller.installFromNpm execSync pluginName w0) as [[r'|e] w2];
      cbn [fst] in *; intros H; inversion H; subst; unfold other_result in Y;
      congruence. }
  intros -> H.
  pose proof (installFromSource_settled execSync pluginName source w0) as (r & Er & _).
  pose proof (installFromSource_invalid pluginName source w0) as K. cbv zeta in K.
  destruct (PluginInstaller.installFromSource execSync pluginName source w0)
    as [[r'|e] w2]; [|discriminate Er].
  cbn [fst snd] in *. inversion H; subst r'.
  destruct (K _ eq_refl V) as (A & B & C & D & F).
  subst dir. rewrite <- K0. repeat split; assumption.
Qed.

End InvalidSource.

Lemma install_from_invalid_source_witness :
  let execSync := fun (_ : string) (_ : option string) (d : FS) => Ok d in
  let installed := PluginInstaller.install execSync "y" (Some "nowhere") Demo.fresh in
  fst installed = Ok (failed "Invalid source: nowhere") /\
  existsSync (path_join (pluginRoot Demo.fresh) "y") (fs Demo.fresh) = false /\
  nodes (fs (snd installed)) !! path_join (pluginRoot Demo.fresh) "y" = Some Dir.
Proof.
  cbv zeta.
  assert (H : fst (PluginInstaller.install (fun _ _ d => Ok d) "y" (Some "nowhere")
                     Demo.fresh)
              = Ok (failed ("Invalid source: " +:+ "nowhere")))
    by (vm_compute; reflexivity).
  destruct (install_from_invalid_source (fun _ _ d => Ok d) "y" "nowhere" Demo.fresh H)
    as (T1 & _).
  split; [exact H|]. split; [vm_compute; reflexivity|exact T1].
Defined.

(** ** Uninstalling a name that is not loaded *)

(** C10, as amended: [uninstallPlugin] of a name that has no loaded
    instance calls no hook and takes the name out of the EnabledSet in
    memory, whatever happens next. It returns [true] exactly when the
    write of enabled.json and then the installer's [uninstall] both
    return; the state is then the one the installer's [uninstall] left,
    the directory of the name does not exist, nothing is logged, and,
    for a plain name other than ["enabled.json"], enabled.json holds the
    set without the name. When the write or the removal throws, the
    exception is caught and logged and the result is [false]. *)
Theorem uninstallPlugin_not_loaded (w : World) (pluginName : string) :
  map_get pluginName (plugins w) = None ->
  let saved := saveEnabledPlugins (forget pluginName w) in
  let removed := PluginInstaller.uninstall pluginName (snd saved) in
  let w' := snd (uninstallPlugin pluginName w) in
  set_has (JStr pluginName) (enabledPlugins w') = false /\
  (fst saved = Ok tt -> fst removed = Ok tt ->
   uninstallPlugin pluginName w = (Ok true, snd removed) /\
   existsSync (path_join (pluginRoot w) pluginName) (fs w') = false /\
   console w' = console w /\
   (plain_name pluginName = true -> pluginName <> "enabled.json" ->
    read_json (enabledFile w) (fs w')
    = Ok (JObj [("plugins", JArr (List.map restringify (enabledPlugins w')))]))) /\
  (forall e, fst saved = Throw e ->
             uninstallPlugin pluginName w
             = (Ok false, log_uninstall_failure pluginName e (forget pluginName w))) /\
  (forall e, fst saved = Ok tt -> fst removed = Throw e ->
             uninstallPlugin pluginName w
             = (Ok false, log_uninstall_failure pluginName e (snd removed))).
Proof.
  intros Hp. cbv zeta.
  assert (Hh : does_not_throw (uninstall_hook pluginName w) = true)
    by (unfold uninstall_hook; rewrite Hp; reflexivity).
  pose proof (uninstallPlugin_hook_returns w pluginName Hh) as E. cbv zeta in E.
  pose proof (saveEnabledPlugins_eq (forget pluginName w)) as S.
  change (enabledFile (forget pluginName w)) with (enabledFile w) in S.
  change (fs (forget pluginName w)) with (fs w) in S.
  destruct (writeFileSync (enabledFile w) (enabled_json_of (forget pluginName w)) (fs w))
    as [d|e] eqn:W; rewrite S; cbn [fst snd].
  - pose proof (uninstall_disk pluginName (set_fs (fun _ => d) (forget pluginName w)))
      as (K1 & K2 & K3 & K4 & K5 & K6 & K7).
    destruct (PluginInstaller.uninstall pluginName
                (set_fs (fun _ => d) (forget pluginName w))) as [[[]|e] w1] eqn:U;
      rewrite E; cbn [fst snd] in *.
    + split; [rewrite K4; apply set_has_delete|].
      split; [|split; [discriminate|intros e _ He; discriminate He]].
      intros _ _. split; [reflexivity|].
      assert (Hu : fst (PluginInstaller.uninstall pluginName
                          (set_fs (fun _ => d) (forget pluginName w))) = Ok tt)
        by (rewrite U; reflexivity).
      destruct (uninstall_returns _ _ Hu) as (d' & Hd & Hw1).
      rewrite U in Hw1. cbn [snd] in Hw1.
      cbn [pluginRoot fs set_fs forget set_enabledPlugins set_pluginContexts set_plugins
           set_registry] in Hd.
      assert (Hfs : fs w1 = d') by (rewrite Hw1; reflexivity).
      split; [rewrite Hfs; exact (rmSync_not_exists _ _ _ Hd)|].
      split; [rewrite K6; reflexivity|].
      intros Hplain Hne. rewrite Hfs, K4.
      destruct (writeFileSync_lookup _ (enabledFile w) _ _ _ W) as [Hfile _].
      unfold read_json, readFileSync.
      destruct (rmSync_lookup _ (enabledFile w) _ _ Hd) as [L|[_ B]].
      * rewrite L, Hfile. reflexivity.
      * unfold enabledFile in B. rewrite below_other in B; [discriminate| |reflexivity].
        intros X. apply Hne. symmetry. exact X.
    + split; [unfold log_uninstall_failure; cbn [enabledPlugins set_console];
              rewrite K4; apply set_has_delete|].
      split; [intros _ He; discriminate He|].
      split; [discriminate|]. intros e' _ He. inversion He. reflexivity.
  - rewrite E. cbn [fst snd].
    split; [apply set_has_delete|].
    split; [discriminate|]. split; [|discriminate].
    intros e' He. inversion He. reflexivity.
Qed.

Lemma uninstallPlugin_not_loaded_witness :
  let w := Demo.start in
  let w' := snd (uninstallPlugin "x" w) in
  map_get "x" (plugins w) = None /\
  fst (saveEnabledPlugins (forget "x" w)) = Ok tt /\
  fst (PluginInstaller.uninstall "x" (snd (saveEnabledPlugins (forget "x" w)))) = Ok tt /\
  plain_name "x" = true /\ "x" <> "enabled.json" /\
  existsSync (path_join (pluginRoot w) "x") (fs w) = true /\
  fst (uninstallPlugin "x" w) = Ok true /\
  set_has (JStr "x") (enabledPlugins w') = false /\
  existsSync (path_join (pluginRoot w) "x") (fs w') = false /\
  read_json (enabledFile w) (fs w') = Ok (JObj [("plugins", JArr [])]).
Proof.
  cbv zeta.
  assert (H1 : map_get "x" (plugins Demo.start) = None) by reflexivity.
  assert (H2 : fst (saveEnabledPlugins (forget "x" Demo.start)) = Ok tt)
    by (vm_compute; reflexivity).
  assert (H3 : fst (PluginInstaller.uninstall "x"
                      (snd (saveEnabledPlugins (forget "x" Demo.start)))) = Ok tt)
    by (vm_compute; reflexivity).
  assert (H4 : plain_name "x" = true) by reflexivity.
  assert (H5 : "x" <> "enabled.json") by discriminate.
  destruct (uninstallPlugin_not_loaded Demo.start "x" H1) as (T1 & T2 & _).
  destruct (T2 H2 H3) as (T3 & T4 & _ & T5).
  split; [exact H1|]. split; [exact H2|]. split; [exact H3|]. split; [exact H4|].
  split; [exact H5|]. split; [vm_compute; reflexivity|].
  split; [rewrite T3; reflexivity|]. split; [exact T1|]. split; [exact T4|].
  rewrite (T5 H4 H5). vm_compute. reflexivity.
Defined.

(** C10 fails on a read-only disk: for a name that was never loaded,
    [uninstallPlugin] returns [false] where the claim has it return
    [true]; the change of the EnabledSet is not persisted and the
    directory of the plugin is still there. *)
Lemma uninstall_not_loaded_on_locked_disk_counterexample :
  let w := set_fs Demo.lock Demo.start in
  let w' := snd (uninstallPlugin "x" w) in
  map_get "x" (plugins w) = None /\
  fst (uninstallPlugin "x" w) = Ok false /\
  existsSync (enabledFile w) (fs w') = false /\
  existsSync (path_join (pluginRoot w) "x") (fs w') = true /\
  console w'
  = [Error "Failed to uninstall plugin x:"
       "EROFS: read-only file system, open '/w/.gemini/plugins/enabled.json'"].
Proof. vm_compute. repeat split; reflexivity. Qed.
